(** * BidBuddy: the IPO listing scraper ([ipoji_scrapper.py])

    A shallow embedding of the text-to-record core of [IPOScraper]:
    [split_ipo_blocks_v2], [parse_single_ipo_block], the [extract_*] helpers
    and the per-block loop of [parse_ipo_data], together with the parts of
    Python they rest on ([re], [str], [int], [float], [datetime.strptime]).

    Conventions of the model.
    - A Python [str] is a [list ascii]; a character is a code point below 256.
      On that range [\d] is [0-9], and [\s] and [str.strip] use the table of
      [Py_UNICODE_ISSPACE].
    - [re] is a backtracking matcher.  [run] returns every way a pattern can
      match at a position, in the order in which the backtracking engine
      would find them; the match [re] reports is the first one.
    - A Python [float] is the rational it denotes ([Fin q]), an infinity or
      a NaN; every float operation is the exact operation followed by [fround],
      rounding to the nearest binary64 value, ties to even.
    - An exception that leaves a function is a [Raise] result.
    - Printing and the fetch of the page are left out: the model starts
      from [page_text].
    - Each pattern is quoted in the comment above its definition; where a
      pattern has a star right before a closing parenthesis, the comment
      sets a blank between the two. *)

From Stdlib Require Import List Ascii String ZArith QArith Qround Bool Lia Arith Sorted.
From Stdlib Require Qcanon.
Import ListNotations.

Local Open Scope Z_scope.
Local Open Scope list_scope.

(** ** Characters and strings *)

Module Str.

Definition text := list ascii.

Definition str (s : string) : text := list_ascii_of_string s.

Definition code (c : ascii) : N := N_of_ascii c.

Definition in_range (lo hi c : ascii) : bool :=
  (code lo <=? code c)%N && (code c <=? code hi)%N.

(** [\d], Py_UNICODE_ISDECIMAL below 256. *)
Definition is_digit (c : ascii) : bool := in_range "0" "9" c.

(** [\s] and the characters [str.strip] removes, Py_UNICODE_ISSPACE below
    256: 0x09-0x0D, 0x1C-0x1F, 0x20, 0x85, 0xA0. *)
Definition is_space (c : ascii) : bool :=
  let n := code c in
  ((9 <=? n) && (n <=? 13) || (28 <=? n) && (n <=? 32)
   || (n =? 133) || (n =? 160))%N.

Definition is_upper (c : ascii) : bool := in_range "A" "Z" c.
Definition is_lower (c : ascii) : bool := in_range "a" "z" c.

Definition lower (c : ascii) : ascii :=
  if is_upper c then ascii_of_N (code c + 32) else c.

Definition upper (c : ascii) : ascii :=
  if is_lower c then ascii_of_N (code c - 32) else c.

Definition eqb_text (a b : text) : bool :=
  if list_eq_dec ascii_dec a b then true else false.

Fixpoint drop_while (p : ascii -> bool) (s : text) : text :=
  match s with
  | [] => []
  | c :: t => if p c then drop_while p t else s
  end.

(** [s.strip()] *)
Definition strip (s : text) : text :=
  rev (drop_while is_space (rev (drop_while is_space s))).

(** [c in s] for a one-character [c] *)
Definition contains_char (c : ascii) (s : text) : bool :=
  existsb (Ascii.eqb c) s.

(** [s.split(c)] for a one-character separator: never empty, one more piece
    than there are separators. *)
Fixpoint split (c : ascii) (s : text) : list text :=
  match s with
  | [] => [[]]
  | x :: t =>
      if Ascii.eqb x c then [] :: split c t
      else match split c t with
           | h :: r => (x :: h) :: r
           | [] => [[x]]
           end
  end.

(** [sep.join(l)] *)
Fixpoint join (sep : text) (l : list text) : text :=
  match l with
  | [] => []
  | [a] => a
  | a :: r => a ++ sep ++ join sep r
  end.

(** [prefix] is how [s] starts; with [ci] letters are compared without case. *)
Fixpoint starts_with (ci : bool) (prefix s : text) : bool :=
  match prefix, s with
  | [], _ => true
  | _ :: _, [] => false
  | p :: ps, c :: cs =>
      (if ci then Ascii.eqb (lower p) (lower c) else Ascii.eqb p c)
      && starts_with ci ps cs
  end.

(** Some suffix of [s] starts with [w]: [w] occurs in [s]. *)
Fixpoint occurs (ci : bool) (w s : text) : bool :=
  starts_with ci w s ||
  match s with
  | [] => false
  | _ :: t => occurs ci w t
  end.

End Str.

Import Str.

(** ** Regular expressions: the subset of [re] the scraper's patterns use *)

Module Re.

Inductive cset_item :=
| CChar (c : ascii)              (* a literal member *)
| CRange (lo hi : ascii)         (* lo-hi *)
| CDigit                         (* \d *)
| CSpace.                        (* \s *)

Inductive regex :=
| Eps
| Chr (c : ascii)
| Any                                       (* . *)
| Cls (neg : bool) (items : list cset_item) (* [...] and [^...] *)
| Seq (r1 r2 : regex)
| Alt (r1 r2 : regex)                       (* r1|r2, r1 tried first *)
| Rep (greedy : bool) (lo : nat) (r : regex)(* r{lo,} and r{lo,}? *)
| Grp (n : nat) (r : regex)                 (* capture group number n *)
| Ahead (r : regex)                         (* (?=r) *)
| Bol                                       (* ^ *)
| Eol.                                      (* $ *)

Record flags := { ignorecase : bool; dotall : bool }.

Definition no_flags := {| ignorecase := false; dotall := false |}.
Definition IGNORECASE := {| ignorecase := true; dotall := false |}.
Definition IGNORECASE_DOTALL := {| ignorecase := true; dotall := true |}.

Infix ";;" := Seq (at level 61, right associativity).

(** A literal word. *)
Fixpoint lit_chars (s : text) : regex :=
  match s with
  | [] => Eps
  | c :: t => Chr c ;; lit_chars t
  end.

Definition lit (s : string) : regex := lit_chars (str s).

Fixpoint alts (l : list regex) : regex :=
  match l with
  | [] => Eps
  | [r] => r
  | r :: t => Alt r (alts t)
  end.

Definition star (r : regex) := Rep true 0 r.        (* r*  *)
Definition plus (r : regex) := Rep true 1 r.        (* r+  *)
Definition star_lazy (r : regex) := Rep false 0 r.  (* r*? *)
Definition opt (r : regex) := Alt r Eps.            (* r?  *)

Definition digit := Cls false [CDigit].      (* \d *)
Definition space := Cls false [CSpace].      (* \s *)

Definition item_has (i : cset_item) (c : ascii) : bool :=
  match i with
  | CChar d => Ascii.eqb d c
  | CRange lo hi => in_range lo hi c
  | CDigit => is_digit c
  | CSpace => is_space c
  end.

Definition set_has (items : list cset_item) (c : ascii) : bool :=
  existsb (fun i => item_has i c) items.

Definition chr_matches (fl : flags) (p c : ascii) : bool :=
  if ignorecase fl then Ascii.eqb (lower p) (lower c) else Ascii.eqb p c.

Definition cls_matches (fl : flags) (neg : bool) (items : list cset_item)
    (c : ascii) : bool :=
  let hit :=
    if ignorecase fl
    then set_has items c || set_has items (lower c) || set_has items (upper c)
    else set_has items c in
  if neg then negb hit else hit.

Definition any_matches (fl : flags) (c : ascii) : bool :=
  if dotall fl then true else negb (Ascii.eqb c "010").

(** The state of a match attempt: the position in the subject, the text
    from there on, and the groups captured so far (latest first). *)
Record mstate := MState {
  pos : nat;
  rest : text;
  caps : list (nat * text)
}.

Definition step_if (ok : ascii -> bool) (st : mstate) : list mstate :=
  match rest st with
  | c :: t => if ok c then [MState (S (pos st)) t (caps st)] else []
  | [] => []
  end.

(** The [lo] compulsory rounds of a repeat. *)
Fixpoint rep_min (body : mstate -> list mstate) (lo : nat) (st : mstate)
    : list mstate :=
  match lo with
  | O => [st]
  | S n => flat_map (rep_min body n) (body st)
  end.

(** The optional rounds: a greedy repeat tries one more round before it
    tries to stop, a lazy one the other way round.  A round that consumes
    nothing ends the repeat (the guard [re] has against endless loops; no
    repeat of this program has a body that can match the empty string). *)
Fixpoint rep_more (body : mstate -> list mstate) (greedy : bool) (fuel : nat)
    (st : mstate) : list mstate :=
  match fuel with
  | O => [st]
  | S f =>
      let more :=
        flat_map (fun st' =>
                    if (pos st <? pos st')%nat then rep_more body greedy f st'
                    else [])
                 (body st) in
      if greedy then more ++ [st] else st :: more
  end.

(** All matches of [r] from [st], best first. *)
Fixpoint run (fl : flags) (r : regex) (st : mstate) : list mstate :=
  match r with
  | Eps => [st]
  | Chr p => step_if (chr_matches fl p) st
  | Any => step_if (any_matches fl) st
  | Cls neg items => step_if (cls_matches fl neg items) st
  | Seq r1 r2 => flat_map (run fl r2) (run fl r1 st)
  | Alt r1 r2 => run fl r1 st ++ run fl r2 st
  | Rep greedy lo r1 =>
      flat_map (rep_more (run fl r1) greedy (S (List.length (rest st))))
               (rep_min (run fl r1) lo st)
  | Grp n r1 =>
      map (fun st' =>
             MState (pos st') (rest st')
                    ((n, firstn (pos st' - pos st) (rest st)) :: caps st'))
          (run fl r1 st)
  | Ahead r1 =>
      match run fl r1 st with
      | [] => []
      | st' :: _ => [MState (pos st) (rest st) (caps st')]
      end
  | Bol => if (pos st =? 0)%nat then [st] else []
  | Eol =>
      match rest st with
      | [] => [st]
      | [c] => if Ascii.eqb c "010" then [st] else []
      | _ => []
      end
  end.

(** A match object. *)
Record rmatch := RMatch {
  m_start : nat;
  m_end : nat;
  m_caps : list (nat * text)
}.

Fixpoint lookup (n : nat) (l : list (nat * text)) : option text :=
  match l with
  | [] => None
  | (k, v) :: t => if (k =? n)%nat then Some v else lookup n t
  end.

(** [m.group(n)]; [None] when the group took no part in the match. *)
Definition group (n : nat) (m : rmatch) : option text := lookup n (m_caps m).

(** The match at position [p], where [s] is the subject from [p] on.  With
    [must_advance] an empty match is not accepted (the engine's rule after
    an empty match in [findall] and [sub]). *)
Definition match_here (fl : flags) (r : regex) (must_advance : bool)
    (p : nat) (s : text) : option rmatch :=
  let ok st := if must_advance then negb (pos st =? p)%nat else true in
  match filter ok (run fl r (MState p s [])) with
  | [] => None
  | st :: _ => Some (RMatch p (pos st) (caps st))
  end.

(** The leftmost match at or after position [p]. *)
Fixpoint search_from (fl : flags) (r : regex) (must_advance : bool)
    (p : nat) (s : text) : option (rmatch * text) :=
  match match_here fl r must_advance p s with
  | Some m => Some (m, skipn (m_end m - p) s)
  | None =>
      match s with
      | [] => None
      | _ :: t => search_from fl r false (S p) t
      end
  end.

(** [re.search(r, s)] *)
Definition search (fl : flags) (r : regex) (s : text) : option rmatch :=
  option_map fst (search_from fl r false 0 s).

(** [re.match(r, s)] *)
Definition match_ (fl : flags) (r : regex) (s : text) : option rmatch :=
  match_here fl r false 0 s.

(** The successive matches [re.finditer] yields: each search starts where
    the last match ended. *)
Fixpoint finditer_from (fl : flags) (r : regex) (fuel : nat)
    (must_advance : bool) (p : nat) (s : text) : list rmatch :=
  match fuel with
  | O => []
  | S f =>
      match search_from fl r must_advance p s with
      | None => []
      | Some (m, s') =>
          m :: finditer_from fl r f (m_end m =? m_start m)%nat (m_end m) s'
      end
  end.

Definition finditer (fl : flags) (r : regex) (s : text) : list rmatch :=
  finditer_from fl r (2 * List.length s + 2) false 0 s.

(** [re.sub(r, repl, s)] for a replacement without group references. *)
Fixpoint sub_matches (repl : text) (ms : list rmatch) (cur : nat) (s : text)
    : text :=
  match ms with
  | [] => s
  | m :: ms' =>
      firstn (m_start m - cur) s ++ repl
      ++ sub_matches repl ms' (m_end m) (skipn (m_end m - cur) s)
  end.

Definition sub (fl : flags) (r : regex) (repl : text) (s : text) : text :=
  sub_matches repl (finditer fl r s) 0 s.

End Re.

Import Re.

(** ** Python numbers and exceptions *)

Module Py.

Inductive exn :=
| ValueError | OverflowError | ZeroDivisionError
| IndexError | TypeError | AttributeError.

(** The outcome of code that may raise. *)
Inductive result (A : Type) :=
| Ok (a : A)
| Raise (e : exn).
Arguments Ok {A} a.
Arguments Raise {A} e.

Definition bind {A B : Type} (x : result A) (k : A -> result B) : result B :=
  match x with
  | Ok a => k a
  | Raise e => Raise e
  end.

Notation "'let*' x ':=' e 'in' k" := (bind e (fun x => k))
  (at level 10, x pattern, e at level 100, k at level 200).

(** [sys.get_int_max_str_digits()], CPython's default. *)
Definition int_max_str_digits : nat := 4300.

Definition digit_val (c : ascii) : Z := Z.of_N (code c) - 48.

(** Decimal digits, with single underscores allowed between two digits;
    [prev] tells whether the character before was a digit. *)
Fixpoint digits_value (acc : Z) (prev : bool) (s : text) : option Z :=
  match s with
  | [] => if prev then Some acc else None
  | c :: t =>
      if is_digit c then digits_value (10 * acc + digit_val c) true t
      else if Ascii.eqb c "_" && prev then
        match t with
        | [] => None
        | _ => digits_value acc false t
        end
      else None
  end.

(** [int(s)] for a string, base 10; [None] is [ValueError], the one
    exception it raises on a string: surrounding whitespace is dropped, a
    sign may lead, and more than [int_max_str_digits] digits are refused. *)
Definition py_int (s : text) : option Z :=
  let s1 := strip s in
  let '(neg, body) :=
    match s1 with
    | "-"%char :: t => (true, t)
    | "+"%char :: t => (false, t)
    | _ => (false, s1)
    end in
  if (int_max_str_digits <? List.length (filter is_digit body))%nat then None
  else option_map (fun v => if neg then - v else v)
                  (digits_value 0 false body).

(** A [float]: a finite value, an infinity, or a NaN. *)
Inductive pyfloat :=
| Fin (q : Q)
| Inf (negative : bool)
| NaN.

(** [n/d] rounded to an integer, ties to even ([0 <= n], [0 < d]). *)
Definition round_half_even (n d : Z) : Z :=
  let f := n / d in
  match 2 * (n mod d) ?= d with
  | Lt => f
  | Gt => f + 1
  | Eq => if Z.even f then f else f + 1
  end.

(** The binade of [a/d] for positive [a] and [d]: the [l] with
    [2^l <= a/d < 2^(l+1)]. *)
Definition binade (a d : Z) : Z :=
  let l0 := Z.log2 a - Z.log2 d in
  let below := if 0 <=? l0 then a <? d * 2 ^ l0 else a * 2 ^ (- l0) <? d in
  if below then l0 - 1 else l0.

(** [a/d] counted in units of [2^e], rounded to an integer. *)
Definition scaled_round (a d e : Z) : Z :=
  if 0 <=? e then round_half_even a (d * 2 ^ e)
  else round_half_even (a * 2 ^ (- e)) d.

(** The rational [m * 2^e]. *)
Definition dyadic (m e : Z) : Q :=
  if 0 <=? e then Qmake (m * 2 ^ e) 1 else Qmake m (Z.to_pos (2 ^ (- e))).

(** The binary64 value nearest to [q], ties to even: 53 bits of precision,
    last place no finer than 2^-1074, infinite from 2^1024 on. *)
Definition fround (q : Q) : pyfloat :=
  let n := Qnum q in
  let d := Zpos (Qden q) in
  if n =? 0 then Fin 0
  else
    let a := Z.abs n in
    let e := Z.max (binade a d - 52) (-1074) in  (* the last place is 2^e *)
    let m := scaled_round a d e in
    if (0 <=? e) && (2 ^ 1024 <=? m * 2 ^ e) then Inf (n <? 0)
    else Fin (Qred (if n <? 0 then Qopp (dyadic m e) else dyadic m e)).

(** [float(n)] and the conversion of an [int] operand: [OverflowError]
    when the nearest float is infinite. *)
Definition float_of_int (n : Z) : result pyfloat :=
  match fround (inject_Z n) with
  | Fin q => Ok (Fin q)
  | _ => Raise OverflowError
  end.

(** [a / b] on two [int]s: the quotient correctly rounded. *)
Definition int_truediv (a b : Z) : result pyfloat :=
  if b =? 0 then Raise ZeroDivisionError
  else
    match fround (Qmake (a * Z.sgn b) (Z.to_pos (Z.abs b))) with
    | Fin q => Ok (Fin q)
    | _ => Raise OverflowError
    end.

(** [x * y] on two [float]s. *)
Definition fmul (x y : pyfloat) : pyfloat :=
  match x, y with
  | Fin a, Fin b => fround (a * b)
  | NaN, _ | _, NaN => NaN
  | Inf s, Fin b | Fin b, Inf s =>
      match Qnum b with
      | Z0 => NaN
      | Zpos _ => Inf s
      | Zneg _ => Inf (negb s)
      end
  | Inf s, Inf t => Inf (xorb s t)
  end.

(** [int(x)] on a [float]: truncation towards zero. *)
Definition int_of_float (x : pyfloat) : result Z :=
  match x with
  | Fin q => Ok (Z.quot (Qnum q) (Zpos (Qden q)))
  | Inf _ => Raise OverflowError
  | NaN => Raise ValueError
  end.

Definition all_digits (s : text) : bool := forallb is_digit s.

Fixpoint decimal_value (acc : Z) (s : text) : Z :=
  match s with
  | [] => acc
  | c :: t => decimal_value (10 * acc + digit_val c) t
  end.

(** [float(s)] on the strings this program hands it, which are made of
    digits and dots only ([None] is [ValueError]): digits with at most one
    dot and at least one digit.  Signs, exponents, underscores and the
    words inf and nan, which [float] also reads, never reach it here. *)
Definition py_float (s : text) : option pyfloat :=
  match split "." (strip s) with
  | [ip] =>
      if all_digits ip && negb (List.length ip =? 0)%nat
      then Some (fround (inject_Z (decimal_value 0 ip)))
      else None
  | [ip; fp] =>
      if all_digits ip && all_digits fp
         && negb (List.length (ip ++ fp) =? 0)%nat
      then Some (fround (Qmake (decimal_value 0 (ip ++ fp))
                               (Z.to_pos (10 ^ Z.of_nat (List.length fp)))))
      else None
  | _ => None
  end.

(** [round(x)] on a finite [float]: to the nearest integer, ties to even. *)
Definition py_round (q : Q) : Z :=
  if Qnum q <? 0 then - round_half_even (- Qnum q) (Zpos (Qden q))
  else round_half_even (Qnum q) (Zpos (Qden q)).

(** *** [datetime.date] and [datetime.strptime(s, '%b %d, %Y').date()] *)

Record date := Date { year : Z; month : Z; day : Z }.

Definition is_leap (y : Z) : bool :=
  (y mod 4 =? 0) && (negb (y mod 100 =? 0) || (y mod 400 =? 0)).

Definition days_in_month (y m : Z) : Z :=
  if m =? 2 then (if is_leap y then 29 else 28)
  else if (m =? 4) || (m =? 6) || (m =? 9) || (m =? 11) then 30
  else 31.

(** [datetime.date(y, m, d)]; [None] is [ValueError]. *)
Definition make_date (y m d : Z) : option date :=
  if (1 <=? y) && (y <=? 9999) && (1 <=? m) && (m <=? 12)
     && (1 <=? d) && (d <=? days_in_month y m)
  then Some (Date y m d) else None.

(** The month abbreviations of [%b] (C locale), in calendar order. *)
Definition month_abbrs : list string :=
  ["jan"; "feb"; "mar"; "apr"; "may"; "jun";
   "jul"; "aug"; "sep"; "oct"; "nov"; "dec"]%string.

(** The pattern [_strptime] compiles the format '%b %d, %Y' to (with
    IGNORECASE): a run of whitespace in the format is [\s+],
    [%d] is [3[0-1]|[1-2]\d|0[1-9]|[1-9]| [1-9]], [%Y] is [\d\d\d\d]. *)
Definition strptime_re : regex :=
  Grp 1 (alts (map lit month_abbrs)) ;; plus space ;;
  Grp 2 (alts [ Chr "3" ;; Cls false [CRange "0" "1"];
                Cls false [CRange "1" "2"] ;; digit;
                Chr "0" ;; Cls false [CRange "1" "9"];
                Cls false [CRange "1" "9"];
                Chr " " ;; Cls false [CRange "1" "9"] ]) ;;
  Chr "," ;; plus space ;;
  Grp 3 (digit ;; digit ;; digit ;; digit).

Fixpoint month_index (name : text) (l : list string) (i : Z) : option Z :=
  match l with
  | [] => None
  | a :: t => if eqb_text (str a) name then Some i else month_index name t (i + 1)
  end.

(** [datetime.strptime(s, '%b %d, %Y').date()]; [None] is [ValueError]:
    the string does not match, text is left over, or there is no such day. *)
Definition strptime_date (s : text) : option date :=
  match match_ IGNORECASE strptime_re s with
  | None => None
  | Some m =>
      if negb (m_end m =? List.length s)%nat then None
      else
        match group 1 m, group 2 m, group 3 m with
        | Some b, Some d, Some y =>
            match month_index (map lower b) month_abbrs 1, py_int d, py_int y with
            | Some mo, Some dd, Some yy => make_date yy mo dd
            | _, _, _ => None
            end
        | _, _, _ => None
        end
  end.

End Py.

Import Py.

(** ** The scraper *)

Module IPOScraper.

(** The dict [ipo_data]: its keys are fixed, so it is a record.
    [investment_per_lot] is the key [parse_ipo_data] adds. *)
Record ipo_data := IpoData {
  company_name : text;
  offer_price_min : option Z;
  offer_price_max : option Z;
  lot_size : option Z;
  subscription_times : option pyfloat;
  expected_premium : option (Z + pyfloat);    (* an int or a float *)
  premium_percentage : option pyfloat;
  offer_start_date : option date;
  offer_end_date : option date;
  ipo_type : text;
  investment_per_lot : option Z
}.

(** *** extract_price *)

(** r"[^\d\-\s]" *)
Definition price_junk := Cls true [CDigit; CChar "-"; CSpace].

Definition extract_price (price_text : text) : option Z * option Z :=
  match price_text with
  | [] => (None, None)
  | _ =>
      let clean_price := sub no_flags price_junk [] (strip price_text) in
      if contains_char "-" clean_price then
        let parts := split "-" clean_price in
        match parts with
        | [p0; p1] =>
            match py_int (strip p0) with
            | None => (None, None)
            | Some min_price =>
                match py_int (strip p1) with
                | None => (None, None)
                | Some max_price => (Some min_price, Some max_price)
                end
            end
        | _ => (None, None)
        end
      else
        match py_int (strip clean_price) with
        | Some price => (Some price, Some price)
        | None => (None, None)
        end
  end.

(** *** extract_lot_size *)

Definition extract_lot_size (lot_text : text) : option Z :=
  match lot_text with
  | [] => None
  | _ =>
      match finditer no_flags (Grp 0 (plus digit)) lot_text with
      | [] => None
      | m :: _ =>
          match group 0 m with
          | Some n => py_int n
          | None => None
          end
      end
  end.

(** *** extract_subscription *)

(** r"([\d.]+)\s*times" *)
Definition times_re :=
  Grp 1 (plus (Cls false [CDigit; CChar "."])) ;; star space ;; lit "times".

Definition extract_subscription (sub_text : text) : option pyfloat :=
  match sub_text with
  | [] => None
  | _ =>
      match search IGNORECASE times_re sub_text with
      | None => None
      | Some times_match =>
          match group 1 times_match with
          | Some g => py_float g
          | None => None
          end
      end
  end.

(** *** extract_premium *)

(** r"([\d\-]+)\s*\((\d+\.?\d* )%\)" *)
Definition premium_re :=
  Grp 1 (plus (Cls false [CDigit; CChar "-"])) ;; star space ;; Chr "(" ;;
  Grp 2 (plus digit ;; opt (Chr ".") ;; star digit) ;; Chr "%" ;; Chr ")".

Definition extract_premium (premium_text : text)
    : result (option (Z + pyfloat) * option pyfloat) :=
  match premium_text with
  | [] => Ok (None, None)
  | _ =>
      if occurs false (str "N/A") premium_text then Ok (None, None)
      else
        match search no_flags premium_re premium_text with
        | None => Ok (None, None)
        | Some premium_match =>
            match group 1 premium_match, group 2 premium_match with
            | Some premium_range, Some percentage =>
                match py_float percentage with
                | None => Ok (None, None)
                | Some percentage_val =>
                    if contains_char "-" premium_range then
                      match split "-" premium_range with
                      | [p0; p1] =>
                          match py_int (strip p0) with
                          | None => Ok (None, None)
                          | Some min_prem =>
                              match py_int (strip p1) with
                              | None => Ok (None, None)
                              | Some max_prem =>
                                  let* avg := int_truediv (min_prem + max_prem) 2 in
                                  Ok (Some (inr avg), Some percentage_val)
                              end
                          end
                      | _ => Ok (None, None)
                      end
                    else
                      match py_int premium_range with
                      | Some prem_val => Ok (Some (inl prem_val), Some percentage_val)
                      | None => Ok (None, None)
                      end
                end
            | _, _ => Raise TypeError
            end
        end
  end.

(** *** extract_dates *)

(** r"[A-Za-z]+ \d+, \d+" *)
Definition date_text_re :=
  plus (Cls false [CRange "A" "Z"; CRange "a" "z"]) ;; Chr " " ;;
  plus digit ;; Chr "," ;; Chr " " ;; plus digit.

(** r"([A-Za-z]+ \d+, \d+)\s*-\s*([A-Za-z]+ \d+, \d+)" *)
Definition date_pair_re :=
  Grp 1 date_text_re ;; star space ;; Chr "-" ;; star space ;;
  Grp 2 date_text_re.

Definition extract_dates (date_text : text)
    : result (option date * option date) :=
  match date_text with
  | [] => Ok (None, None)
  | _ =>
      match search no_flags date_pair_re date_text with
      | None => Ok (None, None)
      | Some date_match =>
          match group 1 date_match, group 2 date_match with
          | Some start_date_str, Some end_date_str =>
              match strptime_date start_date_str with
              | None => Ok (None, None)
              | Some start_date =>
                  match strptime_date end_date_str with
                  | None => Ok (None, None)
                  | Some end_date => Ok (Some start_date, Some end_date)
                  end
              end
          | _, _ => Raise TypeError
          end
      end
  end.

(** *** parse_single_ipo_block *)

Definition letter := Cls false [CRange "A" "Z"; CRange "a" "z"].
Definition capital := Cls false [CRange "A" "Z"].
Definition small := Cls false [CRange "a" "z"].

(** r"[A-Za-z\s&.-]" *)
Definition name_char :=
  Cls false [CRange "A" "Z"; CRange "a" "z"; CSpace;
             CChar "&"; CChar "."; CChar "-"].

(** r"(?:\s*$|\s*[A-Z][a-z])" *)
Definition name_end :=
  Alt (star space ;; Eol) (star space ;; capital ;; small).

(** r"REIT|Trust|Limited|...|Cinemas" *)
Definition suffix_words : regex :=
  alts (map lit
    ["REIT"; "Trust"; "Limited"; "Ltd"; "Inc"; "Corp"; "Company"; "Group";
     "Holdings"; "Ventures"; "Industries"; "Systems"; "Solutions";
     "Technologies"; "Healthcare"; "Plastics"; "Cement"; "Lab"; "Cast";
     "Cinemas"]%string).

(** r"Check Allotment\s*([A-Za-z][A-Za-z\s&.-]{2,}?)(?:\s*$|\s*[A-Z][a-z])" *)
Definition name_pattern_1 :=
  lit "Check Allotment" ;; star space ;;
  Grp 1 (letter ;; Rep false 2 name_char) ;; name_end.

(** r"View Check Allotment\s*([A-Za-z][A-Za-z\s&.-]{2,}?)(?:\s*$|\s*[A-Z][a-z])" *)
Definition name_pattern_2 :=
  lit "View Check Allotment" ;; star space ;;
  Grp 1 (letter ;; Rep false 2 name_char) ;; name_end.

(** r"Allotment[A-Za-z\s]*?\s+([A-Z][A-Za-z\s&.-]{3,}?)(?:\s*$|\s*[A-Z][a-z])" *)
Definition name_pattern_3 :=
  lit "Allotment" ;;
  star_lazy (Cls false [CRange "A" "Z"; CRange "a" "z"; CSpace]) ;;
  plus space ;;
  Grp 1 (capital ;; Rep false 3 name_char) ;; name_end.

(** r"(?:View Apply|Check Allotment|Allotment Awaited).*?([A-Z][A-Za-z\s&.-]+(?:REIT|...|Cinemas)?)(?:\s*$)" *)
Definition name_pattern_4 :=
  alts [lit "View Apply"; lit "Check Allotment"; lit "Allotment Awaited"] ;;
  star_lazy Any ;;
  Grp 1 (capital ;; plus name_char ;; opt suffix_words) ;;
  star space ;; Eol.

(** r"([A-Z][A-Za-z]+(?:\s+[A-Z&][A-Za-z]+)*(?:\s+(?:REIT|...|Cinemas)))(?:\s*$)" *)
Definition name_pattern_5 :=
  Grp 1 (capital ;; plus letter ;;
         star (plus space ;; Cls false [CRange "A" "Z"; CChar "&"] ;; plus letter) ;;
         plus space ;; suffix_words) ;;
  star space ;; Eol.

Definition name_patterns : list regex :=
  [name_pattern_1; name_pattern_2; name_pattern_3; name_pattern_4;
   name_pattern_5].

(** r"^[.\-\s]+|[.\-\s]+$" *)
Definition edge_punct :=
  let p := Cls false [CChar "."; CChar "-"; CSpace] in
  Alt (Bol ;; plus p) (plus p ;; Eol).

(** r"^[0-9\s\-\.]+$" *)
Definition numeric_only :=
  Bol ;; plus (Cls false [CRange "0" "9"; CSpace; CChar "-"; CChar "."]) ;; Eol.

(** The clean-up of a candidate name: strip, one blank for every run of
    whitespace, no dots, dashes or whitespace at either end. *)
Definition clean_name (candidate : text) : text :=
  let company_name := strip candidate in
  let company_name := sub no_flags (plus space) (str " ") company_name in
  sub no_flags edge_punct [] company_name.

(** The test a cleaned name has to pass. *)
Definition valid_name (company_name : text) : bool :=
  (3 <? List.length company_name)%nat
  && negb (match match_ no_flags numeric_only company_name with
           | Some _ => true
           | None => false
           end).

(** The loop over [name_patterns]: the name it leaves in the dict, which
    is [default] when no pattern gives a name that passes the test. *)
Fixpoint name_loop (patterns : list regex) (full_text default : text)
    : result text :=
  match patterns with
  | [] => Ok default
  | pattern :: later =>
      match search no_flags pattern full_text with
      | None => name_loop later full_text default
      | Some name_match =>
          match group 1 name_match with
          | None => Raise AttributeError
          | Some g =>
              let company_name := clean_name g in
              if valid_name company_name then Ok company_name
              else name_loop later full_text default
          end
      end
  end.

(** r"[A-Za-z]+ \d+, \d+ - [A-Za-z]+ \d+, \d+" *)
Definition date_range_re :=
  date_text_re ;; lit " - " ;; date_text_re.

(** r"Offer Date:\s*([A-Za-z]+ \d+, \d+ - [A-Za-z]+ \d+, \d+)" *)
Definition offer_date_re :=
  lit "Offer Date:" ;; star space ;; Grp 1 date_range_re.

(** r"Offer Price(\d+(?:-\d+)?)" *)
Definition offer_price_re :=
  lit "Offer Price" ;; Grp 1 (plus digit ;; opt (Chr "-" ;; plus digit)).

(** r"Lot Size(\d+)" *)
Definition lot_size_re :=
  lit "Lot Size" ;; Grp 1 (plus digit).

(** r"(\d+\.?\d* )\s*times" *)
Definition sub_pattern_simple :=
  Grp 1 (plus digit ;; opt (Chr ".") ;; star digit) ;; star space ;;
  lit "times".

(** r"No of Apps:[^|]*\|\s*(\d+\.?\d* )\s*times" *)
Definition sub_pattern_complex :=
  lit "No of Apps:" ;; star (Cls true [CChar "|"]) ;; Chr "|" ;; star space ;;
  Grp 1 (plus digit ;; opt (Chr ".") ;; star digit) ;; star space ;;
  lit "times".

Definition sub_patterns : list regex :=
  [sub_pattern_simple; sub_pattern_complex].

(** r"Exp\. Premium(\d+(?:-\d+)?)[^(]*\((\d+\.?\d* )%\)" *)
Definition exp_premium_re :=
  lit "Exp. Premium" ;;
  Grp 1 (plus digit ;; opt (Chr "-" ;; plus digit)) ;;
  star (Cls true [CChar "("]) ;; Chr "(" ;;
  Grp 2 (plus digit ;; opt (Chr ".") ;; star digit) ;; Chr "%" ;; Chr ")".

(** The dates step: what it assigns to [offer_start_date] and
    [offer_end_date] ([None]: no assignment, the keys keep their [None]). *)
Definition block_dates (full_text : text)
    : result (option date * option date) :=
  match search no_flags offer_date_re full_text with
  | None => Ok (None, None)
  | Some date_match =>
      match group 1 date_match with
      | None => Ok (None, None)      (* extract_dates(None) *)
      | Some date_text => extract_dates date_text
      end
  end.

(** The price step: the pair is stored only when [min_price] is truthy,
    that is neither [None] nor 0. *)
Definition block_price (full_text : text) : option Z * option Z :=
  match search no_flags offer_price_re full_text with
  | None => (None, None)
  | Some price_match =>
      match group 1 price_match with
      | None => (None, None)         (* extract_price(None) *)
      | Some price_text =>
          match extract_price price_text with
          | (Some min_price, max_price) =>
              if min_price =? 0 then (None, None)
              else (Some min_price, max_price)
          | (None, _) => (None, None)
          end
      end
  end.

Definition block_lot_size (full_text : text) : result (option Z) :=
  match search no_flags lot_size_re full_text with
  | None => Ok None
  | Some lot_match =>
      match group 1 lot_match with
      | None => Raise TypeError
      | Some g => Ok (py_int g)
      end
  end.

(** The loop over [sub_patterns]. *)
Fixpoint sub_loop (patterns : list regex) (full_text : text)
    : result (option pyfloat) :=
  match patterns with
  | [] => Ok None
  | pattern :: later =>
      match search IGNORECASE pattern full_text with
      | None => sub_loop later full_text
      | Some sub_match =>
          match group 1 sub_match with
          | None => Raise TypeError
          | Some g =>
              match py_float g with
              | Some v => Ok (Some v)
              | None => sub_loop later full_text
              end
          end
      end
  end.

(** The premium step: both keys are assigned at the end of the [try], or
    a [ValueError] leaves both as they were. *)
Definition block_premium (full_text : text)
    : result (option ((Z + pyfloat) * pyfloat)) :=
  match search no_flags exp_premium_re full_text with
  | None => Ok None
  | Some prem_match =>
      match group 1 prem_match, group 2 prem_match with
      | Some premium_range, Some g2 =>
          match py_float g2 with
          | None => Ok None
          | Some percentage =>
              if contains_char "-" premium_range then
                let parts := split "-" premium_range in
                match nth_error parts 0 with
                | None => Raise IndexError
                | Some p0 =>
                    match py_int p0 with
                    | None => Ok None
                    | Some min_prem =>
                        match nth_error parts 1 with
                        | None => Raise IndexError
                        | Some p1 =>
                            match py_int p1 with
                            | None => Ok None
                            | Some max_prem =>
                                let* avg_premium :=
                                  int_truediv (min_prem + max_prem) 2 in
                                Ok (Some (inr avg_premium, percentage))
                            end
                        end
                    end
                end
              else
                match py_int premium_range with
                | None => Ok None
                | Some avg_premium => Ok (Some (inl avg_premium, percentage))
                end
          end
      | _, _ => Raise TypeError
      end
  end.

(** Everything [parse_single_ipo_block] does before its final test: the
    dict with all the fields it could fill in. *)
Definition parse_fields (block_text : text) : result ipo_data :=
  let full_text := strip block_text in
  let* name := name_loop name_patterns full_text (str "Unknown Company") in
  let* dates := block_dates full_text in
  let price := block_price full_text in
  let* lot := block_lot_size full_text in
  let* subscription := sub_loop sub_patterns full_text in
  let* premium := block_premium full_text in
  Ok {| company_name := name;
        offer_price_min := fst price;
        offer_price_max := snd price;
        lot_size := lot;
        subscription_times := subscription;
        expected_premium := option_map fst premium;
        premium_percentage := option_map snd premium;
        offer_start_date := fst dates;
        offer_end_date := snd dates;
        ipo_type := str "Current";
        investment_per_lot := None |}.

(** Truthiness of an [int] or [None]. *)
Definition truthy (x : option Z) : bool :=
  match x with
  | Some v => negb (v =? 0)
  | None => false
  end.

(** [Ok (Some d)]: the dict is returned; [Ok None]: [None] is returned. *)
Definition parse_single_ipo_block (block_text : text)
    : result (option ipo_data) :=
  let* d := parse_fields block_text in
  if truthy (offer_price_min d) && truthy (lot_size d)
  then Ok (Some d) else Ok None.

(** *** split_ipo_blocks_v2 *)

(** r"Offer Date:\s*([A-Za-z]+ \d+, \d+ - [A-Za-z]+ \d+, \d+)(.*?)(?=Offer Date:|$)",
    compiled with DOTALL and IGNORECASE *)
Definition block_re :=
  lit "Offer Date:" ;; star space ;; Grp 1 date_range_re ;;
  Grp 2 (star_lazy Any) ;; Ahead (Alt (lit "Offer Date:") Eol).

Definition group_text (n : nat) (m : rmatch) : text :=
  match group n m with
  | Some g => g
  | None => []       (* findall gives the empty string for such a group *)
  end.

(** The body of the loop over the matches: the block made from one match
    ([None]: nothing is appended). *)
Definition block_of_match (m : rmatch) : option text :=
  let block := str "Offer Date: " ++ group_text 1 m ++ group_text 2 m in
  let lines :=
    filter (fun l => negb (List.length l =? 0)%nat)
           (map strip (split "010" block)) in
  let clean_lines := firstn 20 lines in
  if (1 <=? List.length clean_lines)%nat
  then Some (join (str (String "010" "")) clean_lines)
  else None.

Fixpoint keep_some {A : Type} (l : list (option A)) : list A :=
  match l with
  | [] => []
  | Some a :: t => a :: keep_some t
  | None :: t => keep_some t
  end.

Definition split_ipo_blocks_v2 (page_text : text) : list text :=
  keep_some (map block_of_match (finditer IGNORECASE_DOTALL block_re page_text)).

(** *** parse_ipo_data, from [page_text] on *)

(** [int(avg_price * lot_size)] with
    [avg_price = (min + (max or min)) / 2]. *)
Definition compute_investment (d : ipo_data) : result Z :=
  match offer_price_min d, lot_size d with
  | Some pmin, Some lot =>
      let other :=
        if truthy (offer_price_max d)
        then match offer_price_max d with Some v => v | None => pmin end
        else pmin in
      let* avg_price := int_truediv (pmin + other) 2 in
      let* lot_f := float_of_int lot in
      int_of_float (fmul avg_price lot_f)
  | _, _ => Raise TypeError
  end.

(** The body of the [try] for one block: the dict appended to [ipos], or
    [None] when the block is passed over (rejected, or an exception was
    caught and the loop went on). *)
Definition process_block (block : text) : option ipo_data :=
  match parse_single_ipo_block block with
  | Ok (Some d) =>
      match compute_investment d with
      | Ok v =>
          Some {| company_name := company_name d;
                  offer_price_min := offer_price_min d;
                  offer_price_max := offer_price_max d;
                  lot_size := lot_size d;
                  subscription_times := subscription_times d;
                  expected_premium := expected_premium d;
                  premium_percentage := premium_percentage d;
                  offer_start_date := offer_start_date d;
                  offer_end_date := offer_end_date d;
                  ipo_type := ipo_type d;
                  investment_per_lot := Some v |}
      | Raise _ => None
      end
  | _ => None
  end.

(** [parse_ipo_data] once [page_text] is at hand. *)
Definition parse_page_text (page_text : text) : list ipo_data :=
  keep_some (map process_block (split_ipo_blocks_v2 page_text)).

End IPOScraper.

Import IPOScraper.

(** ** Vocabulary of the statements *)

(** [consumed st u st']: from [st] the matcher read exactly [u] and got to
    [st']. *)
Definition consumed (st : mstate) (u : text) (st' : mstate) : Prop :=
  rest st = u ++ rest st' /\ pos st' = (pos st + List.length u)%nat.

(** The texts a pattern can read, whatever it captures or looks at on the
    way: anchors and look-aheads read nothing. *)
Inductive lang (fl : flags) : regex -> text -> Prop :=
| L_Eps : lang fl Eps []
| L_Chr p c : chr_matches fl p c = true -> lang fl (Chr p) [c]
| L_Any c : any_matches fl c = true -> lang fl Any [c]
| L_Cls neg items c :
    cls_matches fl neg items c = true -> lang fl (Cls neg items) [c]
| L_Seq r1 r2 u v :
    lang fl r1 u -> lang fl r2 v -> lang fl (Seq r1 r2) (u ++ v)
| L_Alt_l r1 r2 u : lang fl r1 u -> lang fl (Alt r1 r2) u
| L_Alt_r r1 r2 u : lang fl r2 u -> lang fl (Alt r1 r2) u
| L_Rep_stop g r : lang fl (Rep g 0 r) []
| L_Rep_round g lo r u v :
    lang fl r u -> lang fl (Rep g (Nat.pred lo) r) v ->
    lang fl (Rep g lo r) (u ++ v)
| L_Grp n r u : lang fl r u -> lang fl (Grp n r) u
| L_Ahead r : lang fl (Ahead r) []
| L_Bol : lang fl Bol []
| L_Eol : lang fl Eol [].

(** The offer price a text quotes, as far as it can be read: the first
    number after the first "Offer Price" that has digits right behind it. *)
Definition offer_price_value (full_text : text) : option Z :=
  match search no_flags offer_price_re full_text with
  | Some m =>
      match group 1 m with
      | Some g => fst (extract_price g)
      | None => None
      end
  | None => None
  end.

(** The lot size a text quotes, as far as it can be read. *)
Definition lot_size_value (full_text : text) : option Z :=
  match search no_flags lot_size_re full_text with
  | Some m =>
      match group 1 m with
      | Some g => py_int g
      | None => None
      end
  | None => None
  end.

(** The numbers of the groups of a pattern. *)
Fixpoint groups (r : regex) : list nat :=
  match r with
  | Seq r1 r2 | Alt r1 r2 => groups r1 ++ groups r2
  | Rep _ _ r1 | Ahead r1 => groups r1
  | Grp n r1 => n :: groups r1
  | _ => []
  end.

(** [s] reads as the integer [v]: digits, no more than [int] accepts,
    with nothing but whitespace around them. *)
Definition int_text (s : text) (v : Z) : Prop :=
  exists ws1 ds ws2,
    s = ws1 ++ ds ++ ws2
    /\ forallb is_space ws1 = true /\ forallb is_space ws2 = true
    /\ ds <> [] /\ all_digits ds = true
    /\ (List.length ds <= int_max_str_digits)%nat
    /\ v = decimal_value 0 ds.

(** The price text once [extract_price] has cleaned it. *)
Definition clean_price_text (price_text : text) : text :=
  sub no_flags price_junk [] (strip price_text).

(** What is left of a price text: digits, dashes and whitespace. *)
Definition price_char (c : ascii) : bool :=
  is_digit c || Ascii.eqb "-" c || is_space c.

Definition digit_or_space (c : ascii) : bool := is_digit c || is_space c.

(** A block that quotes its price range from the higher to the lower. *)
Definition descending_block : text := str "Offer Price170-160Lot Size100".

Definition descending_record : ipo_data :=
  {| company_name := str "Unknown Company";
     offer_price_min := Some 170;
     offer_price_max := Some 160;
     lot_size := Some 100;
     subscription_times := None;
     expected_premium := None;
     premium_percentage := None;
     offer_start_date := None;
     offer_end_date := None;
     ipo_type := str "Current";
     investment_per_lot := None |}.

(** The name a pattern proposes for a text: the text of its group 1,
    cleaned. *)
Definition candidate (pattern : regex) (full_text : text) : option text :=
  match search no_flags pattern full_text with
  | Some m => option_map clean_name (group 1 m)
  | None => None
  end.

(** A pattern gives a name that passes the test. *)
Definition gives_name (pattern : regex) (full_text : text) : bool :=
  match candidate pattern full_text with
  | Some n => valid_name n
  | None => false
  end.

(** The characters of a text that is numbers and punctuation only:
    [0-9], whitespace, dash and dot. *)
Definition numeric_punct (c : ascii) : bool :=
  in_range "0" "9" c || is_space c || Ascii.eqb "-" c || Ascii.eqb "." c.

(** A page with two offers, the second with its anchor in small letters. *)
Definition two_offer_page : text :=
  str "IPO list Offer Date: Aug 4, 2025 - Aug 6, 2025Offer Price160-170Lot Size100 offer date: Sep 1, 2025 - Sep 3, 2025Offer Price54Lot Size200".

(** A block whose mean price times lot size is 1.5. *)
Definition half_block : text := str "Offer Price1-2Lot Size1".

Definition half_record : ipo_data :=
  {| company_name := str "Unknown Company";
     offer_price_min := Some 1;
     offer_price_max := Some 2;
     lot_size := Some 1;
     subscription_times := None;
     expected_premium := None;
     premium_percentage := None;
     offer_start_date := None;
     offer_end_date := None;
     ipo_type := str "Current";
     investment_per_lot := Some 1 |}.

(** Every match of the pattern sets the group [n]: the group stands on
    every path through the pattern. *)
Fixpoint sets (n : nat) (r : regex) : bool :=
  match r with
  | Seq r1 r2 => sets n r1 || sets n r2
  | Alt r1 r2 => sets n r1 && sets n r2
  | Rep _ lo r1 => negb (lo =? 0)%nat && sets n r1
  | Grp k r1 => (k =? n)%nat || sets n r1
  | _ => false
  end.

(** The characters of [[\d.]]. *)
Definition digit_or_dot (c : ascii) : bool := is_digit c || Ascii.eqb "." c.

(** A day of the calendar, in the years [datetime] knows. *)
Definition calendar_date (d : date) : Prop :=
  1 <= year d <= 9999 /\ 1 <= month d <= 12
  /\ 1 <= day d <= days_in_month (year d) (month d).


(** The patterns without anchors and look-aheads whose repeats are over a
    single character class; the field patterns are of this kind. *)
Fixpoint flat (r : regex) : bool :=
  match r with
  | Eps | Chr _ | Cls _ _ => true
  | Seq r1 r2 | Alt r1 r2 => flat r1 && flat r2
  | Rep _ _ (Cls _ _) => true
  | Grp _ r1 => flat r1
  | _ => false
  end.

(** [r] can read [u] wherever [u] stands. *)
Definition reads (fl : flags) (r : regex) (u : text) : Prop :=
  forall p tl cs,
    exists cs', In (MState (p + List.length u) tl cs')
                   (run fl r (MState p (u ++ tl) cs)).

(** The bodies of the groups numbered [n] in a pattern. *)
Fixpoint group_bodies (n : nat) (r : regex) : list regex :=
  match r with
  | Seq r1 r2 | Alt r1 r2 => group_bodies n r1 ++ group_bodies n r2
  | Rep _ _ r1 | Ahead r1 => group_bodies n r1
  | Grp k r1 => (if (k =? n)%nat then [r1] else []) ++ group_bodies n r1
  | _ => []
  end.

(** A letter of [[A-Za-z]]. *)
Definition is_letter (c : ascii) : bool :=
  in_range "A" "Z" c || in_range "a" "z" c.

(** The match the engine tries first: the head of the list of matches,
    which leaves the text [t] to read and the captures [cs]. *)
Definition first_match (fl : flags) (r : regex) (st : mstate) (t : text)
    (cs : list (nat * text)) : Prop :=
  exists q l, run fl r st = MState q t cs :: l.

(** The month abbreviations as they are written. *)
Definition month_names : list string :=
  ["Jan"; "Feb"; "Mar"; "Apr"; "May"; "Jun";
   "Jul"; "Aug"; "Sep"; "Oct"; "Nov"; "Dec"]%string.

Definition month_name (m : Z) : text :=
  str (nth (Z.to_nat (m - 1)) month_names ""%string).

(** A date as the listing page writes it, "Aug 4, 2025": the month, the
    digits of the day and the digits of the year. *)
Definition date_words (m : Z) (dd yy : text) : text :=
  month_name m ++ " "%char :: dd ++ ","%char :: " "%char :: yy.

(** One or two digits. *)
Definition day_digits (dd : text) : bool :=
  all_digits dd && (1 <=? List.length dd)%nat && (List.length dd <=? 2)%nat.

(** Four digits. *)
Definition year_digits (yy : text) : bool :=
  all_digits yy && (List.length yy =? 4)%nat.

(** The date that the written month, day and year stand for. *)
Definition date_of (m : Z) (dd yy : text) : date :=
  Date (decimal_value 0 yy) m (decimal_value 0 dd).

(** A well-written date: a day of one or two digits, a year of four, and
    the day they name exists. *)
Definition written_date (m : Z) (dd yy : text) : Prop :=
  day_digits dd = true /\ year_digits yy = true
  /\ calendar_date (date_of m dd yy).

(** No digit follows. *)
Definition no_digit_ahead (t : text) : Prop :=
  match t with c :: _ => is_digit c = false | [] => True end.

(** The word [w] begins somewhere within [pre], in the text [pre ++ suf]. *)
Fixpoint word_ahead (w pre suf : text) : bool :=
  match pre with
  | [] => false
  | _ :: t => starts_with false w (pre ++ suf) || word_ahead w t suf
  end.

(** Neither a digit nor a dash follows. *)
Definition no_number_ahead (t : text) : Prop :=
  match t with
  | c :: _ => is_digit c = false /\ c <> "-"%char
  | [] => True
  end.

(** [re.match] of the pattern fails wherever it is tried within [pre], in
    the text [pre ++ suf]: no match begins before [suf]. *)
Definition first_place (fl : flags) (r : regex) (pre suf : text) : Prop :=
  forall i, (i < List.length pre)%nat ->
            match_ fl r (skipn i (pre ++ suf)) = None.

(** No digit follows, and no dash with a digit behind it: a number that
    stands in front of [t] is not the first number of a range. *)
Definition number_ends (t : text) : Prop :=
  match t with
  | c :: t' =>
      is_digit c = false
      /\ (c = "-"%char ->
          match t' with c' :: _ => is_digit c' = false | [] => True end)
  | [] => True
  end.

(** [g] is a whole number in front of [tl]. *)
Definition quoted_number (g tl : text) : Prop :=
  all_digits g = true /\ g <> [] /\ number_ends tl.

(** [d1] and [d2] are the two whole numbers of a range [d1-d2] in front
    of [tl]. *)
Definition quoted_range (d1 d2 tl : text) : Prop :=
  all_digits d1 = true /\ d1 <> [] /\ all_digits d2 = true /\ d2 <> []
  /\ no_digit_ahead tl.

(** A percentage as the patterns take it: digits, or digits with one dot
    after the first of them. *)
Definition percent_text (pct : text) : Prop :=
  exists e1 e2,
    all_digits e1 = true /\ e1 <> [] /\ all_digits e2 = true
    /\ (pct = e1 ++ e2 \/ pct = e1 ++ "."%char :: e2).

(** The characters of [[\d\-]]. *)
Definition digit_or_dash (c : ascii) : bool := is_digit c || Ascii.eqb "-" c.

(** A percentage in parentheses with what stands before it: [mid], then
    "(", the percentage, "%)". *)
Definition paren_words (mid pct post : text) : text :=
  mid ++ "("%char :: pct ++ "%"%char :: ")"%char :: post.

(** A premium as the block pattern reads it: the words "Exp. Premium", the
    number or range [g], then the percentage in parentheses. *)
Definition premium_words (g mid pct post : text) : text :=
  str "Exp. Premium" ++ g ++ paren_words mid pct post.

(** A block as the listing page has them, all on one line. *)
Definition sample_block : text :=
  str "Offer Date: Aug 4, 2025 - Aug 6, 2025Offer Price160-170Lot Size100No of Apps: 4624 | 13.39 timesExp. Premium24-25 (32%)View Check AllotmentHighway Infrastructure Limited".

(** What [parse_single_ipo_block] makes of it. *)
Definition sample_record : ipo_data :=
  {| company_name := str "Highway";
     offer_price_min := Some 160;
     offer_price_max := Some 170;
     lot_size := Some 100;
     subscription_times := Some (fround (1339 # 100));
     expected_premium := Some (inr (Fin (49 # 2)));
     premium_percentage := Some (Fin 32);
     offer_start_date := Some (Date 2025 8 4);
     offer_end_date := Some (Date 2025 8 6);
     ipo_type := str "Current";
     investment_per_lot := None |}.

(** ** Strings *)

Lemma split_not_nil c s : split c s <> [].
Proof.
  destruct s as [|x t]; simpl; [discriminate|].
  destruct (Ascii.eqb x c); [discriminate|].
  destruct (split c t); discriminate.
Qed.

Lemma split_no_sep c s p :
  In p (split c s) -> contains_char c p = false.
Proof.
  revert p. induction s as [|x t IH]; simpl; intros p Hp.
  - destruct Hp as [<-|[]]. reflexivity.
  - destruct (Ascii.eqb x c) eqn:E.
    + destruct Hp as [<-|Hp]; [reflexivity|auto].
    + pose proof (split_not_nil c t) as Hne.
      destruct (split c t) as [|h r]; [congruence|].
      destruct Hp as [<-|Hp].
      * simpl. rewrite Ascii.eqb_sym, E. simpl. apply IH. now left.
      * apply IH. now right.
Qed.

(** A text with the separator in it splits in two pieces at least. *)
Lemma split_two c s :
  contains_char c s = true -> exists a b r, split c s = a :: b :: r.
Proof.
  induction s as [|x t IH]; simpl; [discriminate|].
  destruct (Ascii.eqb x c) eqn:E.
  - intros _. pose proof (split_not_nil c t).
    destruct (split c t) as [|b r]; [congruence|]. now exists [], b, r.
  - rewrite Ascii.eqb_sym, E. simpl. intros H.
    destruct (IH H) as (a & b & r & ->). now exists (x :: a), b, r.
Qed.

Lemma split_app_sep c a b :
  contains_char c a = false ->
  split c (a ++ c :: b) = a :: split c b.
Proof.
  induction a as [|x t IH]; simpl.
  - intros _. now rewrite Ascii.eqb_refl.
  - rewrite orb_false_iff. intros [Hx Ht].
    rewrite Ascii.eqb_sym, Hx, (IH Ht). reflexivity.
Qed.

Lemma split_none c a : contains_char c a = false -> split c a = [a].
Proof.
  induction a as [|x t IH]; simpl; [reflexivity|].
  rewrite orb_false_iff. intros [Hx Ht].
  now rewrite Ascii.eqb_sym, Hx, (IH Ht).
Qed.

Lemma contains_char_app c a b :
  contains_char c (a ++ b) = contains_char c a || contains_char c b.
Proof. unfold contains_char. apply existsb_app. Qed.

Lemma drop_while_suffix p s : exists u, s = u ++ drop_while p s.
Proof.
  induction s as [|c t [u IH]]; simpl.
  - now exists [].
  - destruct (p c).
    + exists (c :: u). simpl. now f_equal.
    + now exists [].
Qed.

(** [strip] keeps a piece of the text. *)
Lemma strip_infix s : exists u v, s = u ++ strip s ++ v.
Proof.
  unfold strip.
  destruct (drop_while_suffix is_space s) as [u Hu].
  destruct (drop_while_suffix is_space (rev (drop_while is_space s))) as [w Hw].
  exists u, (rev w).
  rewrite <- rev_app_distr, <- Hw, rev_involutive. exact Hu.
Qed.

Lemma contains_char_strip c s :
  contains_char c s = false -> contains_char c (strip s) = false.
Proof.
  destruct (strip_infix s) as (u & v & H). intros Hs. rewrite H in Hs.
  rewrite !contains_char_app, !orb_false_iff in Hs. tauto.
Qed.

Lemma drop_while_id p s :
  match s with [] => True | c :: _ => p c = false end -> drop_while p s = s.
Proof. destruct s as [|c t]; simpl; [reflexivity|]. now intros ->. Qed.

(** A text with no whitespace at either end is its own [strip]. *)
Lemma strip_id s :
  match s with [] => True | c :: _ => is_space c = false end ->
  match rev s with [] => True | c :: _ => is_space c = false end ->
  strip s = s.
Proof.
  intros H1 H2. unfold strip.
  rewrite (drop_while_id _ s H1), (drop_while_id _ (rev s) H2).
  apply rev_involutive.
Qed.

Lemma occurs_app_r ci w a b : occurs ci w b = true -> occurs ci w (a ++ b) = true.
Proof.
  induction a as [|x t IH]; intros H; [exact H|].
  simpl. rewrite (IH H). apply orb_true_r.
Qed.

Lemma starts_with_app_l ci w a b :
  starts_with ci w a = true -> starts_with ci w (a ++ b) = true.
Proof.
  revert a. induction w as [|p ps IH]; intros a H.
  - now destruct a; destruct b.
  - destruct a as [|c cs]; [discriminate|]. simpl in *.
    apply andb_true_iff in H as [-> H]. simpl. auto.
Qed.

Lemma occurs_app_l ci w a b : occurs ci w a = true -> occurs ci w (a ++ b) = true.
Proof.
  induction a as [|x t IH]; intros H.
  - simpl in H. rewrite orb_false_r in H.
    destruct w; [|discriminate]. now destruct b.
  - cbn [occurs] in H. apply orb_true_iff in H as [H|H].
    + pose proof (starts_with_app_l _ _ (x :: t) b H) as H'.
      cbn [app] in H'. cbn [app occurs]. now rewrite H'.
    + cbn [app occurs]. rewrite (IH H). apply orb_true_r.
Qed.

(** What occurs in [strip s] occurs in [s]. *)
Lemma occurs_strip ci w s : occurs ci w (strip s) = true -> occurs ci w s = true.
Proof.
  destruct (strip_infix s) as (u & v & H). intros Ho.
  rewrite H. apply occurs_app_r, occurs_app_l, Ho.
Qed.

Lemma starts_with_occurs ci w s : starts_with ci w s = true -> occurs ci w s = true.
Proof. intros H. destruct s; simpl in *; rewrite H; reflexivity. Qed.

(** ** The matcher *)

Lemma consumed_refl st : consumed st [] st.
Proof. split; simpl; [reflexivity|lia]. Qed.

Lemma consumed_trans st u st1 v st2 :
  consumed st u st1 -> consumed st1 v st2 -> consumed st (u ++ v) st2.
Proof.
  intros [H1 H2] [H3 H4]. split.
  - now rewrite H1, H3, app_assoc.
  - rewrite H4, H2, length_app. lia.
Qed.

Lemma step_if_sound ok st st' :
  In st' (step_if ok st) ->
  exists c, ok c = true /\ consumed st [c] st' /\ caps st' = caps st.
Proof.
  unfold step_if. destruct (rest st) as [|c t] eqn:E; [intros []|].
  destruct (ok c) eqn:Hc; [|intros []].
  intros [<-|[]]. exists c. repeat split; simpl; auto. lia.
Qed.

Section RepeatSound.
Variables (fl : flags) (r : regex).
Hypothesis body_sound :
  forall st st', In st' (run fl r st) ->
                 exists u, consumed st u st' /\ lang fl r u.

Lemma rep_min_sound g lo : forall st st1,
  In st1 (rep_min (run fl r) lo st) ->
  forall v st2, consumed st1 v st2 -> lang fl (Rep g 0 r) v ->
  exists u, consumed st u st2 /\ lang fl (Rep g lo r) u.
Proof.
  induction lo as [|n IH]; simpl; intros st st1 Hin v st2 Hc Hv.
  - destruct Hin as [<-|[]]. eauto.
  - apply in_flat_map in Hin as (sta & Ha & Hin).
    destruct (IH _ _ Hin _ _ Hc Hv) as (u' & Hc' & Hu').
    destruct (body_sound _ _ Ha) as (ua & Hca & Hua).
    exists (ua ++ u'). split; [eapply consumed_trans; eauto|].
    now apply L_Rep_round.
Qed.

Lemma rep_more_sound g g' fuel : forall st st',
  In st' (rep_more (run fl r) g fuel st) ->
  exists u, consumed st u st' /\ lang fl (Rep g' 0 r) u.
Proof.
  induction fuel as [|f IH]; simpl; intros st st' Hin.
  - destruct Hin as [<-|[]]. exists []. split; [apply consumed_refl|constructor].
  - assert (Hcases : st' = st \/
      In st' (flat_map (fun s1 => if (pos st <? pos s1)%nat
                                  then rep_more (run fl r) g f s1 else [])
                       (run fl r st))).
    { destruct g.
      - apply in_app_or in Hin as [H|[<-|[]]]; auto.
      - destruct Hin as [<-|H]; auto. }
    destruct Hcases as [->|H].
    + exists []. split; [apply consumed_refl|constructor].
    + apply in_flat_map in H as (sta & Ha & H).
      destruct (pos st <? pos sta)%nat; [|destruct H].
      destruct (IH _ _ H) as (u' & Hc' & Hu').
      destruct (body_sound _ _ Ha) as (ua & Hca & Hua).
      exists (ua ++ u'). split; [eapply consumed_trans; eauto|].
      now apply (L_Rep_round fl g' 0 r).
Qed.
End RepeatSound.

(** Whatever [run] returns was read from the text, and is in the
    pattern's language. *)
Lemma run_sound fl r : forall st st',
  In st' (run fl r st) -> exists u, consumed st u st' /\ lang fl r u.
Proof.
  induction r as [| p | | neg items | r1 IH1 r2 IH2 | r1 IH1 r2 IH2
                  | g lo r1 IH1 | n r1 IH1 | r1 IH1 | |];
    cbn [run]; intros st st' Hin.
  - destruct Hin as [<-|[]]. exists []. split; [apply consumed_refl|constructor].
  - apply step_if_sound in Hin as (c & Hc & Hcons & _). exists [c].
    split; [assumption|now constructor].
  - apply step_if_sound in Hin as (c & Hc & Hcons & _). exists [c].
    split; [assumption|now constructor].
  - apply step_if_sound in Hin as (c & Hc & Hcons & _). exists [c].
    split; [assumption|now constructor].
  - apply in_flat_map in Hin as (s1 & H1 & H2).
    destruct (IH1 _ _ H1) as (u & Hu & Lu).
    destruct (IH2 _ _ H2) as (v & Hv & Lv).
    exists (u ++ v). split; [eapply consumed_trans; eauto|now constructor].
  - apply in_app_or in Hin as [H|H].
    + destruct (IH1 _ _ H) as (u & Hu & Lu). exists u. split; [assumption|].
      now apply L_Alt_l.
    + destruct (IH2 _ _ H) as (u & Hu & Lu). exists u. split; [assumption|].
      now apply L_Alt_r.
  - apply in_flat_map in Hin as (s1 & H1 & H2).
    destruct (rep_more_sound fl r1 IH1 g g _ _ _ H2) as (v & Hv & Lv).
    exact (rep_min_sound fl r1 IH1 g lo _ _ H1 _ _ Hv Lv).
  - apply in_map_iff in Hin as (s1 & <- & H1).
    destruct (IH1 _ _ H1) as (u & [Hu1 Hu2] & Lu). exists u.
    split; [split; assumption|now constructor].
  - destruct (run fl r1 st) as [|s1 l]; [destruct Hin|].
    destruct Hin as [<-|[]]. exists [].
    split; [split; simpl; [reflexivity|lia]|constructor].
  - destruct (pos st =? 0)%nat; [|destruct Hin]. destruct Hin as [<-|[]].
    exists []. split; [apply consumed_refl|constructor].
  - assert (st' = st) as ->.
    { destruct (rest st) as [|c [|c' t]]; try (destruct Hin as [<-|[]]; reflexivity);
        try destruct Hin.
      destruct (Ascii.eqb c "010"); [destruct Hin as [<-|[]]; reflexivity|destruct Hin]. }
    exists []. split; [apply consumed_refl|constructor].
Qed.

(** A literal word matches exactly where the text starts with it. *)
Lemma run_lit fl w : forall st,
  run fl (lit_chars w) st =
  if starts_with (ignorecase fl) w (rest st)
  then [MState (pos st + List.length w) (skipn (List.length w) (rest st)) (caps st)]
  else [].
Proof.
  induction w as [|p ps IH]; intros st.
  - simpl. destruct st as [n s c]; simpl. destruct s; simpl; now rewrite Nat.add_0_r.
  - cbn [lit_chars run]. unfold step_if.
    destruct (rest st) as [|c cs] eqn:E; [reflexivity|].
    unfold chr_matches. cbn [starts_with].
    destruct (if ignorecase fl then Ascii.eqb (lower p) (lower c)
              else Ascii.eqb p c); [|reflexivity].
    cbn [flat_map]. rewrite IH, app_nil_r. cbn [rest pos caps andb].
    destruct (starts_with (ignorecase fl) ps cs); [|reflexivity].
    cbn [List.length skipn]. now rewrite Nat.add_succ_r.
Qed.

Lemma run_lit_seq fl w r st :
  run fl (lit_chars w ;; r) st =
  if starts_with (ignorecase fl) w (rest st)
  then run fl r (MState (pos st + List.length w)
                        (skipn (List.length w) (rest st)) (caps st))
  else [].
Proof.
  simpl. rewrite run_lit.
  destruct (starts_with (ignorecase fl) w (rest st)); [|reflexivity].
  simpl. apply app_nil_r.
Qed.

(** What [search_from] finds: a match of the pattern at some position at or
    after [p], whose text starts there. *)
Lemma search_from_found fl r : forall s ma p m s',
  search_from fl r ma p s = Some (m, s') ->
  exists pre suf st',
    s = pre ++ suf /\ m_start m = (p + List.length pre)%nat /\
    In st' (run fl r (MState (m_start m) suf [])) /\
    m_end m = pos st' /\ m_caps m = caps st' /\ s' = rest st'.
Proof.
  induction s as [|c t IH]; intros ma p m s' H.
  - simpl in H. unfold match_here in H.
    destruct (filter _ (run fl r (MState p [] []))) as [|st l] eqn:E;
      [discriminate|].
    injection H as <- <-. exists [], [], st. simpl.
    assert (Hin : In st (run fl r (MState p [] []))).
    { eapply proj1. apply filter_In. rewrite E. now left. }
    destruct (run_sound _ _ _ _ Hin) as (u & [Hu1 Hu2] & _). simpl in *.
    symmetry in Hu1. apply app_eq_nil in Hu1 as [-> Hr].
    repeat split; auto. now destruct (pos st - p)%nat.
  - simpl in H. unfold match_here in H.
    destruct (filter _ (run fl r (MState p (c :: t) []))) as [|st l] eqn:E.
    + destruct (IH _ _ _ _ H) as (pre & suf & st' & -> & Hs & Hin & He & Hc & Hr).
      exists (c :: pre), suf, st'. simpl. repeat split; auto. lia.
    + injection H as <- <-. exists [], (c :: t), st. simpl.
      assert (Hin : In st (run fl r (MState p (c :: t) []))).
      { eapply proj1. apply filter_In. rewrite E. now left. }
      destruct (run_sound _ _ _ _ Hin) as (u & [Hu1 Hu2] & _). simpl in *.
      repeat split; auto.
      rewrite Hu2, Hu1. replace (p + List.length u - p)%nat with (List.length u) by lia.
      now rewrite skipn_app, skipn_all, Nat.sub_diag.
Qed.

Lemma search_found fl r s m :
  search fl r s = Some m ->
  exists pre suf st',
    s = pre ++ suf /\ m_start m = List.length pre /\
    In st' (run fl r (MState (m_start m) suf [])) /\
    m_end m = pos st' /\ m_caps m = caps st'.
Proof.
  unfold search. destruct (search_from fl r false 0 s) as [[m' s']|] eqn:E;
    [|discriminate].
  intros [= <-].
  destruct (search_from_found _ _ _ _ _ _ _ E) as (pre & suf & st' & H).
  exists pre, suf, st'. tauto.
Qed.

(** A pattern that begins with a literal word is found only in a text
    where the word occurs. *)
Lemma search_lit_occurs fl w r s m :
  search fl (lit_chars w ;; r) s = Some m ->
  occurs (ignorecase fl) w s = true.
Proof.
  intros H. destruct (search_found _ _ _ _ H) as (pre & suf & st' & -> & _ & Hin & _).
  rewrite run_lit_seq in Hin. simpl in Hin.
  destruct (starts_with (ignorecase fl) w suf) eqn:E; [|destruct Hin].
  apply occurs_app_r, starts_with_occurs, E.
Qed.

(** A repeated character class reads characters of the class, [lo] at
    least. *)
Lemma lang_rep_cls fl g lo neg items u :
  lang fl (Rep g lo (Cls neg items)) u ->
  forallb (cls_matches fl neg items) u = true /\ (lo <= List.length u)%nat.
Proof.
  intros H. remember (Rep g lo (Cls neg items)) as r eqn:E.
  revert lo E. induction H; intros lo0 E; try discriminate.
  - injection E as -> <- ->. split; [reflexivity|simpl; lia].
  - injection E as -> <- ->.
    inversion H; subst.
    destruct (IHlang2 _ eq_refl) as [Hv Hl].
    match goal with Hc : cls_matches _ _ _ _ = true |- _ =>
      split; [simpl; now rewrite Hc, Hv|simpl; lia] end.
Qed.

Lemma cls_digit_no_flags c : cls_matches no_flags false [CDigit] c = is_digit c.
Proof. unfold cls_matches. simpl. apply orb_false_r. Qed.

Lemma forallb_same {A} (f g : A -> bool) l :
  (forall a, f a = g a) -> forallb f l = forallb g l.
Proof. intros E. induction l as [|a t IH]; simpl; [reflexivity|]. now rewrite E, IH. Qed.

Lemma lang_plus_digit u :
  lang no_flags (plus digit) u -> all_digits u = true /\ u <> [].
Proof.
  intros H. apply lang_rep_cls in H as [Hd Hl]. split.
  - unfold all_digits. rewrite <- Hd. apply forallb_same.
    intros c. now rewrite cls_digit_no_flags.
  - intros ->. simpl in Hl. lia.
Qed.

Lemma starts_with_exact w : forall s,
  starts_with false w s = true -> s = w ++ skipn (List.length w) s.
Proof.
  induction w as [|p ps IH]; intros s H; [reflexivity|].
  destruct s as [|c cs]; [discriminate|]. simpl in H.
  apply andb_true_iff in H as [Hc Hs]. apply Ascii.eqb_eq in Hc as ->.
  simpl. f_equal. now apply IH.
Qed.

(** The match of "a literal word, then one group": the word and the
    group's text stand in the subject one after the other. *)
Lemma search_lit_group w n r s m :
  search no_flags (lit_chars w ;; Grp n r) s = Some m ->
  exists pre u post,
    s = pre ++ w ++ u ++ post /\ group n m = Some u /\ lang no_flags r u.
Proof.
  intros H.
  destruct (search_found _ _ _ _ H) as (pre & suf & st' & -> & _ & Hin & _ & Hc).
  rewrite run_lit_seq in Hin. cbn [rest pos caps ignorecase no_flags] in Hin.
  destruct (starts_with false w suf) eqn:E; [|destruct Hin].
  cbn [run] in Hin. apply in_map_iff in Hin as (s1 & <- & H1).
  destruct (run_sound _ _ _ _ H1) as (u & [Hu1 Hu2] & Lu).
  cbn [rest pos caps] in *.
  exists pre, u, (rest s1). repeat split; auto.
  - f_equal. rewrite (starts_with_exact _ _ E) at 1. now rewrite Hu1.
  - unfold group. rewrite Hc. cbn [lookup]. rewrite Nat.eqb_refl.
    f_equal. rewrite Hu2, Hu1.
    replace (_ + List.length u - _)%nat with (List.length u) by lia.
    now rewrite firstn_app, firstn_all, Nat.sub_diag, firstn_O, app_nil_r.
Qed.


(** ** Groups *)

Lemma lookup_app_skip n added l :
  Forall (fun kv : nat * text => fst kv <> n) added ->
  lookup n (added ++ l) = lookup n l.
Proof.
  induction 1 as [|[k v] t Hk _ IH]; [reflexivity|].
  simpl in *. destruct (Nat.eqb_spec k n); [contradiction|exact IH].
Qed.

Section RepeatCaps.
Variables (fl : flags) (r : regex).
Hypothesis body_caps :
  forall st st', In st' (run fl r st) ->
    exists added, caps st' = added ++ caps st
                  /\ Forall (fun kv => In (fst kv) (groups r)) added.

Lemma rep_min_caps lo : forall st st',
  In st' (rep_min (run fl r) lo st) ->
  exists added, caps st' = added ++ caps st
                /\ Forall (fun kv => In (fst kv) (groups r)) added.
Proof.
  induction lo as [|n IH]; simpl; intros st st' Hin.
  - destruct Hin as [<-|[]]. exists []. split; [reflexivity|constructor].
  - apply in_flat_map in Hin as (sta & Ha & Hin).
    destruct (IH _ _ Hin) as (a2 & E2 & F2).
    destruct (body_caps _ _ Ha) as (a1 & E1 & F1).
    exists (a2 ++ a1). split; [now rewrite E2, E1, app_assoc|].
    apply Forall_app. now split.
Qed.

Lemma rep_more_caps g fuel : forall st st',
  In st' (rep_more (run fl r) g fuel st) ->
  exists added, caps st' = added ++ caps st
                /\ Forall (fun kv => In (fst kv) (groups r)) added.
Proof.
  induction fuel as [|f IH]; simpl; intros st st' Hin.
  - destruct Hin as [<-|[]]. exists []. split; [reflexivity|constructor].
  - assert (Hcases : st' = st \/
      In st' (flat_map (fun s1 => if (pos st <? pos s1)%nat
                                  then rep_more (run fl r) g f s1 else [])
                       (run fl r st))).
    { destruct g.
      - apply in_app_or in Hin as [H|[<-|[]]]; auto.
      - destruct Hin as [<-|H]; auto. }
    destruct Hcases as [->|H].
    + exists []. split; [reflexivity|constructor].
    + apply in_flat_map in H as (sta & Ha & H).
      destruct (pos st <? pos sta)%nat; [|destruct H].
      destruct (IH _ _ H) as (a2 & E2 & F2).
      destruct (body_caps _ _ Ha) as (a1 & E1 & F1).
      exists (a2 ++ a1). split; [now rewrite E2, E1, app_assoc|].
      apply Forall_app. now split.
Qed.
End RepeatCaps.

(** A match only adds captures, and only of the pattern's own groups. *)
Lemma run_caps fl r : forall st st',
  In st' (run fl r st) ->
  exists added, caps st' = added ++ caps st
                /\ Forall (fun kv => In (fst kv) (groups r)) added.
Proof.
  induction r as [| p | | neg items | r1 IH1 r2 IH2 | r1 IH1 r2 IH2
                  | g lo r1 IH1 | n r1 IH1 | r1 IH1 | |];
    cbn [run groups]; intros st st' Hin.
  - destruct Hin as [<-|[]]. exists []. split; [reflexivity|constructor].
  - apply step_if_sound in Hin as (c & _ & _ & Hc). exists [].
    split; [exact Hc|constructor].
  - apply step_if_sound in Hin as (c & _ & _ & Hc). exists [].
    split; [exact Hc|constructor].
  - apply step_if_sound in Hin as (c & _ & _ & Hc). exists [].
    split; [exact Hc|constructor].
  - apply in_flat_map in Hin as (s1 & H1 & H2).
    destruct (IH1 _ _ H1) as (a1 & E1 & F1).
    destruct (IH2 _ _ H2) as (a2 & E2 & F2).
    exists (a2 ++ a1). split; [now rewrite E2, E1, app_assoc|].
    apply Forall_app. split.
    + eapply Forall_impl; [|exact F2]. intros kv Hk. apply in_or_app. now right.
    + eapply Forall_impl; [|exact F1]. intros kv Hk. apply in_or_app. now left.
  - apply in_app_or in Hin as [H|H].
    + destruct (IH1 _ _ H) as (a1 & E1 & F1). exists a1. split; [exact E1|].
      eapply Forall_impl; [|exact F1]. intros kv Hk. apply in_or_app. now left.
    + destruct (IH2 _ _ H) as (a2 & E2 & F2). exists a2. split; [exact E2|].
      eapply Forall_impl; [|exact F2]. intros kv Hk. apply in_or_app. now right.
  - apply in_flat_map in Hin as (s1 & H1 & H2).
    destruct (rep_min_caps fl r1 IH1 _ _ _ H1) as (a1 & E1 & F1).
    destruct (rep_more_caps fl r1 IH1 _ _ _ _ H2) as (a2 & E2 & F2).
    exists (a2 ++ a1). split; [now rewrite E2, E1, app_assoc|].
    apply Forall_app. now split.
  - apply in_map_iff in Hin as (s1 & <- & H1).
    destruct (IH1 _ _ H1) as (a1 & E1 & F1). cbn [caps].
    exists ((n, firstn (pos s1 - pos st) (rest st)) :: a1).
    split; [now rewrite E1|]. constructor; [now left|].
    eapply Forall_impl; [|exact F1]. intros kv Hk. now right.
  - destruct (run fl r1 st) as [|s1 l] eqn:E; [destruct Hin|].
    destruct Hin as [<-|[]]. cbn [caps]. apply IH1. rewrite E. now left.
  - destruct (pos st =? 0)%nat; [|destruct Hin]. destruct Hin as [<-|[]].
    exists []. split; [reflexivity|constructor].
  - assert (st' = st) as ->.
    { destruct (rest st) as [|c [|c' t]]; try (destruct Hin as [<-|[]]; reflexivity);
        try destruct Hin.
      destruct (Ascii.eqb c "010"); [destruct Hin as [<-|[]]; reflexivity|destruct Hin]. }
    exists []. split; [reflexivity|constructor].
Qed.

(** The match of "a literal word, then a group, then more": the word and
    the group's text stand in the subject one after the other, whatever
    the rest of the pattern captures under other numbers. *)
Lemma search_lit_group_then w n r more s m :
  ~ In n (groups more) ->
  search no_flags (lit_chars w ;; Grp n r ;; more) s = Some m ->
  exists pre u post,
    s = pre ++ w ++ u ++ post /\ group n m = Some u /\ lang no_flags r u.
Proof.
  intros Hn H.
  destruct (search_found _ _ _ _ H) as (pre & suf & st' & -> & _ & Hin & _ & Hc).
  rewrite run_lit_seq in Hin. cbn [rest pos caps ignorecase no_flags] in Hin.
  destruct (starts_with false w suf) eqn:E; [|destruct Hin].
  cbn [run] in Hin. apply in_flat_map in Hin as (s2 & H2 & Hin).
  apply in_map_iff in H2 as (s1 & <- & H1).
  destruct (run_sound _ _ _ _ H1) as (u & [Hu1 Hu2] & Lu).
  destruct (run_caps _ _ _ _ Hin) as (added & Ea & Fa).
  cbn [rest pos caps] in *.
  exists pre, u, (rest s1). repeat split; auto.
  - f_equal. rewrite (starts_with_exact _ _ E) at 1. now rewrite Hu1.
  - unfold group. rewrite Hc, Ea, lookup_app_skip.
    + cbn [lookup]. rewrite Nat.eqb_refl. f_equal. rewrite Hu2, Hu1.
      replace (_ + List.length u - _)%nat with (List.length u) by lia.
      now rewrite firstn_app, firstn_all, Nat.sub_diag, firstn_O, app_nil_r.
    + eapply Forall_impl; [|exact Fa]. intros [k v] Hk Ek.
      cbn [fst] in Hk, Ek. subst k. contradiction.
Qed.

(** The texts of [\d+(?:-\d+)?]: a number, or two with a dash between. *)
Lemma lang_number_or_range u :
  lang no_flags (plus digit ;; opt (Chr "-" ;; plus digit)) u ->
  exists d1, all_digits d1 = true /\ d1 <> []
    /\ (u = d1 \/ exists d2, all_digits d2 = true /\ d2 <> []
                             /\ u = d1 ++ "-"%char :: d2).
Proof.
  intros H. inversion H as [| | | | r1 r2 u1 u2 H1 H2 | | | | | | | |]; subst.
  apply lang_plus_digit in H1 as [Hd1 Hn1]. exists u1. split; [exact Hd1|].
  split; [exact Hn1|].
  inversion H2 as [| | | | | r1 r2 u' Ha | r1 r2 u' Hb | | | | | |]; subst.
  - right. inversion Ha as [| | | | r1 r2 v1 v2 Hc Hd | | | | | | | |]; subst.
    apply lang_plus_digit in Hd as [Hd2 Hn2].
    inversion Hc as [| p c Hpc | | | | | | | | | | |]; subst.
    unfold chr_matches in Hpc. cbn [ignorecase no_flags] in Hpc.
    apply Ascii.eqb_eq in Hpc as <-. exists v2. auto.
  - left. inversion Hb; subst. apply app_nil_r.
Qed.


(** ** Substitution of a character class *)

Lemma match_here_cls fl neg items ma p s :
  match_here fl (Cls neg items) ma p s =
  match s with
  | c :: _ => if cls_matches fl neg items c then Some (RMatch p (S p) []) else None
  | [] => None
  end.
Proof.
  unfold match_here. cbn [run]. unfold step_if. cbn [rest pos caps].
  destruct s as [|c t]; [reflexivity|].
  destruct (cls_matches fl neg items c); [|reflexivity].
  cbn [filter pos]. replace (S p =? p)%nat with false
    by (symmetry; apply Nat.eqb_neq; lia).
  now destruct ma.
Qed.

Lemma sub_cls_steps fl neg items : forall s pre p f ma,
  (List.length s <= f)%nat ->
  sub_matches []
    (match search_from fl (Cls neg items) ma (p + List.length pre) s with
     | None => []
     | Some (m, s') =>
         m :: finditer_from fl (Cls neg items) f
                (m_end m =? m_start m)%nat (m_end m) s'
     end) p (pre ++ s)
  = pre ++ filter (fun c => negb (cls_matches fl neg items c)) s.
Proof.
  induction s as [|c t IH]; intros pre p f ma Hf.
  - cbn [search_from]. rewrite match_here_cls. reflexivity.
  - cbn [search_from]. rewrite match_here_cls. cbn [filter].
    destruct (cls_matches fl neg items c) eqn:Ec; cbn [negb].
    + cbn [m_end m_start sub_matches].
      replace (S (p + List.length pre) - (p + List.length pre))%nat with 1%nat by lia.
      replace (p + List.length pre - p)%nat with (List.length pre) by lia.
      replace (S (p + List.length pre) - p)%nat with (S (List.length pre)) by lia.
      replace (skipn (S (List.length pre)) (pre ++ c :: t)) with t.
      2:{ change (S (List.length pre)) with (1 + List.length pre)%nat.
          rewrite <- skipn_skipn, skipn_app, skipn_all, Nat.sub_diag. reflexivity. }
      rewrite firstn_app, firstn_all, Nat.sub_diag, firstn_O, app_nil_r.
      cbn [app]. f_equal.
      destruct f as [|f']; [simpl in Hf; lia|]. cbn [finditer_from].
      specialize (IH [] (S (p + List.length pre)) f' (S (p + List.length pre) =? p + List.length pre)%nat).
      cbn [List.length app] in IH. rewrite Nat.add_0_r in IH.
      apply IH. simpl in Hf. lia.
    + specialize (IH (pre ++ [c]) p f false).
      rewrite length_app in IH. cbn [List.length] in IH.
      replace (p + (List.length pre + 1))%nat with (S (p + List.length pre)) in IH by lia.
      rewrite <- !app_assoc in IH. cbn [app] in IH. apply IH.
      simpl in Hf. lia.
Qed.

(** Replacing every character of a class by nothing keeps the others. *)
Lemma sub_cls_filter fl neg items s :
  sub fl (Cls neg items) [] s
  = filter (fun c => negb (cls_matches fl neg items c)) s.
Proof.
  unfold sub, finditer.
  replace (2 * List.length s + 2)%nat with (S (2 * List.length s + 1)) by lia.
  cbn [finditer_from].
  pose proof (sub_cls_steps fl neg items s [] 0%nat (2 * List.length s + 1)%nat false) as H.
  cbn [List.length app Nat.add] in H. apply H. lia.
Qed.

Lemma forallb_filter_same {A} (f : A -> bool) l : forallb f (filter f l) = true.
Proof.
  induction l as [|a t IH]; [reflexivity|]. simpl.
  destruct (f a) eqn:E; [simpl; now rewrite E|exact IH].
Qed.

Lemma filter_all {A} (f : A -> bool) l : forallb f l = true -> filter f l = l.
Proof.
  induction l as [|a t IH]; [reflexivity|]. simpl.
  rewrite andb_true_iff. intros [-> H]. now rewrite IH.
Qed.

Lemma price_junk_keep c :
  negb (cls_matches no_flags true [CDigit; CChar "-"; CSpace] c) = price_char c.
Proof.
  unfold cls_matches, price_char. cbn. rewrite negb_involutive.
  now rewrite orb_false_r, orb_assoc.
Qed.

Lemma clean_price_text_filter t :
  clean_price_text t = filter price_char (strip t).
Proof.
  unfold clean_price_text, price_junk. rewrite sub_cls_filter.
  apply filter_ext. exact price_junk_keep.
Qed.

(** ** Numbers *)

Lemma in_range_code lo hi c :
  in_range lo hi c = true <-> (code lo <= code c <= code hi)%N.
Proof.
  unfold in_range. rewrite andb_true_iff, !N.leb_le. tauto.
Qed.

Lemma digit_val_range c : is_digit c = true -> 0 <= digit_val c <= 9.
Proof.
  unfold is_digit. rewrite in_range_code. unfold digit_val.
  change (code "0") with 48%N. change (code "9") with 57%N. lia.
Qed.

Lemma digits_value_nonneg s : forall acc prev v,
  0 <= acc -> digits_value acc prev s = Some v -> 0 <= v.
Proof.
  induction s as [|c t IH]; intros acc prev v Ha H; simpl in H.
  - destruct prev; [injection H as <-; assumption|discriminate].
  - destruct (is_digit c) eqn:Hd.
    + pose proof (digit_val_range c Hd).
      apply (IH (10 * acc + digit_val c) true v); [lia|exact H].
    + destruct (Ascii.eqb c "_" && prev); [|discriminate].
      destruct t; [discriminate|]. now apply (IH acc false v).
Qed.

(** [int] gives a negative number only to a text with a minus sign. *)
Lemma py_int_nonneg s v :
  py_int s = Some v -> contains_char "-" s = false -> 0 <= v.
Proof.
  unfold py_int. intros H Hs. apply contains_char_strip in Hs.
  destruct (strip s) as [|c t] eqn:E.
  - simpl in H. discriminate.
  - assert (Hc : c <> "-"%char).
    { intros ->. simpl in Hs. discriminate. }
    assert (Hgen : forall body,
      (if (int_max_str_digits <? List.length (filter is_digit body))%nat
       then None
       else option_map (fun v0 : Z => if false then - v0 else v0)
                       (digits_value 0 false body)) = Some v -> 0 <= v).
    { intros body Hb. destruct (_ <? _)%nat; [discriminate|].
      destruct (digits_value 0 false body) as [w|] eqn:Ew; [|discriminate].
      injection Hb as <-. eapply digits_value_nonneg; [|exact Ew]. lia. }
    destruct c as [[] [] [] [] [] [] [] []];
      try (exact (Hgen _ H)); try (exfalso; apply Hc; reflexivity).
Qed.

Lemma all_digits_no_dash u : all_digits u = true -> contains_char "-" u = false.
Proof.
  unfold all_digits, contains_char.
  induction u as [|c t IH]; cbn [forallb existsb]; [reflexivity|].
  rewrite andb_true_iff. intros [Hc Ht]. rewrite (IH Ht), orb_false_r.
  destruct (Ascii.eqb_spec "-" c) as [<-|]; [|reflexivity].
  vm_compute in Hc. discriminate.
Qed.


(** ** Reading integers *)

Lemma drop_while_split p s :
  exists u, s = u ++ drop_while p s /\ forallb p u = true.
Proof.
  induction s as [|c t (u & IH & Hu)]; simpl.
  - now exists [].
  - destruct (p c) eqn:E.
    + exists (c :: u). simpl. rewrite E, Hu. split; [now f_equal|reflexivity].
    + now exists [].
Qed.

Lemma forallb_rev {A} (f : A -> bool) l : forallb f (rev l) = forallb f l.
Proof.
  induction l as [|a t IH]; [reflexivity|]. simpl.
  rewrite forallb_app, IH. simpl. rewrite andb_true_r. apply andb_comm.
Qed.

(** [strip] takes whitespace off, and nothing else. *)
Lemma strip_split s :
  exists u v, s = u ++ strip s ++ v
              /\ forallb is_space u = true /\ forallb is_space v = true.
Proof.
  unfold strip.
  destruct (drop_while_split is_space s) as (u & Hu & Su).
  destruct (drop_while_split is_space (rev (drop_while is_space s)))
    as (w & Hw & Sw).
  exists u, (rev w). split; [|split; [exact Su|now rewrite forallb_rev]].
  rewrite <- rev_app_distr, <- Hw, rev_involutive. exact Hu.
Qed.

Lemma int_text_of_strip s v : int_text (strip s) v -> int_text s v.
Proof.
  intros (ws1 & ds & ws2 & E & H1 & H2 & H).
  destruct (strip_split s) as (u & w & Es & Hu & Hw).
  exists (u ++ ws1), ds, (ws2 ++ w).
  split; [|split; [|split; [|exact H]]].
  - rewrite Es at 1. rewrite E, <- !app_assoc. reflexivity.
  - now rewrite forallb_app, Hu, H1.
  - now rewrite forallb_app, H2, Hw.
Qed.

Lemma py_int_unsigned s :
  match strip s with
  | c :: _ => c <> "-"%char /\ c <> "+"%char
  | [] => True
  end ->
  py_int s =
  if (int_max_str_digits <? List.length (filter is_digit (strip s)))%nat
  then None else digits_value 0 false (strip s).
Proof.
  unfold py_int.
  assert (Hgen : forall body,
    (if (int_max_str_digits <? List.length (filter is_digit body))%nat
     then None
     else option_map (fun v0 : Z => if false then - v0 else v0)
                     (digits_value 0 false body))
    = (if (int_max_str_digits <? List.length (filter is_digit body))%nat
       then None else digits_value 0 false body)).
  { intros body. destruct (_ <? _)%nat; [reflexivity|].
    now destruct (digits_value 0 false body). }
  destruct (strip s) as [|c t]; [intros _; exact (Hgen [])|].
  intros [Hm Hp].
  destruct c as [[] [] [] [] [] [] [] []];
    try (exact (Hgen _));
    try (exfalso; apply Hm; reflexivity); exfalso; apply Hp; reflexivity.
Qed.

Lemma digits_value_plain s : forall acc prev v,
  forallb digit_or_space s = true ->
  digits_value acc prev s = Some v ->
  all_digits s = true /\ v = decimal_value acc s.
Proof.
  induction s as [|c t IH]; intros acc prev v Hs H.
  - simpl in H. destruct prev; [|discriminate]. injection H as <-. now split.
  - cbn [forallb] in Hs. apply andb_true_iff in Hs as [Hc Ht].
    cbn [digits_value] in H. destruct (is_digit c) eqn:Hd.
    + destruct (IH _ _ _ Ht H) as [Ha Hv].
      split; [cbn; now rewrite Hd|exact Hv].
    + destruct (Ascii.eqb_spec c "_") as [->|]; [|discriminate].
      vm_compute in Hc. discriminate.
Qed.

Lemma forallb_sub_app {A} (f : A -> bool) u m v :
  forallb f (u ++ m ++ v) = true -> forallb f m = true.
Proof.
  rewrite !forallb_app, !andb_true_iff. tauto.
Qed.

(** On digits and whitespace [int] reads a plain decimal number. *)
Lemma py_int_plain s v :
  forallb digit_or_space s = true -> py_int s = Some v -> int_text s v.
Proof.
  intros Hs H. apply int_text_of_strip.
  destruct (strip_split s) as (u & w & Es & _ & _).
  assert (Hst : forallb digit_or_space (strip s) = true).
  { rewrite Es in Hs. exact (forallb_sub_app _ _ _ _ Hs). }
  rewrite py_int_unsigned in H.
  - destruct (_ <? _)%nat eqn:El; [discriminate|].
    destruct (digits_value_plain _ _ _ _ Hst H) as [Hd Hv].
    assert (Hne : strip s <> []).
    { intros E. rewrite E in H. discriminate. }
    exists [], (strip s), []. rewrite app_nil_r.
    split; [reflexivity|]. split; [reflexivity|]. split; [reflexivity|].
    split; [exact Hne|]. split; [exact Hd|]. split; [|exact Hv].
    apply Nat.ltb_ge in El.
    rewrite (filter_all _ _ Hd) in El. exact El.
  - destruct (strip s) as [|c t]; [exact I|].
    cbn [forallb] in Hst. apply andb_true_iff in Hst as [Hc _].
    split; intros ->; vm_compute in Hc; discriminate.
Qed.

Lemma split_pair c s a b : split c s = [a; b] -> s = a ++ c :: b.
Proof.
  revert a. induction s as [|x t IH]; intros a H; [discriminate|].
  simpl in H. destruct (Ascii.eqb_spec x c) as [->|].
  - injection H as <- H.
    assert (contains_char c t = false) as Hn.
    { destruct (contains_char c t) eqn:E; [|reflexivity].
      destruct (split_two _ _ E) as (p & q & r & Er). rewrite Er in H.
      discriminate. }
    rewrite (split_none _ _ Hn) in H. now injection H as <-.
  - destruct (split c t) as [|h r] eqn:E; [discriminate|].
    injection H as <- ->. simpl. f_equal. now apply IH.
Qed.

Lemma price_char_no_dash p :
  forallb price_char p = true -> contains_char "-" p = false ->
  forallb digit_or_space p = true.
Proof.
  unfold contains_char.
  induction p as [|c t IH]; [reflexivity|]. cbn [forallb existsb].
  rewrite andb_true_iff, orb_false_iff. intros [Hc Ht] [Hd Hn].
  rewrite (IH Ht Hn), andb_true_r.
  unfold price_char in Hc. rewrite Hd, orb_false_r in Hc. exact Hc.
Qed.

(** What [extract_price] reads: the one number of the cleaned text, or the
    two numbers on either side of its dash, in that order. *)
Lemma extract_price_reads t a b :
  extract_price t = (Some a, Some b) ->
  (contains_char "-" (clean_price_text t) = false
   /\ int_text (clean_price_text t) a /\ b = a)
  \/ (exists p q, clean_price_text t = p ++ "-"%char :: q
                  /\ contains_char "-" p = false /\ contains_char "-" q = false
                  /\ int_text p a /\ int_text q b).
Proof.
  unfold extract_price. destruct t as [|c0 t0]; [discriminate|].
  fold (clean_price_text (c0 :: t0)).
  assert (Hc : forallb price_char (clean_price_text (c0 :: t0)) = true).
  { rewrite clean_price_text_filter. apply forallb_filter_same. }
  destruct (contains_char "-" (clean_price_text (c0 :: t0))) eqn:Hd.
  - destruct (split "-" (clean_price_text (c0 :: t0)))
      as [|p0 [|p1 [|p2 r]]] eqn:Es; try discriminate.
    assert (H0 : contains_char "-" p0 = false).
    { apply (split_no_sep "-" (clean_price_text (c0 :: t0))). rewrite Es. now left. }
    assert (H1 : contains_char "-" p1 = false).
    { apply (split_no_sep "-" (clean_price_text (c0 :: t0))). rewrite Es.
      right. now left. }
    apply split_pair in Es. rewrite Es in Hc.
    rewrite forallb_app in Hc. cbn [forallb] in Hc.
    apply andb_true_iff in Hc as [Hp0 Hp1].
    apply andb_true_iff in Hp1 as [_ Hp1].
    destruct (py_int (strip p0)) as [a'|] eqn:Ea; [|discriminate].
    destruct (py_int (strip p1)) as [b'|] eqn:Eb; [|discriminate].
    intros [= <- <-]. right. exists p0, p1.
    split; [exact Es|]. split; [exact H0|]. split; [exact H1|].
    split; apply int_text_of_strip, py_int_plain; auto.
    + destruct (strip_split p0) as (u & w & E & _ & _).
      pose proof (price_char_no_dash _ Hp0 H0) as Hx. rewrite E in Hx.
      exact (forallb_sub_app _ _ _ _ Hx).
    + destruct (strip_split p1) as (u & w & E & _ & _).
      pose proof (price_char_no_dash _ Hp1 H1) as Hx. rewrite E in Hx.
      exact (forallb_sub_app _ _ _ _ Hx).
  - destruct (py_int (strip (clean_price_text (c0 :: t0)))) as [a'|] eqn:Ea;
      [|discriminate].
    intros [= <- <-]. left. split; [reflexivity|]. split; [|reflexivity].
    apply int_text_of_strip, py_int_plain; [|exact Ea].
    destruct (strip_split (clean_price_text (c0 :: t0))) as (u & w & E & _ & _).
    pose proof (price_char_no_dash _ Hc Hd) as Hx. rewrite E in Hx.
    exact (forallb_sub_app _ _ _ _ Hx).
Qed.

(** ** The fields of a block *)

Lemma parse_fields_inv b d :
  parse_fields b = Ok d ->
  name_loop name_patterns (strip b) (str "Unknown Company") = Ok (company_name d)
  /\ block_dates (strip b) = Ok (offer_start_date d, offer_end_date d)
  /\ block_price (strip b) = (offer_price_min d, offer_price_max d)
  /\ block_lot_size (strip b) = Ok (lot_size d)
  /\ sub_loop sub_patterns (strip b) = Ok (subscription_times d)
  /\ (exists prem, block_premium (strip b) = Ok prem
                   /\ expected_premium d = option_map fst prem
                   /\ premium_percentage d = option_map snd prem)
  /\ investment_per_lot d = None.
Proof.
  unfold parse_fields, bind.
  destruct (name_loop _ _ _) as [nm|]; [|discriminate].
  destruct (block_dates _) as [[ds de]|]; [|discriminate].
  destruct (block_price _) as [pmin pmax].
  destruct (block_lot_size _) as [lot|]; [|discriminate].
  destruct (sub_loop _ _) as [sb|]; [|discriminate].
  destruct (block_premium _) as [prem|]; [|discriminate].
  intros [= <-]. cbn. repeat split; eauto.
Qed.

Lemma accepted_inv b d :
  parse_single_ipo_block b = Ok (Some d) ->
  parse_fields b = Ok d
  /\ truthy (offer_price_min d) = true /\ truthy (lot_size d) = true.
Proof.
  unfold parse_single_ipo_block, bind.
  destruct (parse_fields b) as [d'|]; [|discriminate].
  destruct (truthy (offer_price_min d') && truthy (lot_size d')) eqn:E;
    [|discriminate].
  intros [= <-]. apply andb_true_iff in E. tauto.
Qed.

Lemma truthy_inv x : truthy x = true -> exists v, x = Some v /\ v <> 0.
Proof.
  destruct x as [v|]; [|discriminate]. simpl. intros H. exists v.
  split; [reflexivity|]. intros ->. discriminate.
Qed.

Lemma process_block_inv b d :
  process_block b = Some d ->
  exists d0 v, parse_single_ipo_block b = Ok (Some d0)
    /\ compute_investment d0 = Ok v
    /\ company_name d = company_name d0
    /\ offer_price_min d = offer_price_min d0
    /\ offer_price_max d = offer_price_max d0
    /\ lot_size d = lot_size d0
    /\ subscription_times d = subscription_times d0
    /\ expected_premium d = expected_premium d0
    /\ premium_percentage d = premium_percentage d0
    /\ offer_start_date d = offer_start_date d0
    /\ offer_end_date d = offer_end_date d0
    /\ investment_per_lot d = Some v.
Proof.
  unfold process_block.
  destruct (parse_single_ipo_block b) as [[d0|]|]; try discriminate.
  destruct (compute_investment d0) as [v|] eqn:Ev; [|discriminate].
  intros [= <-]. exists d0, v. cbn. repeat split; auto.
Qed.

Lemma in_keep_some {A} (l : list (option A)) a :
  In a (keep_some l) <-> In (Some a) l.
Proof.
  induction l as [|[x|] t IH]; simpl; [tauto| |].
  - rewrite IH. split; intros [H|H]; auto; left; congruence.
  - rewrite IH. split; [auto|]. intros [H|H]; [discriminate|assumption].
Qed.

(** Every record of the output comes from a block that was accepted. *)
Lemma parse_page_text_inv page d :
  In d (parse_page_text page) ->
  exists b, In b (split_ipo_blocks_v2 page) /\ process_block b = Some d.
Proof.
  unfold parse_page_text. rewrite in_keep_some, in_map_iff.
  intros (b & Hb & Hin). eauto.
Qed.

(** [extract_price] gives both numbers or none. *)
Lemma extract_price_both t :
  extract_price t = (None, None)
  \/ exists a b, extract_price t = (Some a, Some b).
Proof.
  unfold extract_price. destruct t as [|c t]; [now left|].
  set (clean := sub no_flags price_junk [] (strip (c :: t))).
  destruct (contains_char "-" clean).
  - destruct (split "-" clean) as [|p0 [|p1 [|p2 r]]]; try now left.
    destruct (py_int (strip p0)) as [a|]; [|now left].
    destruct (py_int (strip p1)) as [b|]; [|now left].
    right. now exists a, b.
  - destruct (py_int (strip clean)) as [a|]; [|now left].
    right. now exists a, a.
Qed.

(** The numbers [extract_price] reads are not negative: no minus sign
    gets as far as [int]. *)
Lemma extract_price_nonneg t a b :
  extract_price t = (Some a, Some b) -> 0 <= a /\ 0 <= b.
Proof.
  unfold extract_price. destruct t as [|c t]; [discriminate|].
  set (clean := sub no_flags price_junk [] (strip (c :: t))).
  destruct (contains_char "-" clean) eqn:Hd.
  - destruct (split "-" clean) as [|p0 [|p1 [|p2 r]]] eqn:Es; try discriminate.
    assert (H0 : contains_char "-" p0 = false).
    { apply (split_no_sep "-" clean). rewrite Es. now left. }
    assert (H1 : contains_char "-" p1 = false).
    { apply (split_no_sep "-" clean). rewrite Es. right. now left. }
    destruct (py_int (strip p0)) as [a'|] eqn:Ea; [|discriminate].
    destruct (py_int (strip p1)) as [b'|] eqn:Eb; [|discriminate].
    intros [= <- <-]. split.
    + apply (py_int_nonneg _ _ Ea), contains_char_strip, H0.
    + apply (py_int_nonneg _ _ Eb), contains_char_strip, H1.
  - destruct (py_int (strip clean)) as [a'|] eqn:Ea; [|discriminate].
    intros [= <- <-].
    pose proof (py_int_nonneg _ _ Ea (contains_char_strip _ _ Hd)). tauto.
Qed.

(** What the price step stores: nothing, or both numbers, the first at
    least 1. *)
Lemma block_price_cases ft :
  block_price ft = (None, None)
  \/ exists m g a b,
       search no_flags offer_price_re ft = Some m /\ group 1 m = Some g
       /\ extract_price g = (Some a, Some b) /\ 1 <= a /\ 0 <= b
       /\ block_price ft = (Some a, Some b).
Proof.
  unfold block_price.
  destruct (search no_flags offer_price_re ft) as [m|] eqn:Es; [|now left].
  destruct (group 1 m) as [g|] eqn:Eg; [|now left].
  destruct (extract_price_both g) as [E|(a & b & E)]; rewrite E; [now left|].
  destruct (a =? 0) eqn:Ez; [now left|].
  right. exists m, g, a, b. apply Z.eqb_neq in Ez.
  destruct (extract_price_nonneg _ _ _ E) as [Ha Hb].
  split; [reflexivity|]. split; [exact Eg|]. split; [exact E|].
  split; [lia|]. split; [exact Hb|reflexivity].
Qed.

(** What the lot step stores is read from digits. *)
Lemma block_lot_size_cases ft lot :
  block_lot_size ft = Ok (Some lot) ->
  exists m g, search no_flags lot_size_re ft = Some m /\ group 1 m = Some g
              /\ all_digits g = true /\ py_int g = Some lot /\ 0 <= lot.
Proof.
  unfold block_lot_size.
  destruct (search no_flags lot_size_re ft) as [m|] eqn:Es; [|discriminate].
  destruct (search_lit_group _ _ _ _ _ Es) as (pre & u & post & _ & Hg & Lu).
  rewrite Hg. intros [= Hi]. apply lang_plus_digit in Lu as [Hd _].
  exists m, u. split; [reflexivity|]. split; [exact Hg|].
  split; [exact Hd|]. split; [exact Hi|].
  apply (py_int_nonneg _ _ Hi), all_digits_no_dash, Hd.
Qed.

Lemma offer_price_value_none ft :
  offer_price_value ft = None -> block_price ft = (None, None).
Proof.
  unfold offer_price_value, block_price.
  destruct (search no_flags offer_price_re ft) as [m|]; [|reflexivity].
  destruct (group 1 m) as [g|]; [|reflexivity].
  destruct (extract_price_both g) as [E|(a & b & E)]; rewrite E; simpl;
    [reflexivity|discriminate].
Qed.

Lemma lot_size_value_none ft lot :
  lot_size_value ft = None -> block_lot_size ft = Ok lot -> lot = None.
Proof.
  unfold lot_size_value, block_lot_size.
  destruct (search no_flags lot_size_re ft) as [m|]; [|now intros _ [= <-]].
  destruct (group 1 m) as [g|]; [|discriminate].
  now intros -> [= <-].
Qed.

Lemma no_offer_price_no_value b :
  occurs false (str "Offer Price") b = false ->
  offer_price_value (strip b) = None.
Proof.
  intros H. unfold offer_price_value.
  destruct (search no_flags offer_price_re (strip b)) as [m|] eqn:E;
    [|reflexivity].
  apply search_lit_occurs, occurs_strip in E.
  change (ignorecase no_flags) with false in E. congruence.
Qed.

Lemma no_lot_size_no_value b :
  occurs false (str "Lot Size") b = false ->
  lot_size_value (strip b) = None.
Proof.
  intros H. unfold lot_size_value.
  destruct (search no_flags lot_size_re (strip b)) as [m|] eqn:E;
    [|reflexivity].
  apply search_lit_occurs, occurs_strip in E.
  change (ignorecase no_flags) with false in E. congruence.
Qed.

(** A block is accepted only with a price minimum and a lot size of 1 at
    least, and then it has a price maximum too. *)
Lemma accepted_fields b d :
  parse_single_ipo_block b = Ok (Some d) ->
  exists pmin pmax lot,
    offer_price_min d = Some pmin /\ offer_price_max d = Some pmax
    /\ lot_size d = Some lot /\ 1 <= pmin /\ 0 <= pmax /\ 1 <= lot.
Proof.
  intros H. apply accepted_inv in H as (Hf & Hp & Hl).
  apply parse_fields_inv in Hf as (_ & _ & Hprice & Hlot & _).
  apply truthy_inv in Hp as (pmin & Hmin & Hmin0).
  apply truthy_inv in Hl as (lot & Hlt & Hlt0).
  rewrite Hlt in Hlot.
  destruct (block_lot_size_cases _ _ Hlot) as (_ & _ & _ & _ & _ & _ & Hl0).
  destruct (block_price_cases (strip b)) as [E|(m & g & a & bb & _ & _ & _ & Ha & Hb & E)];
    rewrite E in Hprice; injection Hprice as E1 E2.
  - congruence.
  - exists a, bb, lot. split; [congruence|]. split; [congruence|].
    split; [exact Hlt|]. split; [exact Ha|]. split; [exact Hb|lia].
Qed.


Lemma starts_with_refl ci w : starts_with ci w w = true.
Proof.
  induction w as [|c t IH]; [reflexivity|]. simpl. rewrite IH.
  destruct ci; now rewrite Ascii.eqb_refl.
Qed.

Lemma occurs_infix ci pre w post : occurs ci w (pre ++ w ++ post) = true.
Proof.
  apply occurs_app_r, starts_with_occurs, starts_with_app_l, starts_with_refl.
Qed.

Lemma contains_char_mid c a b : contains_char c (a ++ c :: b) = true.
Proof.
  rewrite contains_char_app. simpl. rewrite Ascii.eqb_refl.
  now rewrite orb_true_r.
Qed.

Lemma split_range d1 d2 :
  all_digits d1 = true -> all_digits d2 = true ->
  split "-" (d1 ++ "-"%char :: d2) = [d1; d2].
Proof.
  intros H1 H2.
  rewrite split_app_sep by now apply all_digits_no_dash.
  rewrite split_none by now apply all_digits_no_dash. reflexivity.
Qed.

Lemma digit_not_space c : is_digit c = true -> is_space c = false.
Proof.
  destruct c as [[] [] [] [] [] [] [] []]; vm_compute; congruence.
Qed.

Lemma strip_no_space s :
  forallb (fun c => negb (is_space c)) s = true -> strip s = s.
Proof.
  intros H. apply strip_id.
  - destruct s as [|c t]; [exact I|]. simpl in H.
    apply andb_true_iff in H as [H _]. now apply negb_true_iff.
  - rewrite <- forallb_rev in H. destruct (rev s) as [|c t]; [exact I|].
    simpl in H. apply andb_true_iff in H as [H _]. now apply negb_true_iff.
Qed.

Lemma digits_no_space d :
  all_digits d = true -> forallb (fun c => negb (is_space c)) d = true.
Proof.
  unfold all_digits. induction d as [|c t IH]; [reflexivity|]. simpl.
  rewrite andb_true_iff. intros [Hc Ht].
  now rewrite (digit_not_space _ Hc), IH.
Qed.

Lemma digits_price_chars d : all_digits d = true -> forallb price_char d = true.
Proof.
  unfold all_digits. induction d as [|c t IH]; [reflexivity|]. simpl.
  rewrite andb_true_iff. intros [Hc Ht]. unfold price_char at 1.
  now rewrite Hc, IH.
Qed.

Lemma strip_digits d : all_digits d = true -> strip d = d.
Proof. intros H. apply strip_no_space, digits_no_space, H. Qed.

(** [extract_price] on a number as the price pattern captures it. *)
Lemma extract_price_number d1 :
  all_digits d1 = true -> d1 <> [] ->
  extract_price d1 =
  match py_int d1 with
  | Some v => (Some v, Some v)
  | None => (None, None)
  end.
Proof.
  intros Hd Hn. unfold extract_price. destruct d1 as [|c t]; [congruence|].
  fold (clean_price_text (c :: t)).
  rewrite clean_price_text_filter, (strip_digits _ Hd),
    (filter_all _ _ (digits_price_chars _ Hd)), (all_digits_no_dash _ Hd),
    (strip_digits _ Hd).
  reflexivity.
Qed.

(** [extract_price] on a range as the price pattern captures it: the two
    numbers, in the order of the text. *)
Lemma extract_price_range d1 d2 :
  all_digits d1 = true -> all_digits d2 = true ->
  extract_price (d1 ++ "-"%char :: d2) =
  match py_int d1, py_int d2 with
  | Some v1, Some v2 => (Some v1, Some v2)
  | _, _ => (None, None)
  end.
Proof.
  intros H1 H2. unfold extract_price.
  destruct (d1 ++ "-"%char :: d2) as [|c t] eqn:E;
    [destruct d1; discriminate|].
  rewrite <- E. clear c t E.
  fold (clean_price_text (d1 ++ "-"%char :: d2)).
  assert (Hns : forallb (fun c => negb (is_space c)) (d1 ++ "-"%char :: d2) = true).
  { rewrite forallb_app. cbn [forallb].
    now rewrite (digits_no_space _ H1), (digits_no_space _ H2). }
  assert (Hpc : forallb price_char (d1 ++ "-"%char :: d2) = true).
  { rewrite forallb_app. cbn [forallb].
    now rewrite (digits_price_chars _ H1), (digits_price_chars _ H2). }
  rewrite clean_price_text_filter, (strip_no_space _ Hns), (filter_all _ _ Hpc),
    contains_char_mid, (split_range _ _ H1 H2),
    (strip_digits _ H1), (strip_digits _ H2).
  destruct (py_int d1); [|reflexivity]. now destruct (py_int d2).
Qed.

(** What the price step stores is what the text quotes after "Offer Price":
    one number, stored twice, or the two numbers of a range as they stand. *)
Lemma block_price_reads ft a b :
  block_price ft = (Some a, Some b) ->
  exists pre g post,
    ft = pre ++ str "Offer Price" ++ g ++ post
    /\ ((all_digits g = true /\ py_int g = Some a /\ b = a)
        \/ (exists d1 d2, g = d1 ++ "-"%char :: d2
              /\ all_digits d1 = true /\ all_digits d2 = true
              /\ py_int d1 = Some a /\ py_int d2 = Some b)).
Proof.
  unfold block_price.
  destruct (search no_flags offer_price_re ft) as [m|] eqn:Es; [|discriminate].
  destruct (search_lit_group _ _ _ _ _ Es) as (pre & u & post & Hft & Hg & Lu).
  rewrite Hg. apply lang_number_or_range in Lu as (d1 & Hd1 & Hn1 & Hu).
  intros H. exists pre, u, post. split; [exact Hft|].
  destruct Hu as [->|(d2 & Hd2 & _ & ->)].
  - left. rewrite (extract_price_number _ Hd1 Hn1) in H.
    destruct (py_int d1) as [v|]; [|discriminate].
    destruct (v =? 0); [discriminate|]. injection H as <- <-. auto.
  - right. exists d1, d2. rewrite (extract_price_range _ _ Hd1 Hd2) in H.
    destruct (py_int d1) as [v1|]; [|discriminate].
    destruct (py_int d2) as [v2|]; [|discriminate].
    destruct (v1 =? 0); [discriminate|]. injection H as <- <-. auto 10.
Qed.

(** When the premium step stores a float, it is the mean of the two
    numbers of a range quoted right after "Exp. Premium". *)
Lemma block_premium_range ft avg pct :
  block_premium ft = Ok (Some (inr avg, pct)) ->
  exists pre d1 d2 post lo hi,
    ft = pre ++ str "Exp. Premium" ++ (d1 ++ "-"%char :: d2) ++ post
    /\ all_digits d1 = true /\ all_digits d2 = true
    /\ py_int d1 = Some lo /\ py_int d2 = Some hi
    /\ int_truediv (lo + hi) 2 = Ok avg.
Proof.
  unfold block_premium.
  destruct (search no_flags exp_premium_re ft) as [m|] eqn:Es; [|discriminate].
  unfold exp_premium_re, lit in Es.
  apply search_lit_group_then in Es as (pre & u & post & Hft & Hg & Lu);
    [|cbn; intros [E|[]]; discriminate].
  rewrite Hg. apply lang_number_or_range in Lu as (d1 & Hd1 & _ & Hu).
  destruct (group 2 m) as [g2|]; [|discriminate].
  destruct (py_float g2) as [p|]; [|discriminate].
  destruct Hu as [->|(d2 & Hd2 & _ & ->)].
  - rewrite (all_digits_no_dash _ Hd1).
    destruct (py_int d1); discriminate.
  - rewrite contains_char_mid, (split_range _ _ Hd1 Hd2). cbn [nth_error].
    destruct (py_int d1) as [lo|] eqn:E1; [|discriminate].
    destruct (py_int d2) as [hi|] eqn:E2; [|discriminate].
    unfold bind. destruct (int_truediv (lo + hi) 2) as [a|] eqn:Ea; [|discriminate].
    intros [= <- <-]. exists pre, d1, d2, post, lo, hi. auto 10.
Qed.

(** [a / 2] on an [int]: the float nearest to the half of [a]. *)
Lemma int_truediv_2 a x : int_truediv a 2 = Ok x -> x = fround (Qmake a 2).
Proof.
  unfold int_truediv. cbn [Z.eqb Z.sgn Z.abs Z.to_pos]. rewrite Z.mul_1_r.
  destruct (fround (Qmake a 2)); [|discriminate|discriminate].
  now intros [= <-].
Qed.

(** The premium step never fails on an index: a range that holds a dash
    splits in two pieces at least. *)
Lemma block_premium_no_index_error ft : block_premium ft <> Raise IndexError.
Proof.
  unfold block_premium.
  destruct (search no_flags exp_premium_re ft) as [m|]; [|discriminate].
  destruct (group 1 m) as [g1|]; [|destruct (group 2 m); discriminate].
  destruct (group 2 m) as [g2|]; [|discriminate].
  destruct (py_float g2); [|discriminate].
  destruct (contains_char "-" g1) eqn:E.
  - destruct (split_two _ _ E) as (a & b & r & ->). cbn [nth_error].
    destruct (py_int a); [|discriminate]. destruct (py_int b); [|discriminate].
    unfold bind, int_truediv. cbn [Z.eqb].
    destruct (fround _); discriminate.
  - destruct (py_int g1); discriminate.
Qed.

Lemma extract_premium_both t ep pp :
  extract_premium t = Ok (ep, pp) -> (ep = None <-> pp = None).
Proof.
  unfold extract_premium. destruct t as [|c t]; [now intros [= <- <-]|].
  destruct (occurs false (str "N/A") (c :: t)); [now intros [= <- <-]|].
  destruct (search no_flags premium_re (c :: t)) as [m|]; [|now intros [= <- <-]].
  destruct (group 1 m) as [g1|]; [|destruct (group 2 m); discriminate].
  destruct (group 2 m) as [g2|]; [|discriminate].
  destruct (py_float g2); [|now intros [= <- <-]].
  destruct (contains_char "-" g1).
  - destruct (split "-" g1) as [|p0 [|p1 [|p2 r]]]; try now intros [= <- <-].
    destruct (py_int (strip p0)); [|now intros [= <- <-]].
    destruct (py_int (strip p1)); [|now intros [= <- <-]].
    unfold bind. destruct (int_truediv _ 2); [|discriminate].
    intros [= <- <-]. split; discriminate.
  - destruct (py_int g1); [|now intros [= <- <-]].
    intros [= <- <-]. split; discriminate.
Qed.

Lemma extract_dates_both t s e :
  extract_dates t = Ok (s, e) ->
  (s = None /\ e = None)
  \/ exists s_str e_str sd ed,
       strptime_date s_str = Some sd /\ strptime_date e_str = Some ed
       /\ s = Some sd /\ e = Some ed.
Proof.
  unfold extract_dates. destruct t as [|c t]; [intros [= <- <-]; now left|].
  destruct (search no_flags date_pair_re (c :: t)) as [m|];
    [|intros [= <- <-]; now left].
  destruct (group 1 m) as [g1|]; [|discriminate].
  destruct (group 2 m) as [g2|]; [|discriminate].
  destruct (strptime_date g1) as [sd|] eqn:E1; [|intros [= <- <-]; now left].
  destruct (strptime_date g2) as [ed|] eqn:E2; [|intros [= <- <-]; now left].
  intros [= <- <-]. right. exists g1, g2, sd, ed. auto.
Qed.


(** The first pattern of the subscription list that finds a number decides. *)
Lemma sub_loop_first ft m g v :
  search IGNORECASE sub_pattern_simple ft = Some m ->
  group 1 m = Some g -> py_float g = Some v ->
  sub_loop sub_patterns ft = Ok (Some v).
Proof. intros H1 H2 H3. unfold sub_patterns. simpl. now rewrite H1, H2, H3. Qed.


(** ** Repeats of a character class, read to the end *)

Lemma rep_more_reads ok g : forall u fuel p tl cs,
  (List.length u <= fuel)%nat -> forallb ok u = true ->
  In (MState (p + List.length u) tl cs)
     (rep_more (step_if ok) g fuel (MState p (u ++ tl) cs)).
Proof.
  induction u as [|c t IH]; intros fuel p tl cs Hf Hu.
  - cbn [List.length app]. rewrite Nat.add_0_r.
    destruct fuel; cbn [rep_more]; [now left|].
    destruct g; [apply in_or_app; right|]; now left.
  - destruct fuel as [|f]; [simpl in Hf; lia|].
    cbn [forallb] in Hu. apply andb_true_iff in Hu as [Hc Ht].
    assert (Hmore : In (MState (p + List.length (c :: t)) tl cs)
      (flat_map (fun st' => if (p <? pos st')%nat
                            then rep_more (step_if ok) g f st' else [])
                (step_if ok (MState p ((c :: t) ++ tl) cs)))).
    { unfold step_if. cbn [rest app pos caps]. rewrite Hc. cbn [flat_map pos].
      replace (p <? S p)%nat with true by (symmetry; apply Nat.ltb_lt; lia).
      rewrite app_nil_r. cbn [List.length]. rewrite Nat.add_succ_r.
      apply (IH f (S p) tl cs); [simpl in Hf; lia|exact Ht]. }
    cbn [rep_more pos]. destruct g; [apply in_or_app; left|right]; exact Hmore.
Qed.

Lemma rep_min_reads ok : forall u p tl cs,
  forallb ok u = true ->
  In (MState (p + List.length u) tl cs)
     (rep_min (step_if ok) (List.length u) (MState p (u ++ tl) cs)).
Proof.
  induction u as [|c t IH]; intros p tl cs Hu.
  - cbn. rewrite Nat.add_0_r. now left.
  - cbn [forallb] in Hu. apply andb_true_iff in Hu as [Hc Ht].
    cbn [List.length rep_min]. unfold step_if at 2. cbn [rest app pos caps].
    rewrite Hc. cbn [flat_map]. rewrite app_nil_r, Nat.add_succ_r.
    exact (IH (S p) tl cs Ht).
Qed.

(** A repeated class can read any run of its characters that is long
    enough. *)
Lemma run_rep_cls_reads fl g lo neg items u p tl cs :
  forallb (cls_matches fl neg items) u = true -> (lo <= List.length u)%nat ->
  In (MState (p + List.length u) tl cs)
     (run fl (Rep g lo (Cls neg items)) (MState p (u ++ tl) cs)).
Proof.
  intros Hu Hlo. cbn [run rest].
  change (run fl (Cls neg items)) with (step_if (cls_matches fl neg items)).
  rewrite <- (firstn_skipn lo u) in Hu |- *.
  set (u1 := firstn lo u) in *. set (u2 := skipn lo u) in *.
  rewrite forallb_app in Hu. apply andb_true_iff in Hu as [H1 H2].
  assert (L1 : List.length u1 = lo) by (apply firstn_length_le, Hlo).
  apply in_flat_map. exists (MState (p + lo) (u2 ++ tl) cs). split.
  - rewrite <- app_assoc, <- L1. now apply rep_min_reads.
  - rewrite length_app, L1, Nat.add_assoc.
    apply rep_more_reads; [|exact H2].
    rewrite <- app_assoc, !length_app. lia.
Qed.

Lemma numeric_punct_cls c :
  cls_matches no_flags false
    [CRange "0" "9"; CSpace; CChar "-"; CChar "."] c = numeric_punct c.
Proof.
  unfold cls_matches, numeric_punct. cbn. now rewrite orb_false_r, !orb_assoc.
Qed.

Lemma filter_true {A} (l : list A) : filter (fun _ => true) l = l.
Proof. induction l as [|a t IH]; [reflexivity|]. simpl. now rewrite IH. Qed.

(** [^[0-9\s\-\.]+$] matches the texts that are not empty and hold nothing
    but such characters. *)
Lemma numeric_only_spec n :
  match_ no_flags numeric_only n <> None
  <-> n <> [] /\ forallb numeric_punct n = true.
Proof.
  unfold match_, match_here. rewrite filter_true.
  set (C := [CRange "0" "9"; CSpace; CChar "-"; CChar "."]).
  set (st0 := MState 0 n []).
  assert (Hrun : forall st',
    In st' (run no_flags numeric_only st0) <->
    exists s1, In s1 (run no_flags (plus (Cls false C)) st0)
               /\ In st' (run no_flags Eol s1)).
  { intros st'. unfold numeric_only. cbn [run]. cbn [pos st0 Nat.eqb flat_map].
    rewrite app_nil_r. apply in_flat_map. }
  split.
  - intros H.
    assert (Hex : exists st', In st' (run no_flags numeric_only st0)).
    { destruct (run no_flags numeric_only st0) as [|st' l]; [congruence|].
      exists st'. now left. }
    destruct Hex as (st' & Hin).
    apply Hrun in Hin as (s1 & H1 & H2).
    destruct (run_sound _ _ _ _ H1) as (u & [Hu1 Hu2] & Lu).
    apply lang_rep_cls in Lu as [Hc Hl]. cbn [rest st0] in Hu1.
    assert (Hu : forallb numeric_punct u = true).
    { rewrite <- Hc. apply forallb_same. intros c. now rewrite numeric_punct_cls. }
    split.
    + rewrite Hu1. destruct u; [simpl in Hl; lia|discriminate].
    + rewrite Hu1, forallb_app, Hu. cbn [run] in H2.
      destruct (rest s1) as [|c [|c' t]]; [reflexivity| |destruct H2].
      destruct (Ascii.eqb c "010") eqn:Ec; [|destruct H2].
      apply Ascii.eqb_eq in Ec. rewrite Ec. reflexivity.
  - intros [Hn Hf].
    assert (Hin : In (MState (0 + List.length n) [] [])
                     (run no_flags numeric_only st0)).
    { apply Hrun. exists (MState (0 + List.length n) [] []). split.
      - unfold st0. rewrite <- (app_nil_r n) at 2.
        apply run_rep_cls_reads.
        + rewrite <- Hf. apply forallb_same. intros c. apply numeric_punct_cls.
        + destruct n; [congruence|simpl; lia].
      - cbn. now left. }
    destruct (run no_flags numeric_only st0); [destruct Hin|discriminate].
Qed.

(** The test on a cleaned name: more than 3 characters, and not numbers and
    punctuation only. *)
Lemma valid_name_spec n :
  valid_name n = true
  <-> (3 < List.length n)%nat /\ forallb numeric_punct n = false.
Proof.
  unfold valid_name. rewrite andb_true_iff, Nat.ltb_lt, negb_true_iff.
  pose proof (numeric_only_spec n) as H.
  destruct (match_ no_flags numeric_only n) as [m|].
  - split; [intros [_ E]; discriminate|]. intros [Hl Hf].
    assert (Some m <> None) as Hm by discriminate.
    apply H in Hm as [_ Hm]. congruence.
  - split; [|tauto]. intros [Hl _]. split; [exact Hl|].
    destruct (forallb numeric_punct n) eqn:E; [|reflexivity].
    exfalso. apply (proj2 H); [|reflexivity].
    split; [|reflexivity]. intros ->. simpl in Hl. lia.
Qed.

(** The loop over the name patterns keeps the first name that passes. *)
Lemma name_loop_first ft dflt : forall ps n,
  name_loop ps ft dflt = Ok n ->
  (exists i p,
     nth_error ps i = Some p /\ candidate p ft = Some n /\ valid_name n = true
     /\ forall j q, (j < i)%nat -> nth_error ps j = Some q ->
                    gives_name q ft = false)
  \/ (n = dflt /\ forall q, In q ps -> gives_name q ft = false).
Proof.
  induction ps as [|p ps IH]; intros n H.
  - simpl in H. injection H as <-. right. split; [reflexivity|intros q []].
  - cbn [name_loop] in H.
    assert (Hskip : gives_name p ft = false -> name_loop ps ft dflt = Ok n ->
      (exists i p0,
         nth_error (p :: ps) i = Some p0 /\ candidate p0 ft = Some n
         /\ valid_name n = true
         /\ forall j q, (j < i)%nat -> nth_error (p :: ps) j = Some q ->
                        gives_name q ft = false)
      \/ (n = dflt /\ forall q, In q (p :: ps) -> gives_name q ft = false)).
    { intros Hp Hl. destruct (IH _ Hl) as [(i & p0 & Hi & Hc & Hv & Hb)|[-> Hall]].
      - left. exists (S i), p0. split; [exact Hi|]. split; [exact Hc|].
        split; [exact Hv|]. intros [|j] q Hj Hq.
        + injection Hq as <-. exact Hp.
        + apply (Hb j q); [lia|exact Hq].
      - right. split; [reflexivity|]. intros q [<-|Hq]; auto. }
    unfold gives_name, candidate in Hskip |- *.
    destruct (search no_flags p ft) as [m|] eqn:Es; [|now apply Hskip].
    destruct (group 1 m) as [g|] eqn:Eg; [|discriminate].
    cbn [option_map] in Hskip.
    destruct (valid_name (clean_name g)) eqn:Ev; [|now apply Hskip].
    injection H as <-. left. exists 0%nat, p. cbn [nth_error].
    rewrite Es, Eg. cbn [option_map].
    split; [reflexivity|]. split; [reflexivity|]. split; [exact Ev|].
    intros j q Hj. lia.
Qed.


(** ** Successive matches of a pattern that begins with a literal word *)

Lemma skipn_past {A} (a b : list A) n :
  skipn (List.length a + n) (a ++ b) = skipn n b.
Proof. induction a as [|x t IH]; [reflexivity|exact IH]. Qed.

Section LiteralFirst.
Variables (fl : flags) (w : text) (r : regex).
Hypothesis w_not_empty : w <> [].

Lemma search_from_no_word : forall s ma p,
  occurs (ignorecase fl) w s = false ->
  search_from fl (lit_chars w ;; r) ma p s = None.
Proof.
  induction s as [|c t IH]; intros ma p H; cbn [occurs] in H;
    apply orb_false_iff in H as [Hs Ht]; cbn [search_from];
    unfold match_here; rewrite run_lit_seq; cbn [rest]; rewrite Hs;
    cbn [filter]; [reflexivity|now apply IH].
Qed.

Lemma finditer_no_word s :
  occurs (ignorecase fl) w s = false ->
  finditer fl (lit_chars w ;; r) s = [].
Proof.
  intros H. unfold finditer.
  replace (2 * List.length s + 2)%nat with (S (2 * List.length s + 1)) by lia.
  cbn [finditer_from]. now rewrite search_from_no_word.
Qed.

(** A match of the pattern starts where the word stands, and is not
    empty. *)
Lemma match_at_word p suf st' :
  In st' (run fl (lit_chars w ;; r) (MState p suf [])) ->
  starts_with (ignorecase fl) w suf = true
  /\ exists v, suf = v ++ rest st' /\ pos st' = (p + List.length v)%nat
               /\ (0 < List.length v)%nat.
Proof.
  intros Hin. pose proof Hin as Hin'. rewrite run_lit_seq in Hin'.
  cbn [rest pos caps] in Hin'.
  destruct (starts_with (ignorecase fl) w suf) eqn:E; [|destruct Hin'].
  destruct (run_sound _ _ _ _ Hin') as (u & [Hu1 Hu2] & _).
  destruct (run_sound _ _ _ _ Hin) as (v & [Hv1 Hv2] & _).
  cbn [rest pos] in *.
  assert (0 < List.length w)%nat by (destruct w; [congruence|simpl; lia]).
  split; [reflexivity|]. exists v. split; [exact Hv1|]. split; [exact Hv2|lia].
Qed.

(** The matches [finditer] yields stand at occurrences of the word, one
    after the other in the text. *)
Lemma finditer_from_ordered : forall fuel ma p s,
  let ms := finditer_from fl (lit_chars w ;; r) fuel ma p s in
  Forall (fun m => (p <= m_start m)%nat
                   /\ starts_with (ignorecase fl) w (skipn (m_start m - p) s) = true)
         ms
  /\ StronglySorted (fun a b => (m_start a < m_start b)%nat) ms.
Proof.
  induction fuel as [|f IH]; intros ma p s; cbn [finditer_from].
  - split; constructor.
  - destruct (search_from fl (lit_chars w ;; r) ma p s) as [[m s']|] eqn:E;
      [|split; constructor].
    destruct (search_from_found _ _ _ _ _ _ _ E)
      as (pre & suf & st' & Hs & Hst & Hin & Hend & _ & Hs').
    destruct (match_at_word _ _ _ Hin) as (Hw & x & Hsuf & Hpos & Lx).
    destruct (IH (m_end m =? m_start m)%nat (m_end m) s') as [Hall Hsorted].
    assert (Hskip : forall k, skipn k s' = skipn (m_end m - p + k) s).
    { intros k. rewrite Hs, Hs', Hsuf.
      replace (m_end m - p + k)%nat
        with (List.length pre + (List.length x + k))%nat by lia.
      now rewrite !skipn_past. }
    split.
    + constructor.
      * split; [lia|]. rewrite Hst, Hs.
        replace (p + List.length pre - p)%nat with (List.length pre) by lia.
        now rewrite skipn_app, skipn_all, Nat.sub_diag.
      * eapply Forall_impl; [|exact Hall]. intros m' [Hle Hm']. split; [lia|].
        rewrite Hskip in Hm'.
        replace (m_start m' - p)%nat with (m_end m - p + (m_start m' - m_end m))%nat
          by lia.
        exact Hm'.
    + constructor; [exact Hsorted|].
      eapply Forall_impl; [|exact Hall]. intros m' [Hle _]. lia.
Qed.

Lemma finditer_ordered s :
  let ms := finditer fl (lit_chars w ;; r) s in
  Forall (fun m => starts_with (ignorecase fl) w (skipn (m_start m) s) = true) ms
  /\ StronglySorted (fun a b => (m_start a < m_start b)%nat) ms.
Proof.
  destruct (finditer_from_ordered (2 * List.length s + 2) false 0 s) as [H1 H2].
  split; [|exact H2].
  eapply Forall_impl; [|exact H1]. intros m [_ H]. now rewrite Nat.sub_0_r in H.
Qed.
End LiteralFirst.


(** ** The blocks of the segmenter *)

Lemma split_prefix c pre x :
  contains_char c pre = false ->
  exists h r, split c x = h :: r /\ split c (pre ++ x) = (pre ++ h) :: r.
Proof.
  intros Hp. pose proof (split_not_nil c x) as Hx.
  destruct (split c x) as [|h r] eqn:E; [congruence|]. exists h, r.
  split; [reflexivity|].
  induction pre as [|a t IH]; [exact E|].
  cbn [contains_char existsb] in Hp. apply orb_false_iff in Hp as [Ha Ht].
  cbn [app split]. rewrite Ascii.eqb_sym, Ha.
  fold (contains_char c t) in Ht. now rewrite (IH Ht).
Qed.

Lemma drop_while_app_keep p x y :
  match y with c :: _ => p c = false | [] => False end ->
  drop_while p (x ++ y) = drop_while p x ++ y.
Proof.
  intros Hy. induction x as [|a t IH]; cbn [app drop_while].
  - destruct y as [|c y']; [destruct Hy|]. cbn. now rewrite Hy.
  - destruct (p a); [exact IH|reflexivity].
Qed.

(** [strip] leaves alone a beginning that neither starts nor ends with
    whitespace. *)
Lemma strip_keeps_prefix a b :
  match a with c :: _ => is_space c = false | [] => False end ->
  match rev a with c :: _ => is_space c = false | [] => False end ->
  strip (a ++ b) = a ++ rev (drop_while is_space (rev b)).
Proof.
  intros H1 H2. unfold strip.
  destruct a as [|c t]; [destruct H1|].
  cbn [app drop_while]. rewrite H1.
  change (c :: t ++ b) with ((c :: t) ++ b).
  rewrite rev_app_distr, (drop_while_app_keep _ _ _ H2), rev_app_distr.
  now rewrite rev_involutive.
Qed.

Lemma join_starts sep a l w :
  starts_with false w a = true -> starts_with false w (join sep (a :: l)) = true.
Proof.
  intros H. destruct l; cbn [join]; [exact H|now apply starts_with_app_l].
Qed.

(** Every match makes a block, and the block begins with the anchor. *)
Lemma block_of_match_anchor m :
  exists blk, block_of_match m = Some blk
              /\ starts_with false (str "Offer Date:") blk = true.
Proof.
  unfold block_of_match.
  set (x := group_text 1 m ++ group_text 2 m).
  change (str "Offer Date: " ++ x) with (str "Offer Date:" ++ " "%char :: x).
  destruct (split_prefix "010" (str "Offer Date:") (" "%char :: x) eq_refl)
    as (h & r & _ & ->).
  cbn [map]. rewrite (strip_keeps_prefix (str "Offer Date:") h eq_refl eq_refl).
  set (y := rev (drop_while is_space (rev h))).
  set (A := str "Offer Date:").
  assert (HA : starts_with false A (A ++ y) = true)
    by apply starts_with_app_l, starts_with_refl.
  cbn [filter]. rewrite length_app.
  change (List.length A) with 11%nat. cbn [Nat.add Nat.eqb negb firstn List.length Nat.leb].
  eexists. split; [reflexivity|]. now apply join_starts.
Qed.

Lemma keep_some_all {A} (l : list (option A)) :
  Forall (fun o => o <> None) l -> map Some (keep_some l) = l.
Proof.
  induction 1 as [|[a|] t Ha _ IH]; [reflexivity| |congruence].
  cbn. now rewrite IH.
Qed.


(** ** Floats that are exact *)

Lemma Qred_int n : Qred (n # 1) = n # 1.
Proof. apply Qcanon.Qred_identity. apply Z.gcd_1_r. Qed.

Lemma Qred_half n :
  Qred (n # 2) = if Z.even n then (n / 2) # 1 else n # 2.
Proof.
  destruct (Z.even n) eqn:E.
  - rewrite <- Qred_int. apply Qred_complete.
    apply Z.even_spec in E as [k ->]. unfold Qeq. cbn [Qnum Qden].
    rewrite (Z.mul_comm 2 k), Z.div_mul by lia. lia.
  - apply Qcanon.Qred_identity. cbn [Qnum Qden].
    pose proof (Z.gcd_nonneg n 2) as Hn.
    pose proof (Z.gcd_divide_l n 2) as Hl.
    pose proof (Z.gcd_divide_r n 2) as Hr.
    assert (Hle : Z.gcd n 2 <= 2) by (apply Z.divide_pos_le; [lia|exact Hr]).
    assert (Hne : Z.gcd n 2 <> 0).
    { intros H0. rewrite H0 in Hr. destruct Hr as [x Hx]. lia. }
    assert (Hne2 : Z.gcd n 2 <> 2).
    { intros H2. rewrite H2 in Hl. destruct Hl as [x Hx].
      assert (Z.even n = true) by (apply Z.even_spec; exists x; lia). congruence. }
    lia.
Qed.

Lemma round_half_even_exact n d : 0 < d -> (d | n) -> round_half_even n d = n / d.
Proof.
  intros Hd [k ->]. unfold round_half_even.
  rewrite Z.mod_mul by lia. rewrite Z.mul_0_r.
  destruct (0 ?= d) eqn:E; [apply Z.compare_eq in E; lia|reflexivity|].
  apply Z.compare_gt_iff in E. lia.
Qed.

(** The binade of a small integer or half-integer. *)
Lemma binade_small n d :
  (d = 1 \/ d = 2) -> 0 < n ->
  binade n d = Z.log2 n - Z.log2 d.
Proof.
  intros Hd Hn0. unfold binade.
  pose proof (Z.log2_spec n Hn0) as [Hlo Hhi].
  pose proof (Z.log2_nonneg n) as HL0.
  set (L := Z.log2 n) in *.
  destruct Hd as [-> | ->].
  - change (Z.log2 1) with 0. rewrite Z.sub_0_r.
    replace (0 <=? L) with true by (symmetry; apply Z.leb_le; lia).
    replace (n <? 1 * 2 ^ L) with false by (symmetry; apply Z.ltb_ge; lia).
    reflexivity.
  - change (Z.log2 2) with 1.
    destruct (Z.leb_spec 0 (L - 1)) as [H|H].
    + replace (n <? 2 * 2 ^ (L - 1)) with false; [reflexivity|].
      symmetry. apply Z.ltb_ge.
      replace (2 * 2 ^ (L - 1)) with (2 ^ L); [lia|].
      replace L with (Z.succ (L - 1)) at 1 by lia. rewrite Z.pow_succ_r; lia.
    + assert (L = 0) by lia. replace (L - 1) with (-1) by lia.
      change (2 ^ (- -1)) with 2.
      replace (n * 2 <? 2) with false; [reflexivity|].
      symmetry. apply Z.ltb_ge. lia.
Qed.

Lemma dyadic_neg_exact n d j :
  0 < d -> 1 <= j -> (d | n * 2 ^ j) ->
  Qred (dyadic (round_half_even (n * 2 ^ j) d) (- j)) = Qred (n # Z.to_pos d).
Proof.
  intros Hd Hj Hdiv. unfold dyadic.
  replace (0 <=? - j) with false by (symmetry; apply Z.leb_gt; lia).
  rewrite Z.opp_involutive.
  rewrite round_half_even_exact; [|lia|exact Hdiv].
  apply Qred_complete. unfold Qeq. cbn [Qnum Qden].
  rewrite (Z2Pos.id d) by lia.
  rewrite (Z2Pos.id (2 ^ j)) by (apply Z.pow_pos_nonneg; lia).
  destruct Hdiv as [x Hx]. rewrite Hx, Z.div_mul by lia. lia.
Qed.

Lemma fround_small n d :
  (d = 1 \/ d = 2)%positive -> 0 < n < 2 ^ 53 ->
  fround (n # d) = Fin (Qred (n # d)).
Proof.
  intros Hd [Hn0 Hn]. unfold fround. cbn [Qnum Qden].
  replace (n =? 0) with false by (symmetry; apply Z.eqb_neq; lia).
  replace (n <? 0) with false by (symmetry; apply Z.ltb_ge; lia).
  rewrite (Z.abs_eq n) by lia.
  assert (Hd' : Z.pos d = 1 \/ Z.pos d = 2) by (destruct Hd as [-> | ->]; auto).
  rewrite (binade_small n (Z.pos d) Hd' Hn0).
  pose proof (Z.log2_nonneg n) as HL0.
  assert (HL : Z.log2 n <= 52).
  { assert (Z.log2 n < 53) by (apply Z.log2_lt_pow2; lia). lia. }
  set (L := Z.log2 n) in *.
  assert (Hbig : (2 ^ 1024 <=? n) = false).
  { apply Z.leb_gt. apply Z.lt_trans with (2 ^ 53); [exact Hn|].
    apply Z.pow_lt_mono_r; lia. }
  destruct Hd as [-> | ->].
  - change (Z.log2 1) with 0. rewrite Z.sub_0_r.
    replace (Z.max (L - 52) (-1074)) with (L - 52) by lia.
    destruct (Z.eq_dec L 52) as [E|E].
    + rewrite E. change (52 - 52) with 0. unfold scaled_round, dyadic.
      change (0 <=? 0) with true. rewrite Z.pow_0_r, !Z.mul_1_r.
      rewrite round_half_even_exact; [|lia|exists n; lia].
      rewrite Z.div_1_r, Hbig. reflexivity.
    + replace (0 <=? L - 52) with false by (symmetry; apply Z.leb_gt; lia).
      cbn [andb]. unfold scaled_round.
      replace (0 <=? L - 52) with false by (symmetry; apply Z.leb_gt; lia).
      f_equal. replace (L - 52) with (- (52 - L)) by lia.
      rewrite Z.opp_involutive.
      apply (dyadic_neg_exact n 1 (52 - L)); [lia|lia|].
      exists (n * 2 ^ (52 - L)). lia.
  - change (Z.log2 2) with 1.
    replace (Z.max (L - 1 - 52) (-1074)) with (L - 1 - 52) by lia.
    replace (0 <=? L - 1 - 52) with false by (symmetry; apply Z.leb_gt; lia).
    cbn [andb]. unfold scaled_round.
    replace (0 <=? L - 1 - 52) with false by (symmetry; apply Z.leb_gt; lia).
    f_equal. replace (L - 1 - 52) with (- (53 - L)) by lia.
    rewrite Z.opp_involutive.
    apply (dyadic_neg_exact n 2 (53 - L)); [lia|lia|].
    exists (n * 2 ^ (52 - L)).
    replace (53 - L) with (Z.succ (52 - L)) by lia. rewrite Z.pow_succ_r by lia. lia.
Qed.

(** [int(avg_price * lot_size)] when nothing is rounded on the way: the
    product fits the 53 bits of a float. *)
Lemma investment_exact s lot :
  2 <= s -> 1 <= lot -> s * lot < 2 ^ 53 ->
  (let* avg_price := int_truediv s 2 in
   let* lot_f := float_of_int lot in
   int_of_float (fmul avg_price lot_f)) = Ok (s * lot / 2).
Proof.
  intros Hs Hl Hb.
  assert (Hs53 : s < 2 ^ 53) by nia.
  assert (Hl53 : lot < 2 ^ 53) by nia.
  unfold int_truediv, float_of_int, inject_Z.
  cbn [Z.eqb Z.sgn Z.abs Z.to_pos]. rewrite Z.mul_1_r.
  rewrite (fround_small s 2), (fround_small lot 1) by (auto; lia).
  rewrite Qred_int, Qred_half. cbn [bind fmul].
  destruct (Z.even s) eqn:Es.
  - apply Z.even_spec in Es as [t ->].
    rewrite (Z.mul_comm 2 t), Z.div_mul by lia.
    unfold Qmult. cbn [Qnum Qden Pos.mul].
    rewrite fround_small by (auto; nia). rewrite Qred_int.
    cbn [int_of_float Qnum Qden]. rewrite Z.quot_1_r. f_equal.
    replace (t * 2 * lot) with (t * lot * 2) by lia. now rewrite Z.div_mul by lia.
  - unfold Qmult. cbn [Qnum Qden Pos.mul].
    rewrite fround_small by (auto; lia). rewrite Qred_half.
    destruct (Z.even (s * lot)); cbn [int_of_float Qnum Qden].
    + now rewrite Z.quot_1_r.
    + f_equal. apply Z.quot_div_nonneg; lia.
Qed.

Lemma compute_investment_exact d pmin pmax lot :
  offer_price_min d = Some pmin -> offer_price_max d = Some pmax ->
  lot_size d = Some lot -> 1 <= pmin -> 0 <= pmax -> 1 <= lot ->
  (pmin + (if pmax =? 0 then pmin else pmax)) * lot < 2 ^ 53 ->
  compute_investment d
  = Ok ((pmin + (if pmax =? 0 then pmin else pmax)) * lot / 2).
Proof.
  intros H1 H2 H3 Hmin Hmax Hlot Hb. unfold compute_investment.
  rewrite H1, H2, H3. cbn [truthy].
  destruct (pmax =? 0) eqn:E; cbn [negb].
  - apply investment_exact; lia.
  - apply Z.eqb_neq in E. apply investment_exact; lia.
Qed.

(** * The claims *)

(** C1.  A segment without a readable "Offer Price" value or without a
    readable "Lot Size" value gives no record, whatever else it holds: so
    when the value cannot be read, and so when the words do not even occur.
    A record is returned only with both [offer_price_min] and [lot_size]
    present, and no record of the output lacks either. *)
Theorem C1_no_price_or_no_lot_no_record :
  (forall block,
     offer_price_value (strip block) = None
     \/ lot_size_value (strip block) = None
     \/ occurs false (str "Offer Price") block = false
     \/ occurs false (str "Lot Size") block = false ->
     (forall d, parse_single_ipo_block block <> Ok (Some d))
     /\ process_block block = None)
  /\ (forall block d,
        parse_single_ipo_block block = Ok (Some d) ->
        offer_price_min d <> None /\ lot_size d <> None)
  /\ (forall page d,
        In d (parse_page_text page) ->
        offer_price_min d <> None /\ lot_size d <> None).
Proof.
  assert (Hacc : forall block d,
            parse_single_ipo_block block = Ok (Some d) ->
            offer_price_min d <> None /\ lot_size d <> None).
  { intros block d H.
    destruct (accepted_fields _ _ H) as (pmin & pmax & lot & -> & _ & -> & _).
    split; discriminate. }
  split; [|split; [exact Hacc|]].
  - intros block H.
    assert (Hno : forall d, parse_single_ipo_block block <> Ok (Some d)).
    { intros d Hd. pose proof (Hacc _ _ Hd) as [Hp Hl].
      apply accepted_inv in Hd as (Hf & _).
      apply parse_fields_inv in Hf as (_ & _ & Hprice & Hlot & _).
      assert (Hv : offer_price_value (strip block) = None
                   \/ lot_size_value (strip block) = None).
      { destruct H as [H|[H|[H|H]]]; auto.
        - left. now apply no_offer_price_no_value.
        - right. now apply no_lot_size_no_value. }
      destruct Hv as [Hv|Hv].
      - apply offer_price_value_none in Hv. rewrite Hv in Hprice.
        injection Hprice as E _. congruence.
      - apply (lot_size_value_none _ _ Hv) in Hlot. congruence. }
    split; [exact Hno|].
    unfold process_block.
    destruct (parse_single_ipo_block block) as [[d|]|] eqn:E; try reflexivity.
    exfalso. exact (Hno d eq_refl).
  - intros page d H.
    apply parse_page_text_inv in H as (b & _ & H).
    apply process_block_inv in H as (d0 & v & Hd0 & _ & _ & Hmin & _ & Hlot & _).
    rewrite Hmin, Hlot. exact (Hacc _ _ Hd0).
Qed.

(** A block with a lot size, a subscription and a premium, but no price. *)
Lemma C1_witness :
  occurs false (str "Offer Price")
    (str "Lot Size100No of Apps: 4624 | 13.39 timesExp. Premium24-25 (32%)") = false
  /\ process_block
       (str "Lot Size100No of Apps: 4624 | 13.39 timesExp. Premium24-25 (32%)") = None.
Proof.
  split; [reflexivity|].
  apply (proj1 C1_no_price_or_no_lot_no_record
           (str "Lot Size100No of Apps: 4624 | 13.39 timesExp. Premium24-25 (32%)")).
  right. right. left. reflexivity.
Defined.

(** C10.  In every accepted record [offer_price_max] is present along with
    [offer_price_min] (the two are stored together or not at all), and
    [offer_price_min] and [lot_size] are 1 at least: the final test is on
    truth values, so a price minimum or a lot size that reads as zero makes
    the segment a rejected one although both patterns matched. *)
Theorem C10_accepted_min_and_lot_at_least_one :
  (forall block d,
     parse_single_ipo_block block = Ok (Some d) ->
     exists pmin pmax lot,
       offer_price_min d = Some pmin /\ offer_price_max d = Some pmax
       /\ lot_size d = Some lot /\ 1 <= pmin /\ 1 <= lot)
  /\ (forall block d,
        parse_fields block = Ok d ->
        (offer_price_min d = None <-> offer_price_max d = None))
  /\ (search no_flags offer_price_re (str "Offer Price0Lot Size100") <> None
      /\ search no_flags lot_size_re (str "Offer Price0Lot Size100") <> None
      /\ parse_single_ipo_block (str "Offer Price0Lot Size100") = Ok None)
  /\ (search no_flags offer_price_re (str "Offer Price160-170Lot Size0") <> None
      /\ search no_flags lot_size_re (str "Offer Price160-170Lot Size0") <> None
      /\ parse_single_ipo_block (str "Offer Price160-170Lot Size0") = Ok None).
Proof.
  split; [|split; [|split]].
  - intros block d H.
    destruct (accepted_fields _ _ H) as (pmin & pmax & lot & H1 & H2 & H3 & H4 & _ & H5).
    exists pmin, pmax, lot. auto.
  - intros block d H.
    apply parse_fields_inv in H as (_ & _ & Hprice & _).
    destruct (block_price_cases (strip block))
      as [E|(m & g & a & b & _ & _ & _ & _ & _ & E)];
      rewrite E in Hprice; injection Hprice as <- <-; split; auto; discriminate.
  - vm_compute. repeat split; discriminate.
  - vm_compute. repeat split; discriminate.
Qed.

Lemma C10_witness :
  exists pmin pmax lot,
    offer_price_min sample_record = Some pmin
    /\ offer_price_max sample_record = Some pmax
    /\ lot_size sample_record = Some lot /\ 1 <= pmin /\ 1 <= lot.
Proof.
  apply (proj1 C10_accepted_min_and_lot_at_least_one sample_block sample_record).
  vm_compute. reflexivity.
Defined.



(** C7.  On "No of Apps: 4624 | 13.39 times" the subscription is the float
    13.39.  The list of patterns is tried in order and the first that finds
    a number decides; here it is the bare pattern, and what it finds is the
    number after the bar, at position 19, not the count of applications.
    The compound pattern would find the same number. *)
Theorem C7_subscription_of_compound_text :
  sub_loop sub_patterns (str "No of Apps: 4624 | 13.39 times")
  = Ok (Some (fround (1339 # 100)))
  /\ (exists d, parse_fields (str "No of Apps: 4624 | 13.39 times") = Ok d
                /\ subscription_times d = Some (fround (1339 # 100)))
  /\ sub_patterns = [sub_pattern_simple; sub_pattern_complex]
  /\ (forall ft m g v,
        search IGNORECASE sub_pattern_simple ft = Some m ->
        group 1 m = Some g -> py_float g = Some v ->
        sub_loop sub_patterns ft = Ok (Some v))
  /\ (exists m, search IGNORECASE sub_pattern_simple
                  (str "No of Apps: 4624 | 13.39 times") = Some m
                /\ m_start m = 19%nat /\ group 1 m = Some (str "13.39"))
  /\ (exists m, search IGNORECASE sub_pattern_complex
                  (str "No of Apps: 4624 | 13.39 times") = Some m
                /\ group 1 m = Some (str "13.39"))
  /\ py_float (str "4624") <> Some (fround (1339 # 100))
  /\ extract_subscription (str "No of Apps: 4624 | 13.39 times")
     = Some (fround (1339 # 100)).
Proof.
  split; [vm_compute; reflexivity|].
  split; [eexists; split; [vm_compute; reflexivity|vm_compute; reflexivity]|].
  split; [reflexivity|].
  split; [exact sub_loop_first|].
  split; [eexists; split; [vm_compute; reflexivity|split; reflexivity]|].
  split; [eexists; split; [vm_compute; reflexivity|reflexivity]|].
  split; [vm_compute; discriminate|].
  vm_compute; reflexivity.
Qed.

Lemma C7_witness :
  sub_loop sub_patterns (str "Subscription2.91 times") = Ok (Some (fround (291 # 100))).
Proof.
  apply (proj1 (proj2 (proj2 (proj2 C7_subscription_of_compound_text)))
           (str "Subscription2.91 times")
           (RMatch 12 22 [(1%nat, str "2.91")]) (str "2.91")).
  - vm_compute. reflexivity.
  - reflexivity.
  - vm_compute. reflexivity.
Defined.

(** C4.  Price extraction: "160-170" gives (160, 170) and "54" gives
    (54, 54).  For every text the two fields come both or not at all; when
    they come, the text, once cleaned of what is neither digit, dash nor
    whitespace, is one integer (read for both fields) or two integers with
    a dash between (read in that order); any other text gives neither.  In
    a parsed block [offer_price_min] is absent exactly when
    [offer_price_max] is. *)
Theorem C4_price_both_or_neither :
  extract_price (str "160-170") = (Some 160, Some 170)
  /\ extract_price (str "54") = (Some 54, Some 54)
  /\ (forall t, extract_price t = (None, None)
                \/ exists a b, extract_price t = (Some a, Some b))
  /\ (forall t a b,
        extract_price t = (Some a, Some b) ->
        (contains_char "-" (clean_price_text t) = false
         /\ int_text (clean_price_text t) a /\ b = a)
        \/ (exists p q, clean_price_text t = p ++ "-"%char :: q
                        /\ contains_char "-" p = false
                        /\ contains_char "-" q = false
                        /\ int_text p a /\ int_text q b))
  /\ (forall block d,
        parse_fields block = Ok d ->
        (offer_price_min d = None <-> offer_price_max d = None))
  /\ extract_price (str "1-2-3") = (None, None)
  /\ extract_price (str "-5") = (None, None)
  /\ extract_price (str "12 34") = (None, None)
  /\ extract_price (str "n/a") = (None, None).
Proof.
  split; [vm_compute; reflexivity|].
  split; [vm_compute; reflexivity|].
  split; [exact extract_price_both|].
  split; [exact extract_price_reads|].
  split.
  { intros block d H.
    apply parse_fields_inv in H as (_ & _ & Hprice & _).
    destruct (block_price_cases (strip block))
      as [E|(m & g & a & b & _ & _ & _ & _ & _ & E)];
      rewrite E in Hprice; injection Hprice as <- <-; split; auto; discriminate. }
  repeat split; vm_compute; reflexivity.
Qed.

Lemma C4_witness :
  (contains_char "-" (clean_price_text (str "160-170")) = false
   /\ int_text (clean_price_text (str "160-170")) 160 /\ 170 = 160)
  \/ (exists p q, clean_price_text (str "160-170") = p ++ "-"%char :: q
                  /\ contains_char "-" p = false /\ contains_char "-" q = false
                  /\ int_text p 160 /\ int_text q 170).
Proof.
  apply (proj1 (proj2 (proj2 (proj2 C4_price_both_or_neither)))
           (str "160-170") 160 170).
  vm_compute. reflexivity.
Defined.

(** C9.  The company name: the five patterns are tried in order, and the
    name is the first candidate (group 1 of the match, whitespace runs made
    one blank, dots, dashes and whitespace taken off both ends) that is
    longer than 3 characters and not made of digits, whitespace, dashes and
    dots only; candidates that fail the test are passed over.  When no
    pattern gives such a candidate the name is "Unknown Company". *)
Theorem C9_company_name_first_valid_candidate :
  List.length name_patterns = 5%nat
  /\ (forall n, valid_name n = true
                <-> (3 < List.length n)%nat /\ forallb numeric_punct n = false)
  /\ (forall block d,
        parse_fields block = Ok d ->
        (exists i p,
           nth_error name_patterns i = Some p
           /\ candidate p (strip block) = Some (company_name d)
           /\ valid_name (company_name d) = true
           /\ forall j q, (j < i)%nat -> nth_error name_patterns j = Some q ->
                          gives_name q (strip block) = false)
        \/ (company_name d = str "Unknown Company"
            /\ forall q, In q name_patterns -> gives_name q (strip block) = false))
  /\ clean_name (str "  .-M  &   B Engineering-. ") = str "M & B Engineering"
  /\ (exists d, parse_fields (str "Offer Price54Lot Size100") = Ok d
                /\ company_name d = str "Unknown Company")
  /\ (exists d, parse_fields (str "Check AllotmentJSW Cement") = Ok d
                /\ candidate name_pattern_1 (str "Check AllotmentJSW Cement")
                   = Some (str "JSW")
                /\ candidate name_pattern_2 (str "Check AllotmentJSW Cement") = None
                /\ candidate name_pattern_3 (str "Check AllotmentJSW Cement")
                   = Some (str "Cement")
                /\ company_name d = str "Cement").
Proof.
  split; [reflexivity|]. split; [exact valid_name_spec|]. split.
  { intros block d H. apply parse_fields_inv in H as (Hn & _).
    apply name_loop_first in Hn as [(i & p & H1 & H2 & H3 & H4)|[H1 H2]].
    - left. exists i, p. auto.
    - right. auto. }
  split; [vm_compute; reflexivity|].
  split; [eexists; split; [vm_compute; reflexivity|reflexivity]|].
  eexists. split; [vm_compute; reflexivity|].
  repeat split; vm_compute; reflexivity.
Qed.

Lemma C9_witness :
  (exists i p,
     nth_error name_patterns i = Some p
     /\ candidate p (strip sample_block) = Some (company_name sample_record)
     /\ valid_name (company_name sample_record) = true
     /\ forall j q, (j < i)%nat -> nth_error name_patterns j = Some q ->
                    gives_name q (strip sample_block) = false)
  \/ (company_name sample_record = str "Unknown Company"
      /\ forall q, In q name_patterns -> gives_name q (strip sample_block) = false).
Proof.
  apply (proj1 (proj2 (proj2 C9_company_name_first_valid_candidate))
           sample_block sample_record).
  vm_compute. reflexivity.
Defined.

(** C8.  A page on which the anchor "Offer Date:" does not occur, in
    capitals or in small letters (the pattern is compiled with IGNORECASE),
    gives the empty list of blocks, and so the empty list of records.  In
    general there is one block for every match of the block pattern, in the
    order of the matches; the matches stand at occurrences of the anchor
    further and further on in the page, and every block begins with the
    anchor. *)
Theorem C8_blocks_follow_the_anchors :
  (forall page,
     occurs true (str "Offer Date:") page = false ->
     split_ipo_blocks_v2 page = [] /\ parse_page_text page = [])
  /\ (forall page,
        map block_of_match (finditer IGNORECASE_DOTALL block_re page)
        = map Some (split_ipo_blocks_v2 page)
        /\ StronglySorted (fun a b => (m_start a < m_start b)%nat)
             (finditer IGNORECASE_DOTALL block_re page)
        /\ Forall (fun m => starts_with true (str "Offer Date:")
                              (skipn (m_start m) page) = true)
             (finditer IGNORECASE_DOTALL block_re page)
        /\ Forall (fun blk => starts_with false (str "Offer Date:") blk = true)
             (split_ipo_blocks_v2 page))
  /\ split_ipo_blocks_v2 two_offer_page
     = [str "Offer Date: Aug 4, 2025 - Aug 6, 2025Offer Price160-170Lot Size100";
        str "Offer Date: Sep 1, 2025 - Sep 3, 2025Offer Price54Lot Size200"]
  /\ map m_start (finditer IGNORECASE_DOTALL block_re two_offer_page)
     = [9; 76]%nat
  /\ map investment_per_lot (parse_page_text two_offer_page)
     = [Some 16500; Some 10800].
Proof.
  split; [|split; [|split; [|split]]].
  - intros page H.
    assert (E : split_ipo_blocks_v2 page = []).
    { unfold split_ipo_blocks_v2, block_re, lit.
      rewrite finditer_no_word; [reflexivity|exact H]. }
    split; [exact E|]. unfold parse_page_text. now rewrite E.
  - intros page.
    destruct (finditer_ordered IGNORECASE_DOTALL (str "Offer Date:")
                (star space ;; Grp 1 date_range_re ;; Grp 2 (star_lazy Any)
                 ;; Ahead (Alt (lit "Offer Date:") Eol))
                ltac:(discriminate) page) as [Hanchor Hsorted].
    split; [|split; [exact Hsorted|split; [exact Hanchor|]]].
    + unfold split_ipo_blocks_v2. symmetry. apply keep_some_all.
      apply Forall_forall. intros o Ho. apply in_map_iff in Ho as (m & <- & _).
      destruct (block_of_match_anchor m) as (blk & -> & _). discriminate.
    + apply Forall_forall. intros blk Hb. unfold split_ipo_blocks_v2 in Hb.
      apply in_keep_some, in_map_iff in Hb as (m & Hm & _).
      destruct (block_of_match_anchor m) as (blk' & E & Hs).
      rewrite E in Hm. now injection Hm as <-.
  - vm_compute. reflexivity.
  - vm_compute. reflexivity.
  - vm_compute. reflexivity.
Qed.

Lemma C8_witness :
  split_ipo_blocks_v2 (str "Upcoming IPOs: none. Offer Price54Lot Size100") = []
  /\ parse_page_text (str "Upcoming IPOs: none. Offer Price54Lot Size100") = [].
Proof.
  apply (proj1 C8_blocks_follow_the_anchors
           (str "Upcoming IPOs: none. Offer Price54Lot Size100")).
  vm_compute. reflexivity.
Defined.

(** C2, as the code has it.  [investment_per_lot] is
    [int(avg_price * lot_size)]: the product of the mean price and the lot
    size with its fraction cut off, not rounded; in the mean a maximum of 0
    counts as the minimum ([max or min]).  As long as (min + max) * lot_size
    is below 2^53 no float on the way is rounded, and the field is the
    integer part of (min + max) * lot_size / 2.  For 160-170 and a lot of
    100 it is 16500; the products 1.5 and 2.5 give 1 and 2. *)
Theorem C2_investment_is_truncated :
  (forall block d,
     process_block block = Some d ->
     exists pmin pmax lot,
       offer_price_min d = Some pmin /\ offer_price_max d = Some pmax
       /\ lot_size d = Some lot
       /\ ((pmin + (if pmax =? 0 then pmin else pmax)) * lot < 2 ^ 53 ->
           investment_per_lot d
           = Some ((pmin + (if pmax =? 0 then pmin else pmax)) * lot / 2)))
  /\ (exists d, process_block (str "Offer Price160-170Lot Size100") = Some d
                /\ investment_per_lot d = Some 16500)
  /\ process_block half_block = Some half_record
  /\ (exists d, process_block (str "Offer Price2-3Lot Size1") = Some d
                /\ investment_per_lot d = Some 2)
  /\ (exists d, process_block (str "Offer Price5-0Lot Size3") = Some d
                /\ offer_price_max d = Some 0
                /\ investment_per_lot d = Some 15).
Proof.
  split; [|split; [|split; [|split]]].
  - intros block d H.
    apply process_block_inv in H
      as (d0 & v & Hd0 & Hv & _ & Hmin & Hmax & Hlot & _ & _ & _ & _ & _ & Hinv).
    destruct (accepted_fields _ _ Hd0)
      as (pmin & pmax & lot & H1 & H2 & H3 & Hp & Hm & Hl).
    exists pmin, pmax, lot.
    split; [congruence|]. split; [congruence|]. split; [congruence|].
    intros Hb. rewrite Hinv. f_equal.
    rewrite (compute_investment_exact d0 pmin pmax lot H1 H2 H3 Hp Hm Hl Hb) in Hv.
    now injection Hv.
  - eexists. split; [vm_compute; reflexivity|reflexivity].
  - vm_compute. reflexivity.
  - eexists. split; [vm_compute; reflexivity|reflexivity].
  - eexists. split; [vm_compute; reflexivity|split; reflexivity].
Qed.

Lemma C2_witness :
  exists pmin pmax lot,
    offer_price_min half_record = Some pmin
    /\ offer_price_max half_record = Some pmax
    /\ lot_size half_record = Some lot
    /\ ((pmin + (if pmax =? 0 then pmin else pmax)) * lot < 2 ^ 53 ->
        investment_per_lot half_record
        = Some ((pmin + (if pmax =? 0 then pmin else pmax)) * lot / 2)).
Proof.
  apply (proj1 C2_investment_is_truncated half_block half_record).
  vm_compute. reflexivity.
Defined.

(** C2, as the claim has it, fails: for the price range 1-2 and a lot of 1
    the product is 1.5, [round] gives 2 (as would rounding halves up), and
    the record has 1. *)
Lemma C2_counterexample :
  ~ (forall block d pmin pmax lot,
       process_block block = Some d ->
       offer_price_min d = Some pmin -> offer_price_max d = Some pmax ->
       lot_size d = Some lot ->
       investment_per_lot d
       = Some (py_round (Qmake (pmin + pmax) 2 * inject_Z lot))).
Proof.
  intros H.
  assert (E : process_block half_block = Some half_record)
    by (vm_compute; reflexivity).
  specialize (H half_block half_record 1 2 1 E eq_refl eq_refl eq_refl).
  clear E. cbv in H. discriminate.
Qed.


(** * Further properties of the scraper *)

(** ** Groups that every match sets *)

Lemma lookup_app_keeps n added l :
  lookup n l <> None -> lookup n (added ++ l) <> None.
Proof.
  intros H. induction added as [|[k v] t IH]; [exact H|].
  simpl. destruct (k =? n)%nat; [discriminate|exact IH].
Qed.

Lemma run_keeps_group fl r n st st' :
  In st' (run fl r st) -> lookup n (caps st) <> None ->
  lookup n (caps st') <> None.
Proof.
  intros Hin H. destruct (run_caps _ _ _ _ Hin) as (added & -> & _).
  now apply lookup_app_keeps.
Qed.

Lemma rep_min_keeps_group fl r n lo : forall st st',
  In st' (rep_min (run fl r) lo st) -> lookup n (caps st) <> None ->
  lookup n (caps st') <> None.
Proof.
  intros st st' Hin H.
  destruct (rep_min_caps fl r (run_caps fl r) lo _ _ Hin) as (added & -> & _).
  now apply lookup_app_keeps.
Qed.

Lemma rep_more_keeps_group fl r n g fuel : forall st st',
  In st' (rep_more (run fl r) g fuel st) -> lookup n (caps st) <> None ->
  lookup n (caps st') <> None.
Proof.
  intros st st' Hin H.
  destruct (rep_more_caps fl r (run_caps fl r) g fuel _ _ Hin) as (added & -> & _).
  now apply lookup_app_keeps.
Qed.

Lemma run_sets fl n r : forall st st',
  In st' (run fl r st) -> sets n r = true -> lookup n (caps st') <> None.
Proof.
  induction r as [| p | | neg items | r1 IH1 r2 IH2 | r1 IH1 r2 IH2
                  | g lo r1 IH1 | k r1 IH1 | r1 IH1 | |];
    cbn [run sets]; intros st st' Hin Hs; try discriminate.
  - apply in_flat_map in Hin as (s1 & H1 & H2).
    apply orb_true_iff in Hs as [Hs|Hs].
    + eapply run_keeps_group; [exact H2|]. now apply (IH1 st).
    + now apply (IH2 s1).
  - apply andb_true_iff in Hs as [Hs1 Hs2].
    apply in_app_or in Hin as [H|H]; [now apply (IH1 st)|now apply (IH2 st)].
  - apply andb_true_iff in Hs as [Hlo Hs].
    destruct lo as [|lo']; [discriminate|].
    apply in_flat_map in Hin as (s1 & H1 & H2).
    eapply rep_more_keeps_group; [exact H2|].
    cbn [rep_min] in H1. apply in_flat_map in H1 as (sa & Ha & H1).
    eapply rep_min_keeps_group; [exact H1|]. now apply (IH1 st).
  - apply in_map_iff in Hin as (s1 & <- & H1). cbn [caps lookup].
    destruct (k =? n)%nat eqn:E; [discriminate|].
    cbn [orb] in Hs. now apply (IH1 st).
Qed.

(** A group that stands on every path of the pattern is set in every match
    object. *)
Lemma search_sets fl r s m n :
  search fl r s = Some m -> sets n r = true -> group n m <> None.
Proof.
  intros H Hs.
  destruct (search_found _ _ _ _ H) as (pre & suf & st' & _ & _ & Hin & _ & Hc).
  unfold group. rewrite Hc. exact (run_sets _ _ _ _ _ Hin Hs).
Qed.

(** ** What a block can raise *)






Lemma int_truediv_2_raises a e : int_truediv a 2 = Raise e -> e = OverflowError.
Proof.
  unfold int_truediv. cbn [Z.eqb].
  destruct (fround _); [discriminate|now intros [= <-]|now intros [= <-]].
Qed.







(** ** What the fields are read from *)

(** [int] on a run of digits is its decimal value; it fails only on the
    empty run and beyond the limit of digits. *)
Lemma py_int_digits g v :
  all_digits g = true -> py_int g = Some v ->
  v = decimal_value 0 g /\ g <> []
  /\ (List.length g <= int_max_str_digits)%nat.
Proof.
  intros Hd H.
  assert (Hs : forallb digit_or_space g = true).
  { unfold all_digits in Hd. clear H. induction g as [|c t IH]; [reflexivity|].
    cbn [forallb] in *. apply andb_true_iff in Hd as [Hc Ht].
    unfold digit_or_space at 1. now rewrite Hc, IH. }
  rewrite py_int_unsigned, (strip_digits _ Hd) in H.
  - destruct (_ <? _)%nat eqn:El; [discriminate|].
    destruct (digits_value_plain _ _ _ _ Hs H) as [_ Hv].
    split; [exact Hv|]. split; [intros ->; discriminate|].
    apply Nat.ltb_ge in El. now rewrite (filter_all _ _ Hd) in El.
  - rewrite (strip_digits _ Hd). destruct g as [|c t]; [exact I|].
    cbn [all_digits forallb] in Hd. apply andb_true_iff in Hd as [Hc _].
    split; intros ->; vm_compute in Hc; discriminate.
Qed.

(** When the premium step stores an integer, it is the one number quoted
    right after "Exp. Premium", with no dash in it. *)
Lemma block_premium_single ft v pct :
  block_premium ft = Ok (Some (inl v, pct)) ->
  exists pre g post,
    ft = pre ++ str "Exp. Premium" ++ g ++ post
    /\ all_digits g = true /\ py_int g = Some v.
Proof.
  unfold block_premium.
  destruct (search no_flags exp_premium_re ft) as [m|] eqn:Es; [|discriminate].
  unfold exp_premium_re, lit in Es.
  apply search_lit_group_then in Es as (pre & u & post & Hft & Hg & Lu);
    [|cbn; intros [E|[]]; discriminate].
  rewrite Hg. apply lang_number_or_range in Lu as (d1 & Hd1 & _ & Hu).
  destruct (group 2 m) as [g2|]; [|discriminate].
  destruct (py_float g2) as [p|]; [|discriminate].
  destruct Hu as [->|(d2 & Hd2 & _ & ->)].
  - rewrite (all_digits_no_dash _ Hd1).
    destruct (py_int d1) as [w|] eqn:E1; [|discriminate].
    intros [= <- <-]. exists pre, d1, post. auto.
  - rewrite contains_char_mid, (split_range _ _ Hd1 Hd2). cbn [nth_error].
    destruct (py_int d1) as [lo|]; [|discriminate].
    destruct (py_int d2) as [hi|]; [|discriminate].
    unfold bind. destruct (int_truediv (lo + hi) 2); discriminate.
Qed.

(** ** Dates *)

Lemma make_date_calendar y m d dt :
  make_date y m d = Some dt -> calendar_date dt.
Proof.
  unfold make_date, calendar_date.
  destruct (_ && _) eqn:E; [|discriminate]. intros [= <-]. cbn [year month day].
  repeat (apply andb_true_iff in E as [E ?]).
  rewrite !Z.leb_le in *. lia.
Qed.

Lemma strptime_date_calendar t dt :
  strptime_date t = Some dt -> calendar_date dt.
Proof.
  unfold strptime_date.
  destruct (match_ IGNORECASE strptime_re t) as [m|]; [|discriminate].
  destruct (negb _); [discriminate|].
  destruct (group 1 m); [|discriminate].
  destruct (group 2 m); [|discriminate].
  destruct (group 3 m); [|discriminate].
  destruct (month_index _ _ _); [|discriminate].
  destruct (py_int _); [|discriminate]. destruct (py_int _); [|discriminate].
  apply make_date_calendar.
Qed.

(** X4.  No date the scraper stores is an impossible one: the dates of
    [extract_dates] and the two date fields of a parsed block are days of
    the calendar (month 1 to 12, day within the month, leap years counted,
    year 1 to 9999).  A text such as "Feb 30, 2025" gives no date. *)
Theorem X4_dates_are_calendar_days :
  (forall t s e,
     extract_dates t = Ok (Some s, Some e) -> calendar_date s /\ calendar_date e)
  /\ (forall block d dt,
        parse_fields block = Ok d ->
        offer_start_date d = Some dt \/ offer_end_date d = Some dt ->
        calendar_date dt).
Proof.
  assert (Hx : forall t s e, extract_dates t = Ok (s, e) ->
            (forall dt, s = Some dt -> calendar_date dt)
            /\ (forall dt, e = Some dt -> calendar_date dt)).
  { intros t s e H.
    apply extract_dates_both in H
      as [[-> ->]|(s_str & e_str & sd & ed & Hs & He & -> & ->)].
    - split; discriminate.
    - split; intros dt [= <-]; eapply strptime_date_calendar; eassumption. }
  split.
  - intros t s e H. destruct (Hx _ _ _ H) as [H1 H2]. split; auto.
  - intros block d dt H Hd.
    apply parse_fields_inv in H as (_ & Hdates & _).
    unfold block_dates in Hdates.
    destruct (search no_flags offer_date_re (strip block)) as [m|].
    + destruct (group 1 m) as [g|].
      * destruct (Hx _ _ _ Hdates) as [H1 H2]. destruct Hd; auto.
      * injection Hdates as E1 E2. destruct Hd; congruence.
    + injection Hdates as E1 E2. destruct Hd; congruence.
Qed.

Lemma X4_witness : calendar_date (Date 2025 8 4).
Proof.
  apply (proj2 X4_dates_are_calendar_days sample_block sample_record).
  - vm_compute. reflexivity.
  - left. reflexivity.
Defined.

(** ** The first match of a greedy class *)

Lemma step_if_cons ok p c t cs :
  step_if ok (MState p (c :: t) cs) = if ok c then [MState (S p) t cs] else [].
Proof. reflexivity. Qed.

Lemma step_if_nil ok p cs : step_if ok (MState p [] cs) = [].
Proof. reflexivity. Qed.

Lemma rep_more_greedy_head ok : forall ds fuel p tl cs,
  (List.length ds <= fuel)%nat -> forallb ok ds = true ->
  match tl with c :: _ => ok c = false | [] => True end ->
  exists l, rep_more (step_if ok) true fuel (MState p (ds ++ tl) cs)
            = MState (p + List.length ds) tl cs :: l.
Proof.
  induction ds as [|c t IH]; intros fuel p tl cs Hf Hd Htl.
  - cbn [app List.length]. rewrite Nat.add_0_r.
    destruct fuel as [|f]; [now exists []|].
    exists []. cbn [rep_more].
    destruct tl as [|c tl']; [now rewrite step_if_nil|].
    now rewrite step_if_cons, Htl.
  - destruct fuel as [|f]; [simpl in Hf; lia|].
    cbn [forallb] in Hd. apply andb_true_iff in Hd as [Hc Ht].
    cbn [rep_more app]. rewrite step_if_cons, Hc.
    cbn [flat_map pos].
    replace (p <? S p)%nat with true by (symmetry; apply Nat.ltb_lt; lia).
    destruct (IH f (S p) tl cs) as (l & ->); [simpl in Hf; lia|exact Ht|exact Htl|].
    cbn [List.length]. rewrite Nat.add_succ_r. cbn [app]. eexists. reflexivity.
Qed.

(** A greedy [+] over a class first reads the whole run of its characters. *)
Lemma run_plus_cls_head fl neg items ds p tl cs :
  forallb (cls_matches fl neg items) ds = true -> ds <> [] ->
  match tl with c :: _ => cls_matches fl neg items c = false | [] => True end ->
  exists l, run fl (plus (Cls neg items)) (MState p (ds ++ tl) cs)
            = MState (p + List.length ds) tl cs :: l.
Proof.
  intros Hd Hn Htl. destruct ds as [|c t]; [congruence|].
  unfold plus. cbn [run rest].
  change (run fl (Cls neg items)) with (step_if (cls_matches fl neg items)).
  cbn [forallb] in Hd. apply andb_true_iff in Hd as [Hc Ht].
  cbn [rep_min app]. rewrite step_if_cons, Hc.
  cbn [flat_map app].
  destruct (rep_more_greedy_head (cls_matches fl neg items) t
              (S (List.length (c :: t ++ tl))) (S p) tl cs) as (l & Hl).
  - cbn [List.length]. rewrite length_app. lia.
  - exact Ht.
  - exact Htl.
  - exists (l ++ []). cbn [List.length]. rewrite Nat.add_succ_r.
    change (MState (S (p + List.length t)) tl cs :: l ++ [])
      with ((MState (S p + List.length t) tl cs :: l) ++ []).
    apply (f_equal (fun x => x ++ [])). exact Hl.
Qed.

(** [+] over a class does not match where no character of the class
    stands. *)
Lemma run_plus_cls_none fl g neg items p s cs :
  match s with c :: _ => cls_matches fl neg items c = false | [] => True end ->
  run fl (Rep g 1 (Cls neg items)) (MState p s cs) = [].
Proof.
  intros H. cbn [run rest].
  change (run fl (Cls neg items)) with (step_if (cls_matches fl neg items)).
  cbn [rep_min].
  destruct s as [|c t]; [now rewrite step_if_nil|].
  now rewrite step_if_cons, H.
Qed.

(** A search walks over the positions where the pattern has no match. *)
Lemma search_from_walk fl r suf : forall pre p,
  (forall i, (i < List.length pre)%nat ->
             run fl r (MState (p + i) (skipn i (pre ++ suf)) []) = []) ->
  search_from fl r false p (pre ++ suf)
  = search_from fl r false (p + List.length pre) suf.
Proof.
  induction pre as [|c t IH]; intros p H.
  - cbn [app List.length]. now rewrite Nat.add_0_r.
  - cbn [app search_from]. unfold match_here.
    pose proof (H 0%nat ltac:(simpl; lia)) as H0.
    rewrite Nat.add_0_r in H0. cbn [skipn app] in H0. rewrite H0. cbn [filter].
    rewrite IH.
    + cbn [List.length]. f_equal. lia.
    + intros i Hi. specialize (H (S i) ltac:(simpl; lia)).
      cbn [skipn app] in H. rewrite <- H. f_equal. f_equal. lia.
Qed.

Lemma skipn_nondigit_head pre suf i c t :
  forallb (fun c => negb (is_digit c)) pre = true ->
  (i < List.length pre)%nat -> skipn i (pre ++ suf) = c :: t ->
  is_digit c = false.
Proof.
  revert i. induction pre as [|a pre' IH]; intros i Hp Hi E; [simpl in Hi; lia|].
  cbn [forallb] in Hp. apply andb_true_iff in Hp as [Ha Hp'].
  destruct i as [|i'].
  - cbn in E. injection E as <- _. now apply negb_true_iff.
  - cbn in E. apply (IH i'); [exact Hp'|simpl in Hi; lia|exact E].
Qed.

Lemma digits_value_digits s : forall acc prev,
  all_digits s = true -> (s <> [] \/ prev = true) ->
  digits_value acc prev s = Some (decimal_value acc s).
Proof.
  induction s as [|c t IH]; intros acc prev Hd Hn.
  - destruct Hn as [Hn| ->]; [congruence|reflexivity].
  - cbn [all_digits forallb] in Hd. apply andb_true_iff in Hd as [Hc Ht].
    cbn [digits_value decimal_value]. rewrite Hc. apply IH; [exact Ht|now right].
Qed.

(** [int] on a run of digits: its decimal value, unless the run is longer
    than [int] accepts. *)
Lemma py_int_of_digits ds :
  all_digits ds = true -> ds <> [] ->
  py_int ds = if (int_max_str_digits <? List.length ds)%nat then None
              else Some (decimal_value 0 ds).
Proof.
  intros Hd Hn. rewrite py_int_unsigned; rewrite (strip_digits _ Hd).
  - rewrite (filter_all _ _ Hd). destruct (_ <? _)%nat; [reflexivity|].
    apply digits_value_digits; auto.
  - destruct ds as [|c t]; [exact I|].
    cbn [all_digits forallb] in Hd. apply andb_true_iff in Hd as [Hc _].
    split; intros ->; vm_compute in Hc; discriminate.
Qed.

Lemma search_from_here fl r ma p s m :
  match_here fl r ma p s = Some m ->
  search_from fl r ma p s = Some (m, skipn (m_end m - p) s).
Proof. intros H. destruct s; cbn [search_from]; now rewrite H. Qed.

(** X5.  [extract_lot_size] reads the first run of digits of its text, and
    nothing else: a text without a digit (the empty text among them) gives
    [None]; otherwise the result is the decimal value of the first run,
    whatever follows it, or [None] when that run has more than 4300
    digits. *)
Theorem X5_extract_lot_size_first_number :
  (forall t,
     forallb (fun c => negb (is_digit c)) t = true -> extract_lot_size t = None)
  /\ (forall pre ds post,
        forallb (fun c => negb (is_digit c)) pre = true ->
        all_digits ds = true -> ds <> [] ->
        match post with c :: _ => is_digit c = false | [] => True end ->
        extract_lot_size (pre ++ ds ++ post)
        = if (int_max_str_digits <? List.length ds)%nat then None
          else Some (decimal_value 0 ds)).
Proof.
  assert (Hnone : forall p i pre suf,
            forallb (fun c => negb (is_digit c)) pre = true ->
            (i < List.length pre)%nat ->
            run no_flags (Grp 0 (plus digit)) (MState (p + i) (skipn i (pre ++ suf)) [])
            = []).
  { intros p i pre suf Hp Hi. cbn [run]. unfold plus, digit.
    rewrite run_plus_cls_none; [reflexivity|].
    destruct (skipn i (pre ++ suf)) as [|c t] eqn:E; [exact I|].
    rewrite cls_digit_no_flags. exact (skipn_nondigit_head _ _ _ _ _ Hp Hi E). }
  split.
  - intros t Ht. unfold extract_lot_size. destruct t as [|c0 t0]; [reflexivity|].
    unfold finditer.
    replace (2 * List.length (c0 :: t0) + 2)%nat
      with (S (2 * List.length (c0 :: t0) + 1)) by lia.
    cbn [finditer_from].
    pose proof (search_from_walk no_flags (Grp 0 (plus digit)) [] (c0 :: t0) 0%nat)
      as Hw.
    rewrite app_nil_r in Hw. rewrite Hw.
    2:{ intros i Hi. pose proof (Hnone 0%nat i (c0 :: t0) [] Ht Hi) as Hx.
        now rewrite app_nil_r in Hx. }
    cbn [search_from]. unfold match_here. cbn [run]. unfold plus, digit.
    now rewrite run_plus_cls_none.
  - intros pre ds post Hp Hd Hn Hpost. unfold extract_lot_size.
    destruct (pre ++ ds ++ post) as [|c0 t0] eqn:E.
    { destruct pre; [destruct ds; [congruence|discriminate]|discriminate]. }
    rewrite <- E. clear c0 t0 E. unfold finditer.
    replace (2 * List.length (pre ++ ds ++ post) + 2)%nat
      with (S (2 * List.length (pre ++ ds ++ post) + 1)) by lia.
    cbn [finditer_from].
    rewrite search_from_walk by (intros i Hi; now apply Hnone).
    assert (Hm : match_here no_flags (Grp 0 (plus digit)) false
                   (0 + List.length pre) (ds ++ post)
                 = Some (RMatch (0 + List.length pre)
                           (0 + List.length pre + List.length ds) [(0%nat, ds)])).
    { unfold match_here. rewrite filter_true. cbn [run]. unfold digit.
      destruct (run_plus_cls_head no_flags false [CDigit] ds
                  (0 + List.length pre) post []) as (l & ->).
      - unfold all_digits in Hd. rewrite <- Hd. apply forallb_same.
        intros c. apply cls_digit_no_flags.
      - exact Hn.
      - destruct post as [|c t]; [exact I|]. now rewrite cls_digit_no_flags.
      - cbn [map pos rest caps]. f_equal. f_equal. f_equal. f_equal.
        replace (0 + List.length pre + List.length ds - (0 + List.length pre))%nat
          with (List.length ds) by lia.
        now rewrite firstn_app, firstn_all, Nat.sub_diag, firstn_O, app_nil_r. }
    rewrite (search_from_here _ _ _ _ _ _ Hm). unfold group.
    cbn [m_caps lookup Nat.eqb]. now apply py_int_of_digits.
Qed.

Lemma X5_witness :
  extract_lot_size (str "Lot: " ++ str "100" ++ str " shares, 5 lots")
  = if (int_max_str_digits <? List.length (str "100"))%nat then None
    else Some (decimal_value 0 (str "100")).
Proof.
  apply (proj2 X5_extract_lot_size_first_number (str "Lot: ") (str "100")
           (str " shares, 5 lots")).
  - vm_compute. reflexivity.
  - vm_compute. reflexivity.
  - discriminate.
  - vm_compute. reflexivity.
Defined.

(** ** Patterns that read what their language holds *)

Lemma reads_seq fl r1 r2 u v :
  reads fl r1 u -> reads fl r2 v -> reads fl (r1 ;; r2) (u ++ v).
Proof.
  intros H1 H2 p tl cs.
  destruct (H1 p (v ++ tl) cs) as (c1 & I1).
  destruct (H2 (p + List.length u)%nat tl c1) as (c2 & I2).
  exists c2. cbn [run]. apply in_flat_map.
  exists (MState (p + List.length u) (v ++ tl) c1). split.
  - now rewrite <- app_assoc.
  - now rewrite length_app, Nat.add_assoc.
Qed.

(** For a flat pattern the matcher is complete: it can read every text of
    the pattern's language. *)
Lemma flat_reads fl r : forall u, flat r = true -> lang fl r u -> reads fl r u.
Proof.
  induction r as [| c | | neg items | r1 IH1 r2 IH2 | r1 IH1 r2 IH2
                  | g lo r1 IH1 | n r1 IH1 | r1 IH1 | |];
    intros u Hf Hl; cbn [flat] in Hf; try discriminate.
  - inversion Hl; subst. intros p tl cs. exists cs. cbn. rewrite Nat.add_0_r.
    now left.
  - inversion Hl as [| p0 c0 Hc | | | | | | | | | | |]; subst.
    intros p tl cs. exists cs. cbn [run app List.length].
    rewrite step_if_cons, Hc, Nat.add_1_r. now left.
  - inversion Hl as [| | | ng it c0 Hc | | | | | | | | |]; subst.
    intros p tl cs. exists cs. cbn [run app List.length].
    rewrite step_if_cons, Hc, Nat.add_1_r. now left.
  - apply andb_true_iff in Hf as [F1 F2].
    inversion Hl as [| | | | ra rb u1 u2 L1 L2 | | | | | | | |]; subst.
    apply reads_seq; auto.
  - apply andb_true_iff in Hf as [F1 F2]. intros p tl cs.
    inversion Hl as [| | | | | ra rb u' La | ra rb u' Lb | | | | | |]; subst.
    + destruct (IH1 _ F1 La p tl cs) as (c' & I). exists c'. cbn [run].
      apply in_or_app. now left.
    + destruct (IH2 _ F2 Lb p tl cs) as (c' & I). exists c'. cbn [run].
      apply in_or_app. now right.
  - destruct r1; try discriminate.
    apply lang_rep_cls in Hl as [Hc Hlo]. intros p tl cs. exists cs.
    now apply run_rep_cls_reads.
  - inversion Hl as [| | | | | | | | | k ra u' La | | |]; subst.
    intros p tl cs. destruct (IH1 _ Hf La p tl cs) as (c' & I).
    eexists. cbn [run]. apply in_map_iff.
    exists (MState (p + List.length u) tl c'). split; [reflexivity|exact I].
Qed.

(** A search finds something as soon as the pattern matches somewhere. *)
Lemma search_from_some fl r suf : forall pre p,
  run fl r (MState (p + List.length pre) suf []) <> [] ->
  search_from fl r false p (pre ++ suf) <> None.
Proof.
  induction pre as [|c t IH]; intros p H.
  - cbn [app List.length] in *. rewrite Nat.add_0_r in H.
    destruct (match_here fl r false p suf) as [m|] eqn:E.
    + rewrite (search_from_here _ _ _ _ _ _ E). discriminate.
    + exfalso. unfold match_here in E. rewrite filter_true in E.
      destruct (run fl r (MState p suf [])); [congruence|discriminate].
  - cbn [app search_from].
    destruct (match_here fl r false p (c :: t ++ suf)); [discriminate|].
    apply IH. cbn [List.length] in H. now rewrite Nat.add_succ_r in H.
Qed.

Lemma search_some_at fl r pre u post :
  flat r = true -> lang fl r u -> search fl r (pre ++ u ++ post) <> None.
Proof.
  intros Hf Hl. unfold search.
  assert (H : search_from fl r false 0 (pre ++ u ++ post) <> None).
  { apply search_from_some.
    destruct (flat_reads fl r u Hf Hl (0 + List.length pre)%nat post []) as (c' & I).
    intros E. rewrite E in I. destruct I. }
  destruct (search_from fl r false 0 (pre ++ u ++ post)); [discriminate|congruence].
Qed.

(** What a search finds is a text of the pattern's language. *)
Lemma search_lang fl r s m :
  search fl r s = Some m ->
  exists pre u post, s = pre ++ u ++ post /\ lang fl r u.
Proof.
  intros H.
  destruct (search_found _ _ _ _ H) as (pre & suf & st' & -> & _ & Hin & _).
  destruct (run_sound _ _ _ _ Hin) as (u & [Hu _] & Lu). cbn [rest] in Hu.
  exists pre, u, (rest st'). now rewrite Hu.
Qed.

(** The match of "a group, then more": the group holds what its pattern
    read, the rest of the pattern read what follows. *)
Lemma search_group_then fl n r more s m :
  ~ In n (groups more) ->
  search fl (Grp n r ;; more) s = Some m ->
  exists pre u v post,
    s = pre ++ u ++ v ++ post /\ group n m = Some u
    /\ lang fl r u /\ lang fl more v.
Proof.
  intros Hn H.
  destruct (search_found _ _ _ _ H) as (pre & suf & st' & -> & _ & Hin & _ & Hc).
  cbn [run] in Hin. apply in_flat_map in Hin as (s2 & H2 & Hin).
  apply in_map_iff in H2 as (s1 & <- & H1).
  destruct (run_sound _ _ _ _ H1) as (u & [Hu1 Hu2] & Lu).
  destruct (run_sound _ _ _ _ Hin) as (v & [Hv1 Hv2] & Lv).
  destruct (run_caps _ _ _ _ Hin) as (added & Ea & Fa).
  cbn [rest pos caps] in *.
  exists pre, u, v, (rest st'). split; [now rewrite Hu1, Hv1|].
  split; [|now split].
  unfold group. rewrite Hc, Ea, lookup_app_skip.
  - cbn [lookup]. rewrite Nat.eqb_refl. f_equal. rewrite Hu2, Hu1.
    replace (_ + List.length u - _)%nat with (List.length u) by lia.
    now rewrite firstn_app, firstn_all, Nat.sub_diag, firstn_O, app_nil_r.
  - eapply Forall_impl; [|exact Fa]. intros [k x] Hk Ek.
    cbn [fst] in Hk, Ek. subst k. contradiction.
Qed.

Lemma lang_lit fl w : forall u,
  lang fl (lit_chars w) u ->
  List.length u = List.length w /\ starts_with (ignorecase fl) w u = true.
Proof.
  induction w as [|c t IH]; intros u H; cbn [lit_chars] in H.
  - inversion H; subst. now split.
  - inversion H as [| | | | r1 r2 u1 u2 L1 L2 | | | | | | | |]; subst.
    inversion L1 as [| p0 c0 Hc | | | | | | | | | | |]; subst.
    destruct (IH _ L2) as [Hl Hs]. cbn [app List.length starts_with].
    unfold chr_matches in Hc. now rewrite Hc, Hs, Hl.
Qed.

Lemma starts_with_ci_lower w : forall u,
  starts_with true w u = true -> List.length u = List.length w ->
  map lower u = map lower w.
Proof.
  induction w as [|c t IH]; intros u H L.
  - destruct u; [reflexivity|discriminate].
  - destruct u as [|a u']; [discriminate|]. cbn [starts_with] in H.
    apply andb_true_iff in H as [Hc Hs]. apply Ascii.eqb_eq in Hc.
    cbn [map]. rewrite Hc, (IH u' Hs); [reflexivity|]. simpl in L. lia.
Qed.

(** ** Characters under IGNORECASE *)

Lemma cls_digit_ci c : cls_matches IGNORECASE false [CDigit] c = is_digit c.
Proof. destruct c as [[] [] [] [] [] [] [] []]; reflexivity. Qed.

Lemma cls_space_ci c : cls_matches IGNORECASE false [CSpace] c = is_space c.
Proof. destruct c as [[] [] [] [] [] [] [] []]; reflexivity. Qed.

Lemma cls_digit_dot_ci c :
  cls_matches IGNORECASE false [CDigit; CChar "."] c = digit_or_dot c.
Proof. destruct c as [[] [] [] [] [] [] [] []]; reflexivity. Qed.

Lemma chr_dot_ci c : chr_matches IGNORECASE "." c = Ascii.eqb "." c.
Proof. destruct c as [[] [] [] [] [] [] [] []]; reflexivity. Qed.

(** ** The subscription *)

Lemma lang_seq_inv fl r1 r2 u :
  lang fl (r1 ;; r2) u ->
  exists u1 u2, u = u1 ++ u2 /\ lang fl r1 u1 /\ lang fl r2 u2.
Proof.
  intros H. inversion H as [| | | | ra rb u1 u2 L1 L2 | | | | | | | |]; subst.
  now exists u1, u2.
Qed.

(** What [\s*times] reads under IGNORECASE: whitespace, then the word in
    capitals or small letters. *)
Lemma lang_space_times v :
  lang IGNORECASE (star space ;; lit_chars (str "times")) v ->
  exists ws w, v = ws ++ w /\ forallb is_space ws = true
               /\ map lower w = str "times"
               /\ starts_with true (str "times") w = true.
Proof.
  intros H. apply lang_seq_inv in H as (ws & w & -> & Lws & Lw).
  apply lang_rep_cls in Lws as [Hws _]. apply lang_lit in Lw as [Hl Hs].
  exists ws, w. split; [reflexivity|]. split.
  - rewrite <- Hws. apply forallb_same. intros c. symmetry. apply cls_space_ci.
  - split; [|exact Hs]. exact (starts_with_ci_lower _ _ Hs Hl).
Qed.

Lemma digit_or_dot_not_space c : digit_or_dot c = true -> is_space c = false.
Proof. destruct c as [[] [] [] [] [] [] [] []]; vm_compute; congruence. Qed.

Lemma all_digits_no_dot u : all_digits u = true -> contains_char "." u = false.
Proof.
  unfold all_digits, contains_char.
  induction u as [|c t IH]; cbn [forallb existsb]; [reflexivity|].
  rewrite andb_true_iff. intros [Hc Ht]. rewrite (IH Ht), orb_false_r.
  destruct (Ascii.eqb_spec "." c) as [<-|]; [|reflexivity].
  vm_compute in Hc. discriminate.
Qed.

Lemma all_digits_app a b :
  all_digits (a ++ b) = all_digits a && all_digits b.
Proof. apply forallb_app. Qed.

Lemma all_digits_dots u : all_digits u = true -> forallb digit_or_dot u = true.
Proof.
  unfold all_digits. induction u as [|c t IH]; [reflexivity|]. cbn [forallb].
  rewrite andb_true_iff. intros [Hc Ht]. unfold digit_or_dot at 1.
  now rewrite Hc, IH.
Qed.

(** What [\d+\.?\d*] reads: digits, with at most one dot after the first
    of them. *)
Lemma lang_number g :
  lang IGNORECASE (plus digit ;; opt (Chr ".") ;; star digit) g ->
  exists d1 d2,
    all_digits d1 = true /\ d1 <> [] /\ all_digits d2 = true
    /\ (g = d1 ++ d2 \/ g = d1 ++ "."%char :: d2).
Proof.
  intros H. apply lang_seq_inv in H as (d1 & r & -> & L1 & Lr).
  apply lang_seq_inv in Lr as (o & d2 & -> & Lo & L2).
  apply lang_rep_cls in L1 as [H1 N1]. apply lang_rep_cls in L2 as [H2 _].
  exists d1, d2.
  split; [unfold all_digits; rewrite <- H1; apply forallb_same; intros c;
          symmetry; apply cls_digit_ci|].
  split; [intros ->; simpl in N1; lia|].
  split; [unfold all_digits; rewrite <- H2; apply forallb_same; intros c;
          symmetry; apply cls_digit_ci|].
  inversion Lo as [| | | | | ra rb u' La | ra rb u' Lb | | | | | |]; subst.
  - right. inversion La as [| p0 c0 Hc | | | | | | | | | | |]; subst.
    rewrite chr_dot_ci in Hc. apply Ascii.eqb_eq in Hc as <-. reflexivity.
  - left. inversion Lb; subst. reflexivity.
Qed.

(** [float] reads every text of [\d+\.?\d*]. *)
Lemma py_float_number g :
  lang IGNORECASE (plus digit ;; opt (Chr ".") ;; star digit) g ->
  forallb digit_or_dot g = true /\ exists v, py_float g = Some v.
Proof.
  intros H. apply lang_number in H as (d1 & d2 & H1 & N1 & H2 & Hg).
  assert (Hdd : forallb digit_or_dot g = true).
  { destruct Hg as [-> | ->]; rewrite forallb_app; cbn [forallb];
      now rewrite (all_digits_dots _ H1), (all_digits_dots _ H2). }
  split; [exact Hdd|].
  assert (Hs : strip g = g).
  { apply strip_no_space. clear Hg. induction g as [|c t IH]; [reflexivity|].
    cbn [forallb] in *. apply andb_true_iff in Hdd as [Hc Ht].
    now rewrite (digit_or_dot_not_space _ Hc), IH. }
  unfold py_float. rewrite Hs. destruct Hg as [-> | ->].
  - rewrite split_none.
    + rewrite all_digits_app, H1, H2. cbn [andb].
      destruct d1 as [|c t]; [congruence|]. cbn [app List.length Nat.eqb negb].
      eexists. reflexivity.
    + rewrite contains_char_app, (all_digits_no_dot _ H1), (all_digits_no_dot _ H2).
      reflexivity.
  - rewrite split_app_sep by now apply all_digits_no_dot.
    rewrite split_none by now apply all_digits_no_dot.
    rewrite H1, H2. cbn [andb].
    destruct d1 as [|c t]; [congruence|]. cbn [app List.length Nat.eqb negb].
    eexists. reflexivity.
Qed.

Lemma extract_subscription_reads t v :
  extract_subscription t = Some v ->
  exists pre g ws w post,
    t = pre ++ g ++ ws ++ w ++ post
    /\ g <> [] /\ forallb digit_or_dot g = true
    /\ forallb is_space ws = true /\ map lower w = str "times"
    /\ starts_with true (str "times") w = true
    /\ py_float g = Some v.
Proof.
  unfold extract_subscription. destruct t as [|c0 t0]; [discriminate|].
  destruct (search IGNORECASE times_re (c0 :: t0)) as [m|] eqn:Es; [|discriminate].
  unfold times_re, lit in Es.
  apply search_group_then in Es as (pre & g & v' & post & Ht & Hg & Lg & Lv);
    [|intros []].
  rewrite Hg. intros Hf.
  apply lang_rep_cls in Lg as [Hc Hn].
  apply lang_space_times in Lv as (ws & w & -> & Hws & Hw & Hsw).
  exists pre, g, ws, w, post. split; [now rewrite Ht, <- app_assoc|].
  split; [intros ->; simpl in Hn; lia|].
  split; [rewrite <- Hc; apply forallb_same; intros c; symmetry;
          apply cls_digit_dot_ci|].
  auto.
Qed.

(** The compound pattern ends with the bare one: where it matches, the bare
    pattern matches too. *)
Lemma complex_needs_simple ft m :
  search IGNORECASE sub_pattern_complex ft = Some m ->
  search IGNORECASE sub_pattern_simple ft <> None.
Proof.
  intros H. apply search_lang in H as (pre & u & post & -> & Lu).
  unfold sub_pattern_complex in Lu.
  apply lang_seq_inv in Lu as (a & r1 & -> & _ & L1).
  apply lang_seq_inv in L1 as (b & r2 & -> & _ & L2).
  apply lang_seq_inv in L2 as (c & r3 & -> & _ & L3).
  apply lang_seq_inv in L3 as (d & e & -> & _ & Le).
  replace (pre ++ (a ++ b ++ c ++ d ++ e) ++ post)
    with ((pre ++ a ++ b ++ c ++ d) ++ e ++ post)
    by (now rewrite <- !app_assoc).
  apply search_some_at; [reflexivity|exact Le].
Qed.

(** X7.  In the block parser the bare pattern [(\d+\.?\d* )\s*times] alone
    decides the subscription.  When it has no match the compound "No of
    Apps" pattern has none either, and the field stays [None]; when it has
    one, its group reads as a float (a [ValueError] cannot occur) and that
    float is the field.  The second pattern of the list never contributes. *)
Theorem X7_bare_times_pattern_decides :
  (forall ft,
     search IGNORECASE sub_pattern_simple ft = None ->
     search IGNORECASE sub_pattern_complex ft = None
     /\ sub_loop sub_patterns ft = Ok None)
  /\ (forall ft m,
        search IGNORECASE sub_pattern_simple ft = Some m ->
        exists g v,
          group 1 m = Some g /\ forallb digit_or_dot g = true
          /\ py_float g = Some v
          /\ sub_loop sub_patterns ft = Ok (Some v)).
Proof.
  split.
  - intros ft H.
    assert (Hc : search IGNORECASE sub_pattern_complex ft = None).
    { destruct (search IGNORECASE sub_pattern_complex ft) as [m|] eqn:E;
        [|reflexivity].
      apply complex_needs_simple in E. congruence. }
    split; [exact Hc|]. unfold sub_patterns. cbn [sub_loop]. now rewrite H, Hc.
  - intros ft m H. pose proof H as H'. unfold sub_pattern_simple, lit in H'.
    apply search_group_then in H' as (pre & g & v' & post & _ & Hg & Lg & _);
      [|intros []].
    apply py_float_number in Lg as (Hdd & v & Hv).
    exists g, v. split; [exact Hg|]. split; [exact Hdd|]. split; [exact Hv|].
    exact (sub_loop_first _ _ _ _ H Hg Hv).
Qed.

Lemma X7_witness :
  search IGNORECASE sub_pattern_complex (str "No of Apps: 4624 | 13.39 shares") = None
  /\ sub_loop sub_patterns (str "No of Apps: 4624 | 13.39 shares") = Ok None.
Proof.
  apply (proj1 X7_bare_times_pattern_decides
           (str "No of Apps: 4624 | 13.39 shares")).
  vm_compute. reflexivity.
Defined.

(** ** The lines of a block *)

(** Splitting what was joined gives the pieces back. *)
Lemma split_join c : forall ls,
  ls <> [] -> Forall (fun l => contains_char c l = false) ls ->
  split c (join [c] ls) = ls.
Proof.
  induction ls as [|a r IH]; intros Hn Hf; [congruence|].
  inversion Hf as [|a' r' Ha Hr]; subst.
  destruct r as [|b r'].
  - cbn [join]. now apply split_none.
  - cbn [join app]. change (a ++ c :: join [c] (b :: r'))
      with (a ++ c :: join [c] (b :: r')).
    rewrite split_app_sep by exact Ha. f_equal. apply IH; [discriminate|exact Hr].
Qed.

Lemma drop_while_head p s :
  match drop_while p s with c :: _ => p c = false | [] => True end.
Proof.
  induction s as [|c t IH]; cbn [drop_while]; [exact I|].
  destruct (p c) eqn:E; [exact IH|exact E].
Qed.

(** A stripped text has no whitespace at either end. *)
Lemma strip_edges s :
  match strip s with c :: _ => is_space c = false | [] => True end
  /\ match rev (strip s) with c :: _ => is_space c = false | [] => True end.
Proof.
  unfold strip. set (y := drop_while is_space s).
  set (z := drop_while is_space (rev y)).
  pose proof (drop_while_head is_space s) as Hy. fold y in Hy.
  pose proof (drop_while_head is_space (rev y)) as Hz. fold z in Hz.
  split; [|now rewrite rev_involutive].
  destruct (drop_while_split is_space (rev y)) as (u & Hu & _). fold z in Hu.
  assert (E : y = rev z ++ rev u).
  { rewrite <- rev_app_distr, <- Hu. symmetry. apply rev_involutive. }
  destruct (rev z) as [|a t]; [exact I|].
  rewrite E in Hy. exact Hy.
Qed.

(** [strip] does nothing to what it has stripped. *)
Lemma strip_strip s : strip (strip s) = strip s.
Proof. destruct (strip_edges s). now apply strip_id. Qed.

Lemma block_of_match_lines m blk :
  block_of_match m = Some blk ->
  exists ls,
    blk = join [("010")%char] ls /\ (1 <= List.length ls <= 20)%nat
    /\ Forall (fun l => l <> [] /\ strip l = l
                        /\ contains_char "010" l = false) ls.
Proof.
  unfold block_of_match.
  set (block := str "Offer Date: " ++ group_text 1 m ++ group_text 2 m).
  set (lines := filter (fun l => negb (List.length l =? 0)%nat)
                       (map strip (split "010" block))).
  destruct (1 <=? List.length (firstn 20 lines))%nat eqn:E; [|discriminate].
  intros [= <-]. exists (firstn 20 lines).
  split; [reflexivity|]. split.
  - apply Nat.leb_le in E. split; [exact E|]. apply firstn_le_length.
  - apply Forall_forall. intros l Hl.
    assert (Hin : In l lines).
    { rewrite <- (firstn_skipn 20 lines). apply in_or_app. now left. }
    unfold lines in Hin. apply filter_In in Hin as [Hin Hne].
    apply in_map_iff in Hin as (x & <- & Hx).
    split; [|split].
    + intros E0. rewrite E0 in Hne. discriminate.
    + apply strip_strip.
    + apply contains_char_strip. exact (split_no_sep _ _ _ Hx).
Qed.

(** X8.  Every block of the segmenter is made of 1 to 20 lines; none of
    them is empty, and none starts or ends with whitespace.  Splitting the
    block at its newlines gives exactly the lines it was joined from. *)
Theorem X8_block_lines :
  forall page blk,
    In blk (split_ipo_blocks_v2 page) ->
    (1 <= List.length (split "010" blk) <= 20)%nat
    /\ Forall (fun l => l <> [] /\ strip l = l) (split "010" blk).
Proof.
  intros page blk H. unfold split_ipo_blocks_v2 in H.
  apply in_keep_some, in_map_iff in H as (m & Hm & _).
  apply block_of_match_lines in Hm as (ls & -> & Hlen & Hls).
  rewrite split_join.
  - split; [exact Hlen|]. eapply Forall_impl; [|exact Hls]. cbv beta. tauto.
  - intros ->. simpl in Hlen. lia.
  - eapply Forall_impl; [|exact Hls]. cbv beta. tauto.
Qed.

Lemma X8_witness :
  (1 <= List.length
          (split "010"
             (str "Offer Date: Sep 1, 2025 - Sep 3, 2025Offer Price54Lot Size200"))
   <= 20)%nat
  /\ Forall (fun l => l <> [] /\ strip l = l)
       (split "010"
          (str "Offer Date: Sep 1, 2025 - Sep 3, 2025Offer Price54Lot Size200")).
Proof.
  apply (X8_block_lines two_offer_page).
  vm_compute. right. left. reflexivity.
Defined.

(** ** The derived field and the name *)

(** X9.  In every record of the output [investment_per_lot] is set, and as
    long as (min + max) * lot_size is below 2^53 it lies between the lot
    size times the lower and times the higher of the two prices it was
    computed from; so it is at least [lot_size], and at least 1. *)
Theorem X9_investment_between_the_prices :
  forall block d,
    process_block block = Some d ->
    exists pmin pmax lot v,
      offer_price_min d = Some pmin /\ offer_price_max d = Some pmax
      /\ lot_size d = Some lot /\ investment_per_lot d = Some v
      /\ ((pmin + (if pmax =? 0 then pmin else pmax)) * lot < 2 ^ 53 ->
          lot * Z.min pmin (if pmax =? 0 then pmin else pmax) <= v
          /\ v <= lot * Z.max pmin (if pmax =? 0 then pmin else pmax)
          /\ 1 <= lot <= v).
Proof.
  intros block d H.
  apply process_block_inv in H
    as (d0 & v & Hd0 & Hv & _ & Hmin & Hmax & Hlot & _ & _ & _ & _ & _ & Hinv).
  destruct (accepted_fields _ _ Hd0)
    as (pmin & pmax & lot & H1 & H2 & H3 & Hp & Hm & Hl).
  exists pmin, pmax, lot, v.
  split; [congruence|]. split; [congruence|]. split; [congruence|].
  split; [exact Hinv|]. intros Hb.
  rewrite (compute_investment_exact d0 pmin pmax lot H1 H2 H3 Hp Hm Hl Hb) in Hv.
  injection Hv as <-.
  set (other := if pmax =? 0 then pmin else pmax) in *.
  assert (Ho : 1 <= other).
  { unfold other. destruct (pmax =? 0) eqn:E; [lia|]. apply Z.eqb_neq in E. lia. }
  assert (Hlo : lot * Z.min pmin other * 2 <= (pmin + other) * lot) by nia.
  assert (Hhi : (pmin + other) * lot <= lot * Z.max pmin other * 2) by nia.
  assert (H2lot : lot * 2 <= (pmin + other) * lot) by nia.
  split; [apply Z.div_le_lower_bound; lia|].
  split; [apply Z.div_le_upper_bound; lia|].
  split; [lia|apply Z.div_le_lower_bound; lia].
Qed.

Lemma X9_witness :
  exists pmin pmax lot v,
    offer_price_min half_record = Some pmin
    /\ offer_price_max half_record = Some pmax
    /\ lot_size half_record = Some lot /\ investment_per_lot half_record = Some v
    /\ ((pmin + (if pmax =? 0 then pmin else pmax)) * lot < 2 ^ 53 ->
        lot * Z.min pmin (if pmax =? 0 then pmin else pmax) <= v
        /\ v <= lot * Z.max pmin (if pmax =? 0 then pmin else pmax)
        /\ 1 <= lot <= v).
Proof.
  apply (X9_investment_between_the_prices half_block half_record).
  vm_compute. reflexivity.
Defined.

(** X10.  The company name of a parsed block is never short or empty: it
    has more than 3 characters, whether a pattern gave it or it is the
    default, and it is not made of digits, whitespace, dashes and dots
    only. *)
Theorem X10_company_name_is_a_name :
  forall block d,
    parse_fields block = Ok d ->
    (3 < List.length (company_name d))%nat
    /\ forallb numeric_punct (company_name d) = false.
Proof.
  intros block d H. apply parse_fields_inv in H as (Hn & _).
  apply name_loop_first in Hn as [(i & p & _ & _ & Hv & _)|[-> _]].
  - now apply valid_name_spec.
  - split; [vm_compute; lia|reflexivity].
Qed.

Lemma X10_witness :
  (3 < List.length (company_name sample_record))%nat
  /\ forallb numeric_punct (company_name sample_record) = false.
Proof.
  apply (X10_company_name_is_a_name sample_block sample_record).
  vm_compute. reflexivity.
Defined.

(** ** extract_premium *)

Lemma cls_digit_dash c :
  cls_matches no_flags false [CDigit; CChar "-"] c = true ->
  Ascii.eqb "-" c = false -> is_digit c = true.
Proof. destruct c as [[] [] [] [] [] [] [] []]; vm_compute; congruence. Qed.

Lemma cls_space_nf c : cls_matches no_flags false [CSpace] c = is_space c.
Proof. destruct c as [[] [] [] [] [] [] [] []]; reflexivity. Qed.

(** A text of [[\d\-]] characters without a dash is a run of digits. *)
Lemma digit_dash_digits u :
  forallb (cls_matches no_flags false [CDigit; CChar "-"]) u = true ->
  contains_char "-" u = false -> all_digits u = true.
Proof.
  unfold contains_char, all_digits.
  induction u as [|c t IH]; cbn [forallb existsb]; [reflexivity|].
  rewrite andb_true_iff, orb_false_iff. intros [Hc Ht] [Hd Hr].
  now rewrite (cls_digit_dash _ Hc Hd), IH.
Qed.

(** What [\s*\(...] reads: whitespace, then the parenthesis. *)
Lemma lang_space_paren r v :
  lang no_flags (star space ;; Chr "(" ;; r) v ->
  exists ws rest, v = ws ++ "("%char :: rest /\ forallb is_space ws = true.
Proof.
  intros H. apply lang_seq_inv in H as (ws & v1 & -> & Lws & L1).
  apply lang_seq_inv in L1 as (o & rest & -> & Lo & _).
  apply lang_rep_cls in Lws as [Hws _].
  inversion Lo as [| p0 c0 Hc | | | | | | | | | | |]; subst.
  change (chr_matches no_flags "(" c0) with (Ascii.eqb "(" c0) in Hc.
  apply Ascii.eqb_eq in Hc as <-.
  exists ws, rest. split; [reflexivity|].
  rewrite <- Hws. apply forallb_same. intros c. symmetry. apply cls_space_nf.
Qed.

Lemma extract_premium_reads t ep pp :
  extract_premium t = Ok (Some ep, pp) ->
  exists pre g ws rest,
    t = pre ++ g ++ ws ++ "("%char :: rest
    /\ forallb is_space ws = true
    /\ ((all_digits g = true /\ g <> [] /\ ep = inl (decimal_value 0 g))
        \/ (exists d1 d2,
              g = d1 ++ "-"%char :: d2
              /\ all_digits d1 = true /\ d1 <> []
              /\ all_digits d2 = true /\ d2 <> []
              /\ ep = inr (fround
                             (Qmake (decimal_value 0 d1 + decimal_value 0 d2) 2)))).
Proof.
  unfold extract_premium. destruct t as [|c0 t0]; [discriminate|].
  destruct (occurs false (str "N/A") (c0 :: t0)); [discriminate|].
  destruct (search no_flags premium_re (c0 :: t0)) as [m|] eqn:Es; [|discriminate].
  unfold premium_re in Es.
  apply search_group_then in Es as (pre & g & v & post & Ht & Hg & Lg & Lv);
    [|cbn; intros [E|[]]; discriminate].
  rewrite Hg. apply lang_rep_cls in Lg as [Hc _].
  apply lang_space_paren in Lv as (ws & rest & -> & Hws).
  destruct (group 2 m) as [g2|]; [|discriminate].
  destruct (py_float g2) as [pct|]; [|discriminate].
  intros H. exists pre, g, ws, (rest ++ post).
  split; [rewrite Ht, <- app_assoc; reflexivity|]. split; [exact Hws|].
  destruct (contains_char "-" g) eqn:Ed.
  - right. destruct (split "-" g) as [|p0 [|p1 [|p2 r]]] eqn:Esp;
      try discriminate.
    assert (Hn0 : contains_char "-" p0 = false).
    { apply (split_no_sep "-" g). rewrite Esp. now left. }
    assert (Hn1 : contains_char "-" p1 = false).
    { apply (split_no_sep "-" g). rewrite Esp. right. now left. }
    apply split_pair in Esp. subst g.
    rewrite forallb_app in Hc. cbn [forallb] in Hc.
    apply andb_true_iff in Hc as [Hc0 Hc1]. apply andb_true_iff in Hc1 as [_ Hc1].
    pose proof (digit_dash_digits _ Hc0 Hn0) as Hd0.
    pose proof (digit_dash_digits _ Hc1 Hn1) as Hd1.
    rewrite (strip_digits _ Hd0), (strip_digits _ Hd1) in H.
    destruct (py_int p0) as [lo|] eqn:E0; [|discriminate].
    destruct (py_int p1) as [hi|] eqn:E1; [|discriminate].
    destruct (py_int_digits _ _ Hd0 E0) as (-> & N0 & _).
    destruct (py_int_digits _ _ Hd1 E1) as (-> & N1 & _).
    unfold bind in H. destruct (int_truediv _ 2) as [x|] eqn:Et; [|discriminate].
    apply int_truediv_2 in Et. injection H as <- _.
    exists p0, p1. rewrite Et. auto 10.
  - left. pose proof (digit_dash_digits _ Hc Ed) as Hd.
    destruct (py_int g) as [w|] eqn:Ei; [|discriminate].
    destruct (py_int_digits _ _ Hd Ei) as (-> & N & _).
    injection H as <- _. auto.
Qed.

Lemma extract_premium_raises t e :
  extract_premium t = Raise e -> e = OverflowError.
Proof.
  unfold extract_premium. destruct t as [|c0 t0]; [discriminate|].
  destruct (occurs false (str "N/A") (c0 :: t0)); [discriminate|].
  destruct (search no_flags premium_re (c0 :: t0)) as [m|] eqn:E; [|discriminate].
  pose proof (search_sets _ _ _ _ 1 E eq_refl) as H1.
  pose proof (search_sets _ _ _ _ 2 E eq_refl) as H2.
  destruct (group 1 m) as [g1|]; [|congruence].
  destruct (group 2 m) as [g2|]; [|congruence].
  destruct (py_float g2); [|discriminate].
  destruct (contains_char "-" g1).
  - destruct (split "-" g1) as [|p0 [|p1 [|p2 r]]]; try discriminate.
    destruct (py_int (strip p0)); [|discriminate].
    destruct (py_int (strip p1)); [|discriminate].
    unfold bind. destruct (int_truediv _ 2) eqn:Et; [discriminate|].
    intros [= <-]. exact (int_truediv_2_raises _ _ Et).
  - destruct (py_int g1); discriminate.
Qed.

(** ** What a group holds *)

Section RepeatGroup.
Variables (fl : flags) (r : regex) (n : nat).
Hypothesis body_group :
  forall st st' u,
    In st' (run fl r st) -> lookup n (caps st') = Some u ->
    lookup n (caps st) = Some u
    \/ exists b, In b (group_bodies n r) /\ lang fl b u.

Lemma rep_min_group lo : forall st st' u,
  In st' (rep_min (run fl r) lo st) -> lookup n (caps st') = Some u ->
  lookup n (caps st) = Some u
  \/ exists b, In b (group_bodies n r) /\ lang fl b u.
Proof.
  induction lo as [|k IH]; simpl; intros st st' u Hin Hu.
  - destruct Hin as [<-|[]]. now left.
  - apply in_flat_map in Hin as (sta & Ha & Hin).
    destruct (IH _ _ _ Hin Hu) as [H|H]; [|now right].
    exact (body_group _ _ _ Ha H).
Qed.

Lemma rep_more_group g fuel : forall st st' u,
  In st' (rep_more (run fl r) g fuel st) -> lookup n (caps st') = Some u ->
  lookup n (caps st) = Some u
  \/ exists b, In b (group_bodies n r) /\ lang fl b u.
Proof.
  induction fuel as [|f IH]; simpl; intros st st' u Hin Hu.
  - destruct Hin as [<-|[]]. now left.
  - assert (Hcases : st' = st \/
      In st' (flat_map (fun s1 => if (pos st <? pos s1)%nat
                                  then rep_more (run fl r) g f s1 else [])
                       (run fl r st))).
    { destruct g.
      - apply in_app_or in Hin as [H|[<-|[]]]; auto.
      - destruct Hin as [<-|H]; auto. }
    destruct Hcases as [->|H]; [now left|].
    apply in_flat_map in H as (sta & Ha & H).
    destruct (pos st <? pos sta)%nat; [|destruct H].
    destruct (IH _ _ _ H Hu) as [H'|H']; [|now right].
    exact (body_group _ _ _ Ha H').
Qed.
End RepeatGroup.

(** A group that a match has set holds a text of the group's own pattern. *)
Lemma run_group fl n r : forall st st' u,
  In st' (run fl r st) -> lookup n (caps st') = Some u ->
  lookup n (caps st) = Some u
  \/ exists b, In b (group_bodies n r) /\ lang fl b u.
Proof.
  induction r as [| p | | neg items | r1 IH1 r2 IH2 | r1 IH1 r2 IH2
                  | g lo r1 IH1 | k r1 IH1 | r1 IH1 | |];
    cbn [run group_bodies]; intros st st' u Hin Hu.
  - destruct Hin as [<-|[]]. now left.
  - apply step_if_sound in Hin as (c & _ & _ & Hc). left. now rewrite <- Hc.
  - apply step_if_sound in Hin as (c & _ & _ & Hc). left. now rewrite <- Hc.
  - apply step_if_sound in Hin as (c & _ & _ & Hc). left. now rewrite <- Hc.
  - apply in_flat_map in Hin as (s1 & H1 & H2).
    destruct (IH2 _ _ _ H2 Hu) as [H|(b & Hb & Lb)].
    + destruct (IH1 _ _ _ H1 H) as [H'|(b & Hb & Lb)]; [now left|].
      right. exists b. split; [apply in_or_app; now left|exact Lb].
    + right. exists b. split; [apply in_or_app; now right|exact Lb].
  - apply in_app_or in Hin as [H|H].
    + destruct (IH1 _ _ _ H Hu) as [H'|(b & Hb & Lb)]; [now left|].
      right. exists b. split; [apply in_or_app; now left|exact Lb].
    + destruct (IH2 _ _ _ H Hu) as [H'|(b & Hb & Lb)]; [now left|].
      right. exists b. split; [apply in_or_app; now right|exact Lb].
  - apply in_flat_map in Hin as (s1 & H1 & H2).
    destruct (rep_more_group fl r1 n IH1 _ _ _ _ _ H2 Hu) as [H|H]; [|now right].
    exact (rep_min_group fl r1 n IH1 _ _ _ _ H1 H).
  - apply in_map_iff in Hin as (s1 & <- & H1). cbn [caps lookup] in Hu.
    destruct (k =? n)%nat eqn:E.
    + injection Hu as <-. right.
      destruct (run_sound _ _ _ _ H1) as (u & [Hu1 Hu2] & Lu).
      exists r1. split; [now left|].
      rewrite Hu2, Hu1.
      replace (_ + List.length u - _)%nat with (List.length u) by lia.
      now rewrite firstn_app, firstn_all, Nat.sub_diag, firstn_O, app_nil_r.
    + cbn [app]. exact (IH1 _ _ _ H1 Hu).
  - destruct (run fl r1 st) as [|s1 l] eqn:E; [destruct Hin|].
    destruct Hin as [<-|[]]. cbn [caps] in Hu.
    apply (IH1 st s1 u); [rewrite E; now left|exact Hu].
  - destruct (pos st =? 0)%nat; [|destruct Hin]. destruct Hin as [<-|[]]. now left.
  - assert (st' = st) as ->; [|now left].
    destruct (rest st) as [|c [|c' t]]; try (destruct Hin as [<-|[]]; reflexivity);
      try destruct Hin.
    destruct (Ascii.eqb c "010"); [destruct Hin as [<-|[]]; reflexivity|destruct Hin].
Qed.

Lemma search_group_lang fl r s m n u :
  search fl r s = Some m -> group n m = Some u ->
  exists b, In b (group_bodies n r) /\ lang fl b u.
Proof.
  intros H Hu.
  destruct (search_found _ _ _ _ H) as (pre & suf & st' & _ & _ & Hin & _ & Hc).
  unfold group in Hu. rewrite Hc in Hu.
  destruct (run_group _ _ _ _ _ _ Hin Hu) as [H0|H0]; [discriminate|exact H0].
Qed.

(** ** The first character of a name *)

Lemma cls_letter_nf c :
  cls_matches no_flags false [CRange "A" "Z"; CRange "a" "z"] c = is_letter c.
Proof. destruct c as [[] [] [] [] [] [] [] []]; reflexivity. Qed.

Lemma cls_capital_nf c :
  cls_matches no_flags false [CRange "A" "Z"] c = true -> is_letter c = true.
Proof. destruct c as [[] [] [] [] [] [] [] []]; vm_compute; congruence. Qed.

Lemma letter_not_space c : is_letter c = true -> is_space c = false.
Proof. destruct c as [[] [] [] [] [] [] [] []]; vm_compute; congruence. Qed.

Lemma letter_not_edge c :
  is_letter c = true ->
  cls_matches no_flags false [CChar "."; CChar "-"; CSpace] c = false.
Proof. destruct c as [[] [] [] [] [] [] [] []]; vm_compute; congruence. Qed.

(** Group 1 of every name pattern begins with a letter. *)
Lemma name_group_letter p ft m g :
  In p name_patterns -> search no_flags p ft = Some m -> group 1 m = Some g ->
  exists c t, g = c :: t /\ is_letter c = true.
Proof.
  intros Hp Es Hg.
  destruct (search_group_lang _ _ _ _ _ _ Es Hg) as (b & Hb & Lb).
  unfold name_patterns in Hp. cbn [In] in Hp.
  destruct Hp as [<-|[<-|[<-|[<-|[<-|[]]]]]];
    vm_compute in Hb; destruct Hb as [<-|[]];
    apply lang_seq_inv in Lb as (u1 & u2 & -> & L1 & _);
    inversion L1 as [| | | ng it c0 Hc | | | | | | | | |]; subst;
    exists c0, u2; (split; [reflexivity|]);
    first [ now rewrite <- cls_letter_nf | now apply cls_capital_nf ].
Qed.

Lemma strip_head c t :
  is_space c = false -> exists t', strip (c :: t) = c :: t'.
Proof.
  intros Hc. unfold strip. cbn [drop_while]. rewrite Hc.
  change (rev (c :: t)) with (rev t ++ [c]).
  rewrite (drop_while_app_keep is_space (rev t) [c] Hc), rev_app_distr.
  cbn [rev app]. eexists. reflexivity.
Qed.

(** A substitution keeps the first character where the pattern has no
    match at the start. *)
Lemma sub_head fl r repl c t :
  run fl r (MState 0 (c :: t) []) = [] ->
  exists t', sub fl r repl (c :: t) = c :: t'.
Proof.
  intros H. unfold sub, finditer.
  destruct (2 * List.length (c :: t) + 2)%nat as [|f] eqn:Ef; [simpl in Ef; lia|].
  cbn [finditer_from search_from]. unfold match_here at 1. rewrite H. cbn [filter].
  destruct (search_from fl r false 1 t) as [[m s']|] eqn:E.
  - destruct (search_from_found _ _ _ _ _ _ _ E) as (pre & suf & st' & _ & Hs & _).
    cbn [sub_matches]. rewrite Hs, Nat.sub_0_r. cbn [Nat.add firstn app].
    eexists. reflexivity.
  - cbn [sub_matches]. eexists. reflexivity.
Qed.

Lemma clean_name_head c t :
  is_letter c = true -> exists t', clean_name (c :: t) = c :: t'.
Proof.
  intros Hc. unfold clean_name.
  destruct (strip_head c t (letter_not_space _ Hc)) as (t1 & ->).
  destruct (sub_head no_flags (plus space) (str " ") c t1) as (t2 & ->).
  { unfold plus, space. apply run_plus_cls_none.
    rewrite cls_space_nf. now apply letter_not_space. }
  apply sub_head. unfold edge_punct. cbv zeta.
  change (run no_flags (Alt ?a ?b) ?st)
    with (run no_flags a st ++ run no_flags b st).
  assert (Hn : forall p0 cs,
    run no_flags (plus (Cls false [CChar "."; CChar "-"; CSpace]))
        (MState p0 (c :: t2) cs) = []).
  { intros p0 cs. unfold plus. apply run_plus_cls_none. now apply letter_not_edge. }
  change (run no_flags (?a ;; ?b) ?st)
    with (flat_map (run no_flags b) (run no_flags a st)).
  rewrite Hn. cbn [run pos Nat.eqb flat_map]. rewrite Hn. reflexivity.
Qed.

(** X12.  The company name of a parsed block always begins with a letter
    of [A-Za-z]: group 1 of each of the five patterns begins with one, the
    clean-up of the candidate does not touch it, and the default name begins
    with one too. *)
Theorem X12_company_name_begins_with_a_letter :
  forall block d,
    parse_fields block = Ok d ->
    exists c t, company_name d = c :: t /\ is_letter c = true.
Proof.
  intros block d H. apply parse_fields_inv in H as (Hn & _).
  apply name_loop_first in Hn as [(i & p & Hi & Hc & _)|[-> _]].
  - unfold candidate in Hc.
    destruct (search no_flags p (strip block)) as [m|] eqn:Es; [|discriminate].
    destruct (group 1 m) as [g|] eqn:Hg; [|discriminate].
    injection Hc as Hc. apply nth_error_In in Hi.
    destruct (name_group_letter _ _ _ _ Hi Es Hg) as (c & t & -> & Hl).
    destruct (clean_name_head c t Hl) as (t' & E).
    exists c, t'. split; [congruence|exact Hl].
  - eexists _, _. split; reflexivity.
Qed.

Lemma X12_witness :
  exists c t, company_name sample_record = c :: t /\ is_letter c = true.
Proof.
  apply (X12_company_name_begins_with_a_letter sample_block sample_record).
  vm_compute. reflexivity.
Defined.

(** ** The match that is tried first *)

Lemma first_seq fl r1 r2 p s cs t1 c1 t2 c2 :
  first_match fl r1 (MState p s cs) t1 c1 ->
  (forall q, first_match fl r2 (MState q t1 c1) t2 c2) ->
  first_match fl (r1 ;; r2) (MState p s cs) t2 c2.
Proof.
  intros (q1 & l1 & H1) H2. destruct (H2 q1) as (q2 & l2 & E2).
  exists q2, (l2 ++ flat_map (run fl r2) l1).
  cbn [run]. rewrite H1. cbn [flat_map]. now rewrite E2.
Qed.

Lemma first_alt_l fl r1 r2 st t cs :
  first_match fl r1 st t cs -> first_match fl (Alt r1 r2) st t cs.
Proof.
  intros (q & l & H). exists q, (l ++ run fl r2 st). cbn [run]. now rewrite H.
Qed.

Lemma first_alt_r fl r1 r2 st t cs :
  run fl r1 st = [] -> first_match fl r2 st t cs ->
  first_match fl (Alt r1 r2) st t cs.
Proof.
  intros H0 (q & l & H). exists q, l. cbn [run]. now rewrite H0, H.
Qed.

Lemma first_chr fl a c p t cs :
  chr_matches fl a c = true ->
  first_match fl (Chr a) (MState p (c :: t) cs) t cs.
Proof.
  intros H. exists (S p), []. cbn [run]. now rewrite step_if_cons, H.
Qed.

Lemma first_cls fl neg items c p t cs :
  cls_matches fl neg items c = true ->
  first_match fl (Cls neg items) (MState p (c :: t) cs) t cs.
Proof.
  intros H. exists (S p), []. cbn [run]. now rewrite step_if_cons, H.
Qed.

Lemma first_plus_cls fl neg items ds p t cs :
  forallb (cls_matches fl neg items) ds = true -> ds <> [] ->
  match t with c :: _ => cls_matches fl neg items c = false | [] => True end ->
  first_match fl (plus (Cls neg items)) (MState p (ds ++ t) cs) t cs.
Proof.
  intros Hd Hn Ht.
  destruct (run_plus_cls_head fl neg items ds p t cs Hd Hn Ht) as (l & H).
  now exists (p + List.length ds)%nat, l.
Qed.

Lemma first_star_cls fl neg items ds p t cs :
  forallb (cls_matches fl neg items) ds = true ->
  match t with c :: _ => cls_matches fl neg items c = false | [] => True end ->
  first_match fl (star (Cls neg items)) (MState p (ds ++ t) cs) t cs.
Proof.
  intros Hd Ht. unfold star. cbn [run rest rep_min flat_map].
  change (run fl (Cls neg items)) with (step_if (cls_matches fl neg items)).
  destruct (rep_more_greedy_head (cls_matches fl neg items) ds
              (S (List.length (ds ++ t))) p t cs) as (l & Hl).
  - rewrite length_app. lia.
  - exact Hd.
  - exact Ht.
  - exists (p + List.length ds)%nat, (l ++ []).
    change (MState (p + List.length ds) t cs :: l ++ [])
      with ((MState (p + List.length ds) t cs :: l) ++ []).
    apply (f_equal (fun x => x ++ [])). exact Hl.
Qed.

(** The group of a first match holds the text that was read. *)
Lemma first_grp fl n r p x t cs cs' :
  first_match fl r (MState p (x ++ t) cs) t cs' ->
  first_match fl (Grp n r) (MState p (x ++ t) cs) t ((n, x) :: cs').
Proof.
  intros (q & l & H).
  assert (Hin : In (MState q t cs') (run fl r (MState p (x ++ t) cs)))
    by (rewrite H; now left).
  destruct (run_sound _ _ _ _ Hin) as (u & [Hu1 Hu2] & _).
  cbn [rest pos] in Hu1, Hu2. apply app_inv_tail in Hu1. subst u.
  eexists q, _. cbn [run]. rewrite H. cbn [map pos rest caps].
  rewrite Hu2. replace (p + List.length x - p)%nat with (List.length x) by lia.
  rewrite firstn_app, firstn_all, Nat.sub_diag, firstn_O, app_nil_r.
  reflexivity.
Qed.

(** A first match at the start of the text is the match of [re.match] and
    of [re.search]. *)
Lemma first_match_here fl r s t cs :
  first_match fl r (MState 0 s []) t cs ->
  exists x, s = x ++ t
            /\ match_here fl r false 0 s = Some (RMatch 0 (List.length x) cs).
Proof.
  intros (q & l & H).
  assert (Hin : In (MState q t cs) (run fl r (MState 0 s [])))
    by (rewrite H; now left).
  destruct (run_sound _ _ _ _ Hin) as (u & [Hu1 Hu2] & _).
  cbn [rest pos] in Hu1, Hu2. exists u. split; [exact Hu1|].
  unfold match_here. rewrite filter_true, H. cbn [pos caps]. now rewrite Hu2.
Qed.

(** ** Dates as they are written *)

Lemma digit_cases c :
  is_digit c = true -> In c (str "0123456789").
Proof.
  destruct c as [[] [] [] [] [] [] [] []]; vm_compute; intros H;
    try discriminate; tauto.
Qed.

Lemma month_first m p tl cs :
  1 <= m <= 12 ->
  first_match IGNORECASE (alts (map lit month_abbrs))
    (MState p (month_name m ++ tl) cs) tl cs.
Proof.
  intros H.
  assert (Hm : m = 1 \/ m = 2 \/ m = 3 \/ m = 4 \/ m = 5 \/ m = 6 \/ m = 7
               \/ m = 8 \/ m = 9 \/ m = 10 \/ m = 11 \/ m = 12) by lia.
  unfold first_match.
  repeat (destruct Hm as [->|Hm]; [eexists _, _; vm_compute; reflexivity|]).
  subst m. eexists _, _. vm_compute. reflexivity.
Qed.

Lemma month_index_name m :
  1 <= m <= 12 -> month_index (map lower (month_name m)) month_abbrs 1 = Some m.
Proof.
  intros H.
  assert (Hm : m = 1 \/ m = 2 \/ m = 3 \/ m = 4 \/ m = 5 \/ m = 6 \/ m = 7
               \/ m = 8 \/ m = 9 \/ m = 10 \/ m = 11 \/ m = 12) by lia.
  repeat (destruct Hm as [->|Hm]; [vm_compute; reflexivity|]).
  subst m. vm_compute. reflexivity.
Qed.

Lemma month_name_letters m :
  1 <= m <= 12 ->
  forallb is_letter (month_name m) = true /\ List.length (month_name m) = 3%nat.
Proof.
  intros H.
  assert (Hm : m = 1 \/ m = 2 \/ m = 3 \/ m = 4 \/ m = 5 \/ m = 6 \/ m = 7
               \/ m = 8 \/ m = 9 \/ m = 10 \/ m = 11 \/ m = 12) by lia.
  repeat (destruct Hm as [->|Hm]; [split; reflexivity|]).
  subst m. split; reflexivity.
Qed.

(** The day of [%d]: one or two digits that make a number from 1 to 31. *)
Lemma day_first dd p tl cs :
  day_digits dd = true -> 1 <= decimal_value 0 dd <= 31 ->
  first_match IGNORECASE
    (alts [ Chr "3" ;; Cls false [CRange "0" "1"];
            Cls false [CRange "1" "2"] ;; digit;
            Chr "0" ;; Cls false [CRange "1" "9"];
            Cls false [CRange "1" "9"];
            Chr " " ;; Cls false [CRange "1" "9"] ])
    (MState p (dd ++ ","%char :: tl) cs) (","%char :: tl) cs.
Proof.
  unfold day_digits, all_digits. intros Hd Hv.
  apply andb_true_iff in Hd as [Hd Hl2]. apply andb_true_iff in Hd as [Hd Hl1].
  destruct dd as [|a [|b [|c t]]]; try discriminate.
  - cbn [forallb] in Hd. apply andb_true_iff in Hd as [Ha _].
    apply digit_cases in Ha. cbn [str list_ascii_of_string In] in Ha.
    unfold first_match.
    repeat (destruct Ha as [<-|Ha];
            [first [ exfalso; vm_compute in Hv; destruct Hv as [H1 H2];
                     first [now apply H1 | now apply H2]
                   | eexists _, _; vm_compute; reflexivity ]|]).
    destruct Ha.
  - cbn [forallb] in Hd. apply andb_true_iff in Hd as [Ha Hd].
    apply andb_true_iff in Hd as [Hb _].
    apply digit_cases in Ha. apply digit_cases in Hb.
    cbn [str list_ascii_of_string In] in Ha, Hb.
    unfold first_match.
    repeat (destruct Ha as [<-|Ha];
            [repeat (destruct Hb as [<-|Hb];
               [first [ exfalso; vm_compute in Hv; destruct Hv as [H1 H2];
                        first [now apply H1 | now apply H2]
                      | eexists _, _; vm_compute; reflexivity ]|]);
             destruct Hb|]).
    destruct Ha.
Qed.

Lemma days_in_month_le y m : days_in_month y m <= 31.
Proof.
  unfold days_in_month.
  destruct (m =? 2); [destruct (is_leap y); lia|].
  destruct (_ || _); lia.
Qed.

Lemma calendar_make_date y m d :
  calendar_date (Date y m d) -> make_date y m d = Some (Date y m d).
Proof.
  unfold calendar_date, make_date. cbn [year month day].
  intros ([H1 H2] & [H3 H4] & [H5 H6]).
  apply Z.leb_le in H1, H2, H3, H4, H5, H6.
  now rewrite H1, H2, H3, H4, H5, H6.
Qed.

Lemma day_digits_inv dd :
  day_digits dd = true ->
  all_digits dd = true /\ dd <> [] /\ (List.length dd <= 2)%nat.
Proof.
  unfold day_digits. intros H.
  apply andb_true_iff in H as [H H2]. apply andb_true_iff in H as [H H1].
  apply Nat.leb_le in H1, H2. split; [exact H|]. split; [|exact H2].
  intros ->. simpl in H1. lia.
Qed.

Lemma year_digits_inv yy :
  year_digits yy = true ->
  exists a b c d, yy = [a; b; c; d] /\ all_digits yy = true.
Proof.
  unfold year_digits. intros H. apply andb_true_iff in H as [H H4].
  destruct yy as [|a [|b [|c [|d [|e t]]]]]; try discriminate.
  now exists a, b, c, d.
Qed.

Lemma digits_head_not_space d t :
  all_digits d = true -> d <> [] ->
  match d ++ t with
  | c :: _ => cls_matches IGNORECASE false [CSpace] c = false
  | [] => True
  end.
Proof.
  intros H Hn. destruct d as [|c r]; [congruence|]. cbn [app].
  cbn [all_digits forallb] in H. apply andb_true_iff in H as [Hc _].
  rewrite cls_space_ci. now apply digit_not_space.
Qed.

(** [strptime] reads a date as it is written: the month abbreviation, the
    day in one or two digits, the year in four. *)
Lemma strptime_date_words m dd yy :
  day_digits dd = true -> year_digits yy = true ->
  calendar_date (Date (decimal_value 0 yy) m (decimal_value 0 dd)) ->
  strptime_date (date_words m dd yy)
  = Some (Date (decimal_value 0 yy) m (decimal_value 0 dd)).
Proof.
  intros Hd Hy Hc.
  pose proof Hc as ([Hy1 Hy2] & Hm & [Hd1 Hd2]). cbn [year month day] in *.
  pose proof (days_in_month_le (decimal_value 0 yy) m) as Hle.
  destruct (day_digits_inv _ Hd) as (Had & Hnd & Hld).
  destruct (year_digits_inv _ Hy) as (a & b & c & d & Ey & Hay).
  assert (Hf : first_match IGNORECASE strptime_re
                 (MState 0 (date_words m dd yy) [])
                 [] [(3%nat, yy); (2%nat, dd); (1%nat, month_name m)]).
  { unfold strptime_re, date_words.
    eapply first_seq; [apply first_grp, month_first, Hm|]. intros q1.
    eapply first_seq.
    { apply (first_plus_cls IGNORECASE false [CSpace] [" "%char]);
        [reflexivity|discriminate|].
      now apply digits_head_not_space. }
    intros q2.
    eapply first_seq; [apply first_grp, day_first; [exact Hd|lia]|]. intros q3.
    eapply first_seq; [apply first_chr; reflexivity|]. intros q4.
    eapply first_seq.
    { apply (first_plus_cls IGNORECASE false [CSpace] [" "%char]);
        [reflexivity|discriminate|].
      rewrite <- (app_nil_r yy). apply digits_head_not_space; [exact Hay|].
      rewrite Ey. discriminate. }
    intros q5. subst yy.
    cbn [all_digits forallb] in Hay.
    apply andb_true_iff in Hay as [Ha Hay]. apply andb_true_iff in Hay as [Hb Hay].
    apply andb_true_iff in Hay as [Hc' Hay]. apply andb_true_iff in Hay as [Hd' _].
    apply (first_grp IGNORECASE 3%nat _ q5 [a; b; c; d] []).
    cbn [app]. unfold digit.
    eapply first_seq; [apply first_cls; now rewrite cls_digit_ci|]. intros q6.
    eapply first_seq; [apply first_cls; now rewrite cls_digit_ci|]. intros q7.
    eapply first_seq; [apply first_cls; now rewrite cls_digit_ci|]. intros q8.
    apply first_cls. now rewrite cls_digit_ci. }
  apply first_match_here in Hf as (x & Ex & Hm0).
  rewrite app_nil_r in Ex. subst x.
  unfold strptime_date, match_. rewrite Hm0. cbn [m_end].
  rewrite Nat.eqb_refl. cbn [negb]. unfold group. cbn [m_caps lookup Nat.eqb].
  rewrite (month_index_name _ Hm).
  rewrite (py_int_of_digits dd Had Hnd).
  replace (int_max_str_digits <? List.length dd)%nat with false
    by (symmetry; apply Nat.ltb_ge; unfold int_max_str_digits; lia).
  rewrite (py_int_of_digits yy Hay) by (rewrite Ey; discriminate).
  replace (int_max_str_digits <? List.length yy)%nat with false
    by (rewrite Ey; reflexivity).
  now apply calendar_make_date.
Qed.

Lemma first_lit w p t cs :
  first_match no_flags (lit_chars w) (MState p (w ++ t) cs) t cs.
Proof.
  exists (p + List.length w)%nat, []. rewrite run_lit. cbn [rest pos caps].
  change (ignorecase no_flags) with false.
  rewrite (starts_with_app_l false w w t (starts_with_refl false w)).
  now rewrite skipn_app, skipn_all, Nat.sub_diag.
Qed.

Lemma space_not_digit c : is_space c = true -> is_digit c = false.
Proof. destruct c as [[] [] [] [] [] [] [] []]; vm_compute; congruence. Qed.

(** [[A-Za-z]+ \d+, \d+] reads a written date first of all, up to the end
    of its last run of digits. *)
Lemma date_text_first m dd yy p tl cs :
  1 <= m <= 12 ->
  all_digits dd = true -> dd <> [] -> all_digits yy = true -> yy <> [] ->
  match tl with c :: _ => is_digit c = false | [] => True end ->
  first_match no_flags date_text_re
    (MState p (date_words m dd yy ++ tl) cs) tl cs.
Proof.
  intros Hm Hd Hnd Hy Hny Htl.
  destruct (month_name_letters m Hm) as [Hl Hlen].
  assert (Hdig : forall u, all_digits u = true ->
            forallb (cls_matches no_flags false [CDigit]) u = true).
  { intros u Hu.
    rewrite (forallb_same _ is_digit); [exact Hu|apply cls_digit_no_flags]. }
  unfold date_words, date_text_re.
  rewrite <- app_assoc. cbn [app]. rewrite <- app_assoc. cbn [app].
  eapply first_seq.
  { apply first_plus_cls; [|destruct (month_name m); [discriminate|discriminate]
                           |reflexivity].
    rewrite (forallb_same _ is_letter); [exact Hl|apply cls_letter_nf]. }
  intros q1. eapply first_seq; [apply first_chr; reflexivity|]. intros q2.
  eapply first_seq; [apply first_plus_cls; [now apply Hdig|exact Hnd|reflexivity]|].
  intros q3. eapply first_seq; [apply first_chr; reflexivity|]. intros q4.
  eapply first_seq; [apply first_chr; reflexivity|]. intros q5.
  apply first_plus_cls; [now apply Hdig|exact Hny|].
  destruct tl as [|c t]; [exact I|]. now rewrite cls_digit_no_flags.
Qed.

Lemma date_words_head m dd yy t :
  1 <= m <= 12 ->
  exists c r, date_words m dd yy ++ t = c :: r /\ is_letter c = true.
Proof.
  intros Hm. destruct (month_name_letters m Hm) as [Hl Hlen].
  unfold date_words. destruct (month_name m) as [|a r]; [discriminate|].
  cbn [forallb] in Hl. apply andb_true_iff in Hl as [Ha _].
  eexists a, _. split; [reflexivity|exact Ha].
Qed.

Lemma written_date_inv m dd yy :
  written_date m dd yy ->
  1 <= m <= 12 /\ all_digits dd = true /\ dd <> []
  /\ all_digits yy = true /\ yy <> [].
Proof.
  intros (Hd & Hy & Hc).
  destruct (day_digits_inv _ Hd) as (Had & Hnd & _).
  destruct (year_digits_inv _ Hy) as (a & b & c & d & Ey & Hay).
  destruct Hc as (_ & Hm & _). cbn [date_of month] in Hm.
  repeat split; auto; try lia. rewrite Ey. discriminate.
Qed.

Lemma spaces_cls ws :
  forallb is_space ws = true ->
  forallb (cls_matches no_flags false [CSpace]) ws = true.
Proof.
  intros H. rewrite (forallb_same _ is_space); [exact H|apply cls_space_nf].
Qed.

Lemma letter_head_not_space s :
  (exists c r, s = c :: r /\ is_letter c = true) ->
  match s with
  | c :: _ => cls_matches no_flags false [CSpace] c = false
  | [] => True
  end.
Proof.
  intros (c & r & -> & Hc). rewrite cls_space_nf. now apply letter_not_space.
Qed.

(** The pattern of [extract_dates] reads two written dates with a dash
    between them first of all, one in each group. *)
Lemma date_pair_first m1 dd1 yy1 m2 dd2 yy2 ws1 ws2 post :
  written_date m1 dd1 yy1 -> written_date m2 dd2 yy2 ->
  forallb is_space ws1 = true -> forallb is_space ws2 = true ->
  no_digit_ahead post ->
  first_match no_flags date_pair_re
    (MState 0 (date_words m1 dd1 yy1 ++ ws1 ++ "-"%char :: ws2
               ++ date_words m2 dd2 yy2 ++ post) [])
    post [(2%nat, date_words m2 dd2 yy2); (1%nat, date_words m1 dd1 yy1)].
Proof.
  intros W1 W2 Hs1 Hs2 Hp.
  destruct (written_date_inv _ _ _ W1) as (Hm1 & Hd1 & Hn1 & Hy1 & Hny1).
  destruct (written_date_inv _ _ _ W2) as (Hm2 & Hd2 & Hn2 & Hy2 & Hny2).
  unfold date_pair_re.
  eapply first_seq.
  { apply first_grp, date_text_first; auto.
    destruct ws1 as [|c r]; [reflexivity|]. cbn [app forallb] in *.
    apply andb_true_iff in Hs1 as [Hc _]. now apply space_not_digit. }
  intros q1. eapply first_seq.
  { apply (first_star_cls no_flags false [CSpace]);
      [now apply spaces_cls|reflexivity]. }
  intros q2. eapply first_seq; [apply first_chr; reflexivity|]. intros q3.
  eapply first_seq.
  { apply (first_star_cls no_flags false [CSpace]); [now apply spaces_cls|].
    apply letter_head_not_space, date_words_head, Hm2. }
  intros q4. apply first_grp, date_text_first; auto.
Qed.

(** A first match at the start of the text is what [re.search] finds. *)
Lemma first_match_search fl r s t cs :
  first_match fl r (MState 0 s []) t cs ->
  exists m, search fl r s = Some m /\ m_caps m = cs.
Proof.
  intros H. apply first_match_here in H as (x & _ & Hm).
  eexists. unfold search. rewrite (search_from_here _ _ _ _ _ _ Hm).
  split; reflexivity.
Qed.

Lemma extract_dates_written m1 dd1 yy1 m2 dd2 yy2 ws1 ws2 post :
  written_date m1 dd1 yy1 -> written_date m2 dd2 yy2 ->
  forallb is_space ws1 = true -> forallb is_space ws2 = true ->
  no_digit_ahead post ->
  extract_dates (date_words m1 dd1 yy1 ++ ws1 ++ "-"%char :: ws2
                 ++ date_words m2 dd2 yy2 ++ post)
  = Ok (Some (date_of m1 dd1 yy1), Some (date_of m2 dd2 yy2)).
Proof.
  intros W1 W2 Hs1 Hs2 Hp.
  destruct (first_match_search _ _ _ _ _
              (date_pair_first _ _ _ _ _ _ _ _ _ W1 W2 Hs1 Hs2 Hp))
    as (m & Hm & Hc).
  destruct (written_date_inv _ _ _ W1) as (Hm1 & _).
  destruct (date_words_head m1 dd1 yy1
              (ws1 ++ "-"%char :: ws2 ++ date_words m2 dd2 yy2 ++ post) Hm1)
    as (c & r & E & _).
  rewrite E in Hm |- *. unfold extract_dates. rewrite Hm.
  unfold group. rewrite Hc. cbn [lookup Nat.eqb].
  destruct W1 as (D1 & Y1 & C1). destruct W2 as (D2 & Y2 & C2).
  rewrite (strptime_date_words _ _ _ D1 Y1 C1).
  rewrite (strptime_date_words _ _ _ D2 Y2 C2). reflexivity.
Qed.

(** The pattern of the dates step reads the range that follows the anchor
    at the head of the block. *)
Lemma offer_date_first m1 dd1 yy1 m2 dd2 yy2 ws post :
  written_date m1 dd1 yy1 -> written_date m2 dd2 yy2 ->
  forallb is_space ws = true -> no_digit_ahead post ->
  first_match no_flags offer_date_re
    (MState 0 (str "Offer Date:" ++ ws ++ date_words m1 dd1 yy1 ++ str " - "
               ++ date_words m2 dd2 yy2 ++ post) [])
    post [(1%nat, date_words m1 dd1 yy1 ++ str " - " ++ date_words m2 dd2 yy2)].
Proof.
  intros W1 W2 Hs Hp.
  destruct (written_date_inv _ _ _ W1) as (Hm1 & Hd1 & Hn1 & Hy1 & Hny1).
  destruct (written_date_inv _ _ _ W2) as (Hm2 & Hd2 & Hn2 & Hy2 & Hny2).
  unfold offer_date_re, lit.
  eapply first_seq; [apply first_lit|]. intros q1.
  eapply first_seq.
  { apply (first_star_cls no_flags false [CSpace]); [now apply spaces_cls|].
    apply letter_head_not_space, date_words_head, Hm1. }
  intros q2.
  replace (date_words m1 dd1 yy1 ++ str " - " ++ date_words m2 dd2 yy2 ++ post)
    with ((date_words m1 dd1 yy1 ++ str " - " ++ date_words m2 dd2 yy2) ++ post)
    by (now rewrite <- !app_assoc).
  apply first_grp. rewrite <- !app_assoc. unfold date_range_re, lit.
  eapply first_seq; [apply date_text_first; auto; reflexivity|]. intros q3.
  eapply first_seq; [apply first_lit|]. intros q4.
  apply date_text_first; auto.
Qed.

(** X13.  Dates written the way the page writes them are read back.
    [extract_dates] on "<Mon> <d>, <yyyy> - <Mon> <d>, <yyyy>" (month
    abbreviations Jan to Dec, days of one or two digits, years of four,
    any whitespace or none around the dash, anything but a digit after the
    second year) gives exactly the two days written, whenever they exist in
    the calendar.  And a block whose text begins with "Offer Date:" and such
    a range, with " - " between the two dates, gets these two days as
    [offer_start_date] and [offer_end_date]. *)
Theorem X13_written_dates_are_read_back :
  (forall m1 dd1 yy1 m2 dd2 yy2 ws1 ws2 post,
     written_date m1 dd1 yy1 -> written_date m2 dd2 yy2 ->
     forallb is_space ws1 = true -> forallb is_space ws2 = true ->
     no_digit_ahead post ->
     extract_dates (date_words m1 dd1 yy1 ++ ws1 ++ "-"%char :: ws2
                    ++ date_words m2 dd2 yy2 ++ post)
     = Ok (Some (date_of m1 dd1 yy1), Some (date_of m2 dd2 yy2)))
  /\ (forall block d m1 dd1 yy1 m2 dd2 yy2 ws post,
        parse_fields block = Ok d ->
        written_date m1 dd1 yy1 -> written_date m2 dd2 yy2 ->
        forallb is_space ws = true -> no_digit_ahead post ->
        strip block = str "Offer Date:" ++ ws ++ date_words m1 dd1 yy1
                      ++ str " - " ++ date_words m2 dd2 yy2 ++ post ->
        offer_start_date d = Some (date_of m1 dd1 yy1)
        /\ offer_end_date d = Some (date_of m2 dd2 yy2)).
Proof.
  split; [exact extract_dates_written|].
  intros block d m1 dd1 yy1 m2 dd2 yy2 ws post H W1 W2 Hs Hp E.
  apply parse_fields_inv in H as (_ & Hdates & _). rewrite E in Hdates.
  destruct (first_match_search _ _ _ _ _
              (offer_date_first _ _ _ _ _ _ _ _ W1 W2 Hs Hp)) as (m & Hm & Hc).
  unfold block_dates in Hdates. rewrite Hm in Hdates.
  unfold group in Hdates. rewrite Hc in Hdates. cbn [lookup Nat.eqb] in Hdates.
  pose proof (extract_dates_written m1 dd1 yy1 m2 dd2 yy2
                [" "%char] [" "%char] [] W1 W2 eq_refl eq_refl I) as Hx.
  rewrite app_nil_r in Hx.
  change (date_words m1 dd1 yy1 ++ [" "%char] ++ "-"%char :: [" "%char]
          ++ date_words m2 dd2 yy2)
    with (date_words m1 dd1 yy1 ++ str " - " ++ date_words m2 dd2 yy2) in Hx.
  rewrite Hx in Hdates. injection Hdates as <- <-. split; reflexivity.
Qed.

Lemma X13_witness :
  extract_dates (date_words 8 (str "4") (str "2025") ++ str " " ++ "-"%char
                 :: str " " ++ date_words 8 (str "6") (str "2025") ++ [])
  = Ok (Some (date_of 8 (str "4") (str "2025")),
        Some (date_of 8 (str "6") (str "2025"))).
Proof.
  apply (proj1 X13_written_dates_are_read_back
           8 (str "4") (str "2025") 8 (str "6") (str "2025")
           (str " ") (str " ") []).
  - split; [reflexivity|]. split; [reflexivity|]. vm_compute.
    repeat split; discriminate.
  - split; [reflexivity|]. split; [reflexivity|]. vm_compute.
    repeat split; discriminate.
  - reflexivity.
  - reflexivity.
  - exact I.
Defined.

(** ** The first occurrence of a field *)

Lemma first_eps fl p t cs : first_match fl Eps (MState p t cs) t cs.
Proof. now exists p, []. Qed.

Lemma first_match_at fl r p s t cs :
  first_match fl r (MState p s []) t cs ->
  exists x, s = x ++ t
            /\ match_here fl r false p s = Some (RMatch p (p + List.length x) cs).
Proof.
  intros (q & l & H).
  assert (Hin : In (MState q t cs) (run fl r (MState p s [])))
    by (rewrite H; now left).
  destruct (run_sound _ _ _ _ Hin) as (u & [Hu1 Hu2] & _).
  cbn [rest pos] in Hu1, Hu2. exists u. split; [exact Hu1|].
  unfold match_here. rewrite filter_true, H. cbn [pos caps]. now rewrite Hu2.
Qed.

(** A search passes over the text in which the word does not begin. *)
Lemma search_from_word_first w r suf : forall pre p,
  word_ahead w pre suf = false ->
  search_from no_flags (lit_chars w ;; r) false p (pre ++ suf)
  = search_from no_flags (lit_chars w ;; r) false (p + List.length pre) suf.
Proof.
  induction pre as [|c t IH]; intros p H.
  - cbn [app List.length]. now rewrite Nat.add_0_r.
  - cbn [word_ahead] in H. apply orb_false_iff in H as [Hs Ht].
    cbn [app search_from]. unfold match_here. rewrite run_lit_seq. cbn [rest].
    change (ignorecase no_flags) with false.
    cbn [app] in Hs. rewrite Hs. cbn [filter].
    rewrite (IH (S p) Ht). cbn [List.length]. f_equal. lia.
Qed.

(** The match of "a word, then more" at the first place where the word
    begins. *)
Lemma search_word_first w r pre rest t cs :
  word_ahead w pre (w ++ rest) = false ->
  (forall q, first_match no_flags r (MState q rest []) t cs) ->
  exists m, search no_flags (lit_chars w ;; r) (pre ++ w ++ rest) = Some m
            /\ m_caps m = cs.
Proof.
  intros Hw Hr.
  assert (Hf : first_match no_flags (lit_chars w ;; r)
                 (MState (0 + List.length pre) (w ++ rest) []) t cs).
  { eapply first_seq; [apply first_lit|exact Hr]. }
  apply first_match_at in Hf as (x & _ & Hm).
  eexists. unfold search. rewrite (search_from_word_first _ _ _ _ _ Hw).
  rewrite (search_from_here _ _ _ _ _ _ Hm). split; reflexivity.
Qed.

Lemma digits_cls u :
  all_digits u = true -> forallb (cls_matches no_flags false [CDigit]) u = true.
Proof.
  intros Hu. rewrite (forallb_same _ is_digit); [exact Hu|apply cls_digit_no_flags].
Qed.

Lemma no_digit_cls t :
  no_digit_ahead t ->
  match t with
  | c :: _ => cls_matches no_flags false [CDigit] c = false
  | [] => True
  end.
Proof.
  destruct t as [|c r]; [trivial|]. unfold no_digit_ahead. intros H.
  now rewrite cls_digit_no_flags.
Qed.

(** [(\d+(?:-\d+)?)] on a number that no digit and no dash follows. *)
Lemma number_first d1 post q :
  all_digits d1 = true -> d1 <> [] -> no_number_ahead post ->
  first_match no_flags (Grp 1 (plus digit ;; opt (Chr "-" ;; plus digit)))
    (MState q (d1 ++ post) []) post [(1%nat, d1)].
Proof.
  intros Hd Hn Hp. apply first_grp.
  eapply first_seq.
  { apply first_plus_cls; [now apply digits_cls|exact Hn|].
    apply no_digit_cls. destruct post as [|c r]; [exact I|]. exact (proj1 Hp). }
  intros q1. apply first_alt_r; [|apply first_eps].
  cbn [run]. destruct post as [|c r]; [now rewrite step_if_nil|].
  rewrite step_if_cons. destruct Hp as [_ Hc].
  change (chr_matches no_flags "-" c) with (Ascii.eqb "-" c).
  destruct (Ascii.eqb_spec "-" c) as [E|_]; [now subst c|reflexivity].
Qed.

(** [(\d+(?:-\d+)?)] on a range of two numbers that no digit follows. *)
Lemma range_first d1 d2 post q :
  all_digits d1 = true -> d1 <> [] -> all_digits d2 = true -> d2 <> [] ->
  no_digit_ahead post ->
  first_match no_flags (Grp 1 (plus digit ;; opt (Chr "-" ;; plus digit)))
    (MState q ((d1 ++ "-"%char :: d2) ++ post) []) post
    [(1%nat, d1 ++ "-"%char :: d2)].
Proof.
  intros H1 N1 H2 N2 Hp. apply first_grp. rewrite <- app_assoc. cbn [app].
  eapply first_seq.
  { apply first_plus_cls; [now apply digits_cls|exact N1|reflexivity]. }
  intros q1. apply first_alt_l.
  eapply first_seq; [apply first_chr; reflexivity|]. intros q2.
  apply first_plus_cls; [now apply digits_cls|exact N2|now apply no_digit_cls].
Qed.

Lemma py_int_short ds :
  all_digits ds = true -> ds <> [] ->
  (List.length ds <= int_max_str_digits)%nat ->
  py_int ds = Some (decimal_value 0 ds).
Proof.
  intros Hd Hn Hl. rewrite (py_int_of_digits _ Hd Hn).
  replace (int_max_str_digits <? List.length ds)%nat with false; [reflexivity|].
  symmetry. apply Nat.ltb_ge. exact Hl.
Qed.

(** X14.  The block parser reads the lot size and the price at the first
    place where the words "Lot Size" and "Offer Price" begin.  When digits
    follow "Lot Size", [lot_size] is their decimal value.  When a number
    follows "Offer Price", both price fields are its value; when two numbers
    with a dash between follow, the fields are their values in that order.
    A first number of value 0 leaves both price fields [None].  (The numbers
    have at most 4300 digits, and run up to a character that is no
    digit.) *)
Theorem X14_price_and_lot_at_first_occurrence :
  (forall block d pre ds post,
     parse_fields block = Ok d ->
     strip block = pre ++ str "Lot Size" ++ ds ++ post ->
     word_ahead (str "Lot Size") pre (str "Lot Size" ++ ds ++ post) = false ->
     all_digits ds = true -> ds <> [] ->
     (List.length ds <= int_max_str_digits)%nat ->
     no_digit_ahead post ->
     lot_size d = Some (decimal_value 0 ds))
  /\ (forall block d pre d1 post,
        parse_fields block = Ok d ->
        strip block = pre ++ str "Offer Price" ++ d1 ++ post ->
        word_ahead (str "Offer Price") pre (str "Offer Price" ++ d1 ++ post)
        = false ->
        all_digits d1 = true -> d1 <> [] ->
        (List.length d1 <= int_max_str_digits)%nat ->
        no_number_ahead post ->
        (offer_price_min d, offer_price_max d)
        = if decimal_value 0 d1 =? 0 then (None, None)
          else (Some (decimal_value 0 d1), Some (decimal_value 0 d1)))
  /\ (forall block d pre d1 d2 post,
        parse_fields block = Ok d ->
        strip block
        = pre ++ str "Offer Price" ++ (d1 ++ "-"%char :: d2) ++ post ->
        word_ahead (str "Offer Price") pre
          (str "Offer Price" ++ (d1 ++ "-"%char :: d2) ++ post) = false ->
        all_digits d1 = true -> d1 <> [] ->
        (List.length d1 <= int_max_str_digits)%nat ->
        all_digits d2 = true -> d2 <> [] ->
        (List.length d2 <= int_max_str_digits)%nat ->
        no_digit_ahead post ->
        (offer_price_min d, offer_price_max d)
        = if decimal_value 0 d1 =? 0 then (None, None)
          else (Some (decimal_value 0 d1), Some (decimal_value 0 d2))).
Proof.
  split; [|split].
  - intros block d pre ds post H E Hw Hd Hn Hl Hp.
    apply parse_fields_inv in H as (_ & _ & _ & Hlot & _). rewrite E in Hlot.
    destruct (search_word_first (str "Lot Size") (Grp 1 (plus digit)) pre
                (ds ++ post) post [(1%nat, ds)] Hw) as (m & Hm & Hc).
    { intros q. apply first_grp.
      apply first_plus_cls; [now apply digits_cls|exact Hn|now apply no_digit_cls]. }
    unfold block_lot_size, lot_size_re, lit in Hlot. rewrite Hm in Hlot.
    unfold group in Hlot. rewrite Hc in Hlot. cbn [lookup Nat.eqb] in Hlot.
    rewrite (py_int_short _ Hd Hn Hl) in Hlot. now injection Hlot as <-.
  - intros block d pre d1 post H E Hw Hd Hn Hl Hp.
    apply parse_fields_inv in H as (_ & _ & Hprice & _). rewrite E in Hprice.
    destruct (search_word_first (str "Offer Price")
                (Grp 1 (plus digit ;; opt (Chr "-" ;; plus digit))) pre
                (d1 ++ post) post [(1%nat, d1)] Hw) as (m & Hm & Hc).
    { intros q. now apply number_first. }
    unfold block_price, offer_price_re, lit in Hprice. rewrite Hm in Hprice.
    unfold group in Hprice. rewrite Hc in Hprice. cbn [lookup Nat.eqb] in Hprice.
    rewrite (extract_price_number _ Hd Hn), (py_int_short _ Hd Hn Hl) in Hprice.
    rewrite <- Hprice. now destruct (decimal_value 0 d1 =? 0).
  - intros block d pre d1 d2 post H E Hw H1 N1 L1 H2 N2 L2 Hp.
    apply parse_fields_inv in H as (_ & _ & Hprice & _). rewrite E in Hprice.
    destruct (search_word_first (str "Offer Price")
                (Grp 1 (plus digit ;; opt (Chr "-" ;; plus digit))) pre
                ((d1 ++ "-"%char :: d2) ++ post) post
                [(1%nat, d1 ++ "-"%char :: d2)] Hw) as (m & Hm & Hc).
    { intros q. now apply range_first. }
    unfold block_price, offer_price_re, lit in Hprice. rewrite Hm in Hprice.
    unfold group in Hprice. rewrite Hc in Hprice. cbn [lookup Nat.eqb] in Hprice.
    rewrite (extract_price_range _ _ H1 H2), (py_int_short _ H1 N1 L1),
      (py_int_short _ H2 N2 L2) in Hprice.
    rewrite <- Hprice. now destruct (decimal_value 0 d1 =? 0).
Qed.

Lemma X14_witness :
  lot_size sample_record = Some (decimal_value 0 (str "100")).
Proof.
  apply (proj1 X14_price_and_lot_at_first_occurrence sample_block sample_record
           (str "Offer Date: Aug 4, 2025 - Aug 6, 2025Offer Price160-170")
           (str "100")
           (str "No of Apps: 4624 | 13.39 timesExp. Premium24-25 (32%)View Check AllotmentHighway Infrastructure Limited")).
  - vm_compute. reflexivity.
  - vm_compute. reflexivity.
  - vm_compute. reflexivity.
  - reflexivity.
  - discriminate.
  - vm_compute. lia.
  - reflexivity.
Defined.

(** * The fields, pinned to the text *)

(** ** The leftmost match *)

Lemma match_here_none_run fl r p s :
  match_here fl r false p s = None -> run fl r (MState p s []) = [].
Proof.
  unfold match_here. rewrite filter_true.
  destruct (run fl r (MState p s [])); [reflexivity|discriminate].
Qed.

Lemma match_here_start fl r ma p s m :
  match_here fl r ma p s = Some m -> m_start m = p.
Proof.
  unfold match_here. destruct (filter _ _); [discriminate|]. now intros [= <-].
Qed.

Lemma search_from_leftmost fl r : forall s p m s',
  search_from fl r false p s = Some (m, s') ->
  exists pre suf,
    s = pre ++ suf
    /\ match_here fl r false (p + List.length pre) suf = Some m
    /\ forall i, (i < List.length pre)%nat ->
                 run fl r (MState (p + i) (skipn i s) []) = [].
Proof.
  induction s as [|c t IH]; intros p m s' H; cbn [search_from] in H.
  - destruct (match_here fl r false p []) as [m0|] eqn:E; [|discriminate].
    injection H as <- _. exists [], []. cbn [List.length app].
    rewrite Nat.add_0_r. split; [reflexivity|]. split; [exact E|].
    intros i Hi. lia.
  - destruct (match_here fl r false p (c :: t)) as [m0|] eqn:E.
    + injection H as <- _. exists [], (c :: t). cbn [List.length app].
      rewrite Nat.add_0_r. split; [reflexivity|]. split; [exact E|].
      intros i Hi. lia.
    + destruct (IH _ _ _ H) as (pre & suf & -> & Hm & Hb).
      exists (c :: pre), suf. cbn [List.length app].
      split; [reflexivity|]. split; [now rewrite Nat.add_succ_r|].
      intros [|j] Hj.
      * rewrite Nat.add_0_r. cbn [skipn]. now apply match_here_none_run.
      * rewrite Nat.add_succ_r. cbn [skipn]. apply Hb. lia.
Qed.

(** For a flat pattern, whether it matches does not depend on where the
    text stands. *)
Lemma run_nil_shift fl r p q s cs cs' :
  flat r = true ->
  run fl r (MState p s cs) = [] -> run fl r (MState q s cs') = [].
Proof.
  intros Hf H. destruct (run fl r (MState q s cs')) as [|st l] eqn:E;
    [reflexivity|]. exfalso.
  assert (Hin : In st (run fl r (MState q s cs'))) by (rewrite E; now left).
  destruct (run_sound _ _ _ _ Hin) as (u & [Hu _] & Lu). cbn [rest] in Hu.
  destruct (flat_reads fl r u Hf Lu p (rest st) cs) as (c' & I).
  rewrite <- Hu, H in I. destruct I.
Qed.

(** What [re.search] finds stands at the first place where [re.match]
    succeeds, and is the match of that place. *)
Lemma search_leftmost fl r s m :
  flat r = true -> search fl r s = Some m ->
  exists pre suf,
    s = pre ++ suf /\ first_place fl r pre suf
    /\ match_here fl r false (List.length pre) suf = Some m.
Proof.
  intros Hf H. unfold search in H.
  destruct (search_from fl r false 0 s) as [[m' s']|] eqn:E; [|discriminate].
  injection H as ->.
  destruct (search_from_leftmost _ _ _ _ _ _ E) as (pre & suf & -> & Hm & Hb).
  exists pre, suf. split; [reflexivity|]. split; [|exact Hm].
  intros i Hi. unfold match_, match_here. rewrite filter_true.
  rewrite (run_nil_shift fl r (0 + i) 0 _ [] [] Hf (Hb i Hi)). reflexivity.
Qed.

Lemma match_here_first fl r p s m t cs :
  match_here fl r false p s = Some m ->
  first_match fl r (MState p s []) t cs -> m_caps m = cs.
Proof.
  intros H Hf. apply first_match_at in Hf as (x & _ & Hm).
  rewrite Hm in H. now injection H as <-.
Qed.

(** The converse: a first match at the first place is what [re.search]
    finds. *)
Lemma search_at_first_place fl r pre suf t cs :
  flat r = true -> first_place fl r pre suf ->
  first_match fl r (MState (List.length pre) suf []) t cs ->
  exists m, search fl r (pre ++ suf) = Some m /\ m_caps m = cs.
Proof.
  intros Hf Hp Hm. apply first_match_at in Hm as (x & _ & Hm).
  eexists. unfold search. rewrite search_from_walk.
  - cbn [Nat.add]. rewrite (search_from_here _ _ _ _ _ _ Hm).
    split; reflexivity.
  - intros i Hi. specialize (Hp i Hi). unfold match_ in Hp.
    apply match_here_none_run in Hp.
    exact (run_nil_shift fl r 0 (0 + i) _ [] [] Hf Hp).
Qed.

(** A match begins with a text of the pattern. *)
Lemma match_here_lang fl r p s m :
  match_here fl r false p s = Some m ->
  exists u v, s = u ++ v /\ lang fl r u.
Proof.
  unfold match_here. rewrite filter_true.
  destruct (run fl r (MState p s [])) as [|st l] eqn:E; [discriminate|].
  intros _.
  assert (Hin : In st (run fl r (MState p s []))) by (rewrite E; now left).
  destruct (run_sound _ _ _ _ Hin) as (u & [Hu _] & Lu). cbn [rest] in Hu.
  now exists u, (rest st).
Qed.

(** ** Whole numbers *)

(** The longest beginning of a text whose characters pass a test. *)
Lemma span (p : ascii -> bool) s :
  exists u v, s = u ++ v /\ forallb p u = true
              /\ match v with c :: _ => p c = false | [] => True end.
Proof.
  destruct (drop_while_split p s) as (u & Hu & Hp).
  exists u, (drop_while p s). split; [exact Hu|]. split; [exact Hp|].
  apply drop_while_head.
Qed.

(** A text that begins with a digit begins with a whole number. *)
Lemma digits_span c t :
  is_digit c = true ->
  exists ds post, c :: t = ds ++ post /\ all_digits ds = true /\ ds <> []
                  /\ no_digit_ahead post.
Proof.
  intros Hc. destruct (span is_digit (c :: t)) as (u & v & E & Hu & Hv).
  exists u, v. split; [exact E|]. split; [exact Hu|]. split; [|exact Hv].
  intros ->. cbn [app] in E. subst v. congruence.
Qed.

Lemma lang_lit_eq w : forall u, lang no_flags (lit_chars w) u -> u = w.
Proof.
  intros u H. apply lang_lit in H as [Hl Hs].
  change (ignorecase no_flags) with false in Hs.
  apply starts_with_exact in Hs.
  rewrite <- Hl, skipn_all, app_nil_r in Hs. exact Hs.
Qed.

Lemma lang_chr_eq a u : lang no_flags (Chr a) u -> u = [a].
Proof.
  intros H. inversion H as [| p0 c0 Hc | | | | | | | | | | |]; subst.
  change (chr_matches no_flags a c0) with (Ascii.eqb a c0) in Hc.
  now apply Ascii.eqb_eq in Hc as <-.
Qed.

Lemma lang_grp_inv fl n r u : lang fl (Grp n r) u -> lang fl r u.
Proof. intros H. now inversion H. Qed.

Lemma lot_first ds post q :
  all_digits ds = true -> ds <> [] -> no_digit_ahead post ->
  first_match no_flags lot_size_re
    (MState q (str "Lot Size" ++ ds ++ post) []) post [(1%nat, ds)].
Proof.
  intros Hd Hn Hp. unfold lot_size_re, lit.
  eapply first_seq; [apply first_lit|]. intros q1. apply first_grp.
  apply first_plus_cls; [now apply digits_cls|exact Hn|now apply no_digit_cls].
Qed.

Lemma lot_shape s :
  (exists u v, s = u ++ v /\ lang no_flags lot_size_re u) ->
  exists ds post,
    s = str "Lot Size" ++ ds ++ post
    /\ all_digits ds = true /\ ds <> [] /\ no_digit_ahead post.
Proof.
  intros (u & v & -> & L). unfold lot_size_re, lit in L.
  apply lang_seq_inv in L as (w & g & -> & Lw & Lg).
  apply lang_lit_eq in Lw as ->. apply lang_grp_inv, lang_plus_digit in Lg.
  destruct Lg as [Hd Hn]. destruct g as [|c t]; [congruence|].
  cbn [all_digits forallb] in Hd. apply andb_true_iff in Hd as [Hc _].
  destruct (digits_span c (t ++ v) Hc) as (ds & post & E & H1 & H2 & H3).
  exists ds, post. rewrite <- app_assoc. cbn [app]. rewrite E. auto.
Qed.

(** What the search for [Lot Size(\d+)] finds: the whole number behind the
    first "Lot Size" that has a digit behind it. *)
Lemma lot_size_found ft m :
  search no_flags lot_size_re ft = Some m ->
  exists pre ds post,
    ft = pre ++ str "Lot Size" ++ ds ++ post
    /\ first_place no_flags lot_size_re pre (str "Lot Size" ++ ds ++ post)
    /\ all_digits ds = true /\ ds <> [] /\ no_digit_ahead post
    /\ group 1 m = Some ds.
Proof.
  intros H.
  destruct (search_leftmost no_flags lot_size_re _ _ eq_refl H) as (pre & suf & -> & Hp & Hm).
  destruct (lot_shape suf (match_here_lang _ _ _ _ _ Hm))
    as (ds & post & -> & Hd & Hn & Hpost).
  exists pre, ds, post. split; [reflexivity|]. split; [exact Hp|].
  split; [exact Hd|]. split; [exact Hn|]. split; [exact Hpost|].
  unfold group.
  now rewrite (match_here_first _ _ _ _ _ _ _ Hm (lot_first ds post _ Hd Hn Hpost)).
Qed.

Lemma run_dash_none q t cs :
  number_ends t ->
  run no_flags (Chr "-" ;; plus digit) (MState q t cs) = [].
Proof.
  intros H. cbn [run]. destruct t as [|c t']; [now rewrite step_if_nil|].
  rewrite step_if_cons. destruct H as [_ Hc].
  change (chr_matches no_flags "-" c) with (Ascii.eqb "-" c).
  destruct (Ascii.eqb_spec "-" c) as [E|_]; [|reflexivity].
  cbn [flat_map]. rewrite app_nil_r. unfold plus, digit.
  apply run_plus_cls_none. symmetry in E. specialize (Hc E).
  destruct t' as [|c' r]; [exact I|]. now rewrite cls_digit_no_flags.
Qed.

Lemma quoted_number_first g tl q cs :
  quoted_number g tl ->
  first_match no_flags (Grp 1 (plus digit ;; opt (Chr "-" ;; plus digit)))
    (MState q (g ++ tl) cs) tl ((1%nat, g) :: cs).
Proof.
  intros (Hd & Hn & Hp). apply first_grp.
  eapply first_seq.
  { apply first_plus_cls; [now apply digits_cls|exact Hn|].
    apply no_digit_cls. destruct tl as [|c r]; [exact I|]. exact (proj1 Hp). }
  intros q1. apply first_alt_r; [now apply run_dash_none|apply first_eps].
Qed.

Lemma quoted_range_first d1 d2 tl q cs :
  quoted_range d1 d2 tl ->
  first_match no_flags (Grp 1 (plus digit ;; opt (Chr "-" ;; plus digit)))
    (MState q ((d1 ++ "-"%char :: d2) ++ tl) cs) tl
    ((1%nat, d1 ++ "-"%char :: d2) :: cs).
Proof.
  intros (H1 & N1 & H2 & N2 & Hp). apply first_grp.
  rewrite <- app_assoc. cbn [app].
  eapply first_seq.
  { apply first_plus_cls; [now apply digits_cls|exact N1|reflexivity]. }
  intros q1. apply first_alt_l.
  eapply first_seq; [apply first_chr; reflexivity|]. intros q2.
  apply first_plus_cls; [now apply digits_cls|exact N2|now apply no_digit_cls].
Qed.

(** A text that begins with a digit begins with a whole number or with a
    whole range. *)
Lemma quoted_shape c t :
  is_digit c = true ->
  exists g tl,
    c :: t = g ++ tl
    /\ (quoted_number g tl
        \/ exists d1 d2, g = d1 ++ "-"%char :: d2 /\ quoted_range d1 d2 tl).
Proof.
  intros Hc. destruct (digits_span c t Hc) as (d1 & r1 & E & H1 & N1 & P1).
  assert (Hsingle : number_ends r1 ->
    exists g tl, c :: t = g ++ tl
      /\ (quoted_number g tl
          \/ exists d1 d2, g = d1 ++ "-"%char :: d2 /\ quoted_range d1 d2 tl)).
  { intros Hne. exists d1, r1. split; [exact E|]. left. now split. }
  destruct r1 as [|a [|b r2]].
  - apply Hsingle. exact I.
  - apply Hsingle. split; [exact P1|]. intros _. exact I.
  - destruct (Ascii.eqb_spec a "-") as [->|Ha].
    + destruct (is_digit b) eqn:Hb.
      * destruct (digits_span b r2 Hb) as (d2 & post & E2 & H2 & N2 & P2).
        exists (d1 ++ "-"%char :: d2), post. split.
        { rewrite E, E2, <- app_assoc. reflexivity. }
        right. exists d1, d2. split; [reflexivity|]. repeat split; auto.
      * apply Hsingle. split; [exact P1|]. intros _. exact Hb.
    + apply Hsingle. split; [exact P1|]. intros Ea. contradiction.
Qed.

Lemma offer_price_first g post q :
  quoted_number g post
  \/ (exists d1 d2, g = d1 ++ "-"%char :: d2 /\ quoted_range d1 d2 post) ->
  first_match no_flags offer_price_re
    (MState q (str "Offer Price" ++ g ++ post) []) post [(1%nat, g)].
Proof.
  intros H. unfold offer_price_re, lit.
  eapply first_seq; [apply first_lit|]. intros q1.
  destruct H as [H|(d1 & d2 & -> & H)].
  - now apply quoted_number_first.
  - now apply quoted_range_first.
Qed.

Lemma offer_price_shape s :
  (exists u v, s = u ++ v /\ lang no_flags offer_price_re u) ->
  exists g post,
    s = str "Offer Price" ++ g ++ post
    /\ (quoted_number g post
        \/ exists d1 d2, g = d1 ++ "-"%char :: d2 /\ quoted_range d1 d2 post).
Proof.
  intros (u & v & -> & L). unfold offer_price_re, lit in L.
  apply lang_seq_inv in L as (w & g & -> & Lw & Lg).
  apply lang_lit_eq in Lw as ->.
  apply lang_grp_inv, lang_number_or_range in Lg.
  destruct Lg as (d1 & Hd & Hn & Hg).
  assert (Hh : exists c t, g = c :: t /\ is_digit c = true).
  { destruct d1 as [|c t]; [congruence|].
    cbn [all_digits forallb] in Hd. apply andb_true_iff in Hd as [Hc _].
    destruct Hg as [->|(d2 & _ & _ & ->)]; eexists c, _; (split; [reflexivity|exact Hc]). }
  destruct Hh as (c & t & -> & Hc).
  destruct (quoted_shape c (t ++ v) Hc) as (g & tl & E & Hq).
  exists g, tl. rewrite <- app_assoc. cbn [app]. rewrite E. auto.
Qed.

(** What the search for [Offer Price(\d+(?:-\d+)?)] finds: the whole
    number, or the whole range, behind the first "Offer Price" that has a
    digit behind it. *)
Lemma offer_price_found ft m :
  search no_flags offer_price_re ft = Some m ->
  exists pre g post,
    ft = pre ++ str "Offer Price" ++ g ++ post
    /\ first_place no_flags offer_price_re pre (str "Offer Price" ++ g ++ post)
    /\ (quoted_number g post
        \/ exists d1 d2, g = d1 ++ "-"%char :: d2 /\ quoted_range d1 d2 post)
    /\ group 1 m = Some g.
Proof.
  intros H.
  destruct (search_leftmost no_flags offer_price_re _ _ eq_refl H) as (pre & suf & -> & Hp & Hm).
  destruct (offer_price_shape suf (match_here_lang _ _ _ _ _ Hm))
    as (g & post & -> & Hq).
  exists pre, g, post. split; [reflexivity|]. split; [exact Hp|].
  split; [exact Hq|]. unfold group.
  now rewrite (match_here_first _ _ _ _ _ _ _ Hm (offer_price_first g post _ Hq)).
Qed.

Lemma offer_price_at pre g post :
  first_place no_flags offer_price_re pre (str "Offer Price" ++ g ++ post) ->
  quoted_number g post
  \/ (exists d1 d2, g = d1 ++ "-"%char :: d2 /\ quoted_range d1 d2 post) ->
  exists m, search no_flags offer_price_re (pre ++ str "Offer Price" ++ g ++ post)
            = Some m /\ group 1 m = Some g.
Proof.
  intros Hp Hq.
  destruct (search_at_first_place no_flags offer_price_re _ _ _ _ eq_refl Hp
              (offer_price_first g post _ Hq)) as (m & Hm & Hc).
  exists m. split; [exact Hm|]. unfold group. now rewrite Hc.
Qed.

(** The price step on a text whose first quoted price is [g]. *)
Lemma block_price_at pre g post :
  first_place no_flags offer_price_re pre (str "Offer Price" ++ g ++ post) ->
  quoted_number g post
  \/ (exists d1 d2, g = d1 ++ "-"%char :: d2 /\ quoted_range d1 d2 post) ->
  block_price (pre ++ str "Offer Price" ++ g ++ post)
  = match extract_price g with
    | (Some min_price, max_price) =>
        if min_price =? 0 then (None, None) else (Some min_price, max_price)
    | (None, _) => (None, None)
    end.
Proof.
  intros Hp Hq. destruct (offer_price_at _ _ _ Hp Hq) as (m & Hm & Hg).
  unfold block_price. now rewrite Hm, Hg.
Qed.

(** X2.  The lot size of a parsed block is the whole number that stands
    right behind the first "Lot Size" of the text that has a digit behind
    it: [re.match] of the pattern fails at every earlier place, the digits
    run up to a character that is no digit, there are at most 4300 of them,
    and [lot_size] is their decimal value, never negative. *)
Theorem X2_lot_size_as_quoted :
  forall block d l,
    parse_fields block = Ok d -> lot_size d = Some l ->
    exists pre ds post,
      strip block = pre ++ str "Lot Size" ++ ds ++ post
      /\ first_place no_flags lot_size_re pre (str "Lot Size" ++ ds ++ post)
      /\ all_digits ds = true /\ ds <> [] /\ no_digit_ahead post
      /\ (List.length ds <= int_max_str_digits)%nat
      /\ l = decimal_value 0 ds /\ 0 <= l.
Proof.
  intros block d l H Hl.
  apply parse_fields_inv in H as (_ & _ & _ & Hlot & _).
  rewrite Hl in Hlot. unfold block_lot_size in Hlot.
  destruct (search no_flags lot_size_re (strip block)) as [m|] eqn:Es;
    [|discriminate].
  destruct (lot_size_found _ _ Es) as (pre & ds & post & E & Hp & Hd & Hn & Hpost & Hg).
  rewrite Hg in Hlot. injection Hlot as Hi.
  destruct (py_int_digits _ _ Hd Hi) as (Hv & _ & Hlen).
  exists pre, ds, post.
  split; [exact E|]. split; [exact Hp|]. split; [exact Hd|].
  split; [exact Hn|]. split; [exact Hpost|]. split; [exact Hlen|].
  split; [exact Hv|].
  apply (py_int_nonneg _ _ Hi), all_digits_no_dash, Hd.
Qed.

Lemma X2_witness :
  exists pre ds post,
    strip sample_block = pre ++ str "Lot Size" ++ ds ++ post
    /\ first_place no_flags lot_size_re pre (str "Lot Size" ++ ds ++ post)
    /\ all_digits ds = true /\ ds <> [] /\ no_digit_ahead post
    /\ (List.length ds <= int_max_str_digits)%nat
    /\ 100 = decimal_value 0 ds /\ 0 <= 100.
Proof.
  apply (X2_lot_size_as_quoted sample_block sample_record 100).
  - vm_compute. reflexivity.
  - reflexivity.
Defined.

(** C3, as the code has it.  The price step does no reordering.  When both
    fields are present, they are read from the whole number or the whole
    range that stands right behind the first "Offer Price" of the text that
    has a digit behind it ([re.match] of the pattern fails at every earlier
    place): a single number is stored in both fields, so the two are equal;
    of a range the first number is the minimum and the second the maximum,
    as they stand.  Conversely such a range, its first number not 0, always
    gives these two fields, so [offer_price_max >= offer_price_min] holds
    exactly when the text quotes the pair in ascending order, and a single
    number, not 0, gives two equal fields. *)
Theorem C3_price_fields_in_source_order :
  (forall block d a b,
     parse_fields block = Ok d ->
     offer_price_min d = Some a -> offer_price_max d = Some b ->
     exists pre g post,
       strip block = pre ++ str "Offer Price" ++ g ++ post
       /\ first_place no_flags offer_price_re pre
            (str "Offer Price" ++ g ++ post)
       /\ ((quoted_number g post /\ a = decimal_value 0 g /\ b = a)
           \/ (exists d1 d2,
                 g = d1 ++ "-"%char :: d2 /\ quoted_range d1 d2 post
                 /\ a = decimal_value 0 d1 /\ b = decimal_value 0 d2)))
  /\ (forall block d pre d1 d2 post,
        parse_fields block = Ok d ->
        strip block
        = pre ++ str "Offer Price" ++ (d1 ++ "-"%char :: d2) ++ post ->
        first_place no_flags offer_price_re pre
          (str "Offer Price" ++ (d1 ++ "-"%char :: d2) ++ post) ->
        quoted_range d1 d2 post ->
        (List.length d1 <= int_max_str_digits)%nat ->
        (List.length d2 <= int_max_str_digits)%nat ->
        decimal_value 0 d1 <> 0 ->
        exists a b,
          offer_price_min d = Some a /\ offer_price_max d = Some b
          /\ a = decimal_value 0 d1 /\ b = decimal_value 0 d2
          /\ (a <= b <-> decimal_value 0 d1 <= decimal_value 0 d2))
  /\ (forall block d pre g post,
        parse_fields block = Ok d ->
        strip block = pre ++ str "Offer Price" ++ g ++ post ->
        first_place no_flags offer_price_re pre
          (str "Offer Price" ++ g ++ post) ->
        quoted_number g post ->
        (List.length g <= int_max_str_digits)%nat ->
        decimal_value 0 g <> 0 ->
        offer_price_min d = Some (decimal_value 0 g)
        /\ offer_price_max d = Some (decimal_value 0 g))
  /\ parse_single_ipo_block descending_block = Ok (Some descending_record).
Proof.
  split; [|split; [|split]].
  - intros block d a b H Ha Hb.
    apply parse_fields_inv in H as (_ & _ & Hprice & _).
    rewrite Ha, Hb in Hprice. unfold block_price in Hprice.
    destruct (search no_flags offer_price_re (strip block)) as [m|] eqn:Es;
      [|discriminate].
    destruct (offer_price_found _ _ Es) as (pre & g & post & E & Hp & Hq & Hg).
    rewrite Hg in Hprice. exists pre, g, post.
    split; [exact E|]. split; [exact Hp|].
    destruct Hq as [Hq|(d1 & d2 & -> & Hq)].
    + left. destruct Hq as (Hd & Hn & Hne).
      rewrite (extract_price_number _ Hd Hn) in Hprice.
      destruct (py_int g) as [v|] eqn:Ei; [|discriminate].
      destruct (v =? 0); [discriminate|]. injection Hprice as <- <-.
      destruct (py_int_digits _ _ Hd Ei) as (Hv & _ & _).
      split; [now split|]. split; [exact Hv|reflexivity].
    + right. exists d1, d2. destruct Hq as (H1 & N1 & H2 & N2 & Hpost).
      rewrite (extract_price_range _ _ H1 H2) in Hprice.
      destruct (py_int d1) as [v1|] eqn:E1; [|discriminate].
      destruct (py_int d2) as [v2|] eqn:E2; [|discriminate].
      destruct (v1 =? 0); [discriminate|]. injection Hprice as <- <-.
      destruct (py_int_digits _ _ H1 E1) as (Hv1 & _ & _).
      destruct (py_int_digits _ _ H2 E2) as (Hv2 & _ & _).
      split; [reflexivity|]. split; [repeat split; assumption|]. now split.
  - intros block d pre d1 d2 post H E Hp Hq L1 L2 Hz.
    apply parse_fields_inv in H as (_ & _ & Hprice & _). rewrite E in Hprice.
    rewrite block_price_at in Hprice;
      [|exact Hp|right; exists d1, d2; split; [reflexivity|exact Hq]].
    destruct Hq as (H1 & N1 & H2 & N2 & Hpost).
    rewrite (extract_price_range _ _ H1 H2), (py_int_short _ H1 N1 L1),
      (py_int_short _ H2 N2 L2) in Hprice.
    apply Z.eqb_neq in Hz. rewrite Hz in Hprice. injection Hprice as <- <-.
    exists (decimal_value 0 d1), (decimal_value 0 d2). repeat split; auto.
  - intros block d pre g post H E Hp Hq L Hz.
    apply parse_fields_inv in H as (_ & _ & Hprice & _). rewrite E in Hprice.
    rewrite block_price_at in Hprice; [|exact Hp|now left].
    destruct Hq as (Hd & Hn & Hne).
    rewrite (extract_price_number _ Hd Hn), (py_int_short _ Hd Hn L) in Hprice.
    apply Z.eqb_neq in Hz. rewrite Hz in Hprice. injection Hprice as <- <-.
    now split.
  - vm_compute. reflexivity.
Qed.

Lemma C3_witness :
  exists pre g post,
    strip descending_block = pre ++ str "Offer Price" ++ g ++ post
    /\ first_place no_flags offer_price_re pre (str "Offer Price" ++ g ++ post)
    /\ ((quoted_number g post /\ 170 = decimal_value 0 g /\ 160 = 170)
        \/ (exists d1 d2,
              g = d1 ++ "-"%char :: d2 /\ quoted_range d1 d2 post
              /\ 170 = decimal_value 0 d1 /\ 160 = decimal_value 0 d2)).
Proof.
  apply (proj1 C3_price_fields_in_source_order
           descending_block descending_record 170 160);
    vm_compute; reflexivity.
Defined.

(** C3, as the claim has it, fails: the block "Offer Price170-160Lot
    Size100" is accepted with minimum 170 and maximum 160. *)
Lemma C3_counterexample :
  ~ (forall block d a b,
       parse_single_ipo_block block = Ok (Some d) ->
       offer_price_min d = Some a -> offer_price_max d = Some b -> a <= b).
Proof.
  intros H.
  assert (E : parse_single_ipo_block descending_block = Ok (Some descending_record))
    by (vm_compute; reflexivity).
  specialize (H descending_block descending_record 170 160 E eq_refl eq_refl).
  lia.
Qed.

(** ** The premium of a block *)

Lemma split_at_sep c : forall g X Y tl,
  X ++ c :: Y = g ++ tl ->
  contains_char c g = false -> contains_char c X = false ->
  exists mid, X = g ++ mid /\ tl = mid ++ c :: Y.
Proof.
  induction g as [|a g' IH]; intros X Y tl E Hg HX.
  - exists X. split; [reflexivity|]. now cbn [app] in E.
  - cbn [contains_char existsb] in Hg. apply orb_false_iff in Hg as [Ha Hg'].
    destruct X as [|x X'].
    + cbn [app] in E. injection E as Ec _. subst a.
      rewrite Ascii.eqb_refl in Ha. discriminate.
    + cbn [app] in E. injection E as -> E.
      cbn [contains_char existsb] in HX. apply orb_false_iff in HX as [_ HX'].
      destruct (IH X' Y tl E Hg' HX') as (mid & -> & ->).
      exists mid. split; reflexivity.
Qed.

Lemma digit_not_paren c : is_digit c = true -> Ascii.eqb "(" c = false.
Proof. destruct c as [[] [] [] [] [] [] [] []]; vm_compute; congruence. Qed.

Lemma all_digits_no_paren u :
  all_digits u = true -> contains_char "(" u = false.
Proof.
  unfold all_digits, contains_char.
  induction u as [|c t IH]; cbn [forallb existsb]; [reflexivity|].
  rewrite andb_true_iff. intros [Hc Ht].
  now rewrite (digit_not_paren _ Hc), IH.
Qed.

Lemma quoted_no_paren g tl :
  quoted_number g tl
  \/ (exists d1 d2, g = d1 ++ "-"%char :: d2 /\ quoted_range d1 d2 tl) ->
  contains_char "(" g = false.
Proof.
  intros [(Hd & _)|(d1 & d2 & -> & H1 & _ & H2 & _)].
  - now apply all_digits_no_paren.
  - rewrite contains_char_app. cbn [contains_char existsb].
    fold (contains_char "(" d1). fold (contains_char "(" d2).
    now rewrite (all_digits_no_paren _ H1), (all_digits_no_paren _ H2).
Qed.

Lemma no_paren_cls mid :
  contains_char "(" mid = false <->
  forallb (cls_matches no_flags true [CChar "("]) mid = true.
Proof.
  unfold contains_char.
  induction mid as [|c t IH]; cbn [forallb existsb]; [tauto|].
  rewrite orb_false_iff, andb_true_iff, IH.
  assert (Hc : cls_matches no_flags true [CChar "("] c = negb (Ascii.eqb "(" c)).
  { unfold cls_matches. cbn. rewrite orb_false_r.
    destruct (Ascii.eqb_spec c "("), (Ascii.eqb_spec "(" c); congruence. }
  rewrite Hc, negb_true_iff. tauto.
Qed.

Lemma chr_dot_nf c : chr_matches no_flags "." c = Ascii.eqb "." c.
Proof. reflexivity. Qed.

(** What [\d+\.?\d*] reads is a percentage text. *)
Lemma lang_percent g :
  lang no_flags (plus digit ;; opt (Chr ".") ;; star digit) g -> percent_text g.
Proof.
  intros H. apply lang_seq_inv in H as (d1 & r & -> & L1 & Lr).
  apply lang_seq_inv in Lr as (o & d2 & -> & Lo & L2).
  apply lang_plus_digit in L1 as [H1 N1]. apply lang_rep_cls in L2 as [H2 _].
  assert (Hd2 : all_digits d2 = true).
  { unfold all_digits. rewrite <- H2. apply forallb_same. intros c.
    symmetry. apply cls_digit_no_flags. }
  exists d1, d2. split; [exact H1|]. split; [exact N1|]. split; [exact Hd2|].
  inversion Lo as [| | | | | ra rb u' La | ra rb u' Lb | | | | | |]; subst.
  - right. apply lang_chr_eq in La as ->. reflexivity.
  - left. inversion Lb; subst. reflexivity.
Qed.

(** [float] reads every percentage text. *)
Lemma py_float_percent g : percent_text g -> exists v, py_float g = Some v.
Proof.
  intros (d1 & d2 & H1 & N1 & H2 & Hg).
  assert (Hdd : forallb digit_or_dot g = true).
  { destruct Hg as [-> | ->]; rewrite forallb_app; cbn [forallb];
      now rewrite (all_digits_dots _ H1), (all_digits_dots _ H2). }
  assert (Hs : strip g = g).
  { apply strip_no_space. clear Hg. induction g as [|c t IH]; [reflexivity|].
    cbn [forallb] in *. apply andb_true_iff in Hdd as [Hc Ht].
    now rewrite (digit_or_dot_not_space _ Hc), IH. }
  unfold py_float. rewrite Hs. destruct Hg as [-> | ->].
  - rewrite split_none.
    + rewrite all_digits_app, H1, H2. cbn [andb].
      destruct d1 as [|c t]; [congruence|]. cbn [app List.length Nat.eqb negb].
      eexists. reflexivity.
    + rewrite contains_char_app, (all_digits_no_dot _ H1), (all_digits_no_dot _ H2).
      reflexivity.
  - rewrite split_app_sep by now apply all_digits_no_dot.
    rewrite split_none by now apply all_digits_no_dot.
    rewrite H1, H2. cbn [andb].
    destruct d1 as [|c t]; [congruence|]. cbn [app List.length Nat.eqb negb].
    eexists. reflexivity.
Qed.

Lemma percent_first pct tl q cs :
  percent_text pct ->
  first_match no_flags (Grp 2 (plus digit ;; opt (Chr ".") ;; star digit))
    (MState q (pct ++ "%"%char :: tl) cs) ("%"%char :: tl)
    ((2%nat, pct) :: cs).
Proof.
  intros (e1 & e2 & H1 & N1 & H2 & [-> | ->]); apply first_grp.
  - eapply first_seq.
    { apply first_plus_cls; [|destruct e1; [congruence|discriminate]|reflexivity].
      apply digits_cls. now rewrite all_digits_app, H1, H2. }
    intros q1. eapply first_seq.
    { apply first_alt_r; [|apply first_eps].
      cbn [run]. now rewrite step_if_cons. }
    intros q2.
    apply (first_star_cls no_flags false [CDigit] [] q2 ("%"%char :: tl));
      reflexivity.
  - rewrite <- app_assoc. cbn [app].
    eapply first_seq.
    { apply first_plus_cls; [now apply digits_cls|exact N1|reflexivity]. }
    intros q1. eapply first_seq; [apply first_alt_l, first_chr; reflexivity|].
    intros q2. apply first_star_cls; [now apply digits_cls|reflexivity].
Qed.

Lemma exp_premium_first g mid pct post q :
  quoted_number g (paren_words mid pct post)
  \/ (exists d1 d2, g = d1 ++ "-"%char :: d2
                    /\ quoted_range d1 d2 (paren_words mid pct post)) ->
  contains_char "(" mid = false -> percent_text pct ->
  first_match no_flags exp_premium_re
    (MState q (premium_words g mid pct post) []) post
    [(2%nat, pct); (1%nat, g)].
Proof.
  intros Hq Hmid Hpct. unfold exp_premium_re, lit, premium_words.
  eapply first_seq; [apply first_lit|]. intros q1.
  eapply first_seq.
  { destruct Hq as [Hq|(d1 & d2 & -> & Hq)];
      [now apply quoted_number_first|now apply quoted_range_first]. }
  intros q2. unfold paren_words. eapply first_seq.
  { apply first_star_cls; [now apply no_paren_cls|reflexivity]. }
  intros q3. eapply first_seq; [apply first_chr; reflexivity|]. intros q4.
  eapply first_seq; [now apply percent_first|]. intros q5.
  eapply first_seq; [apply first_chr; reflexivity|]. intros q6.
  apply first_chr. reflexivity.
Qed.

Lemma exp_premium_shape s :
  (exists u v, s = u ++ v /\ lang no_flags exp_premium_re u) ->
  exists g mid pct post,
    s = premium_words g mid pct post
    /\ (quoted_number g (paren_words mid pct post)
        \/ exists d1 d2, g = d1 ++ "-"%char :: d2
                         /\ quoted_range d1 d2 (paren_words mid pct post))
    /\ contains_char "(" mid = false /\ percent_text pct.
Proof.
  intros (u & v & -> & L). unfold exp_premium_re, lit in L.
  apply lang_seq_inv in L as (w & r1 & -> & Lw & L1).
  apply lang_seq_inv in L1 as (g' & r2 & -> & Lg & L2).
  apply lang_seq_inv in L2 as (mid' & r3 & -> & Lmid & L3).
  apply lang_seq_inv in L3 as (o & r4 & -> & Lo & L4).
  apply lang_seq_inv in L4 as (pct & r5 & -> & Lpct & L5).
  apply lang_seq_inv in L5 as (pc & cl & -> & Lpc & Lcl).
  apply lang_lit_eq in Lw as ->. apply lang_chr_eq in Lo as ->.
  apply lang_chr_eq in Lpc as ->. apply lang_chr_eq in Lcl as ->.
  apply lang_grp_inv, lang_percent in Lpct.
  apply lang_rep_cls in Lmid as [Hmid' _]. apply no_paren_cls in Hmid'.
  apply lang_grp_inv, lang_number_or_range in Lg.
  destruct Lg as (d1 & Hd & Hn & Hg).
  assert (Hg' : contains_char "(" g' = false).
  { destruct Hg as [->|(d2 & Hd2 & _ & ->)]; [now apply all_digits_no_paren|].
    rewrite contains_char_app. cbn [contains_char existsb].
    fold (contains_char "(" d1). fold (contains_char "(" d2).
    now rewrite (all_digits_no_paren _ Hd), (all_digits_no_paren _ Hd2). }
  assert (Hh : exists c t, g' = c :: t /\ is_digit c = true).
  { destruct d1 as [|c t]; [congruence|].
    cbn [all_digits forallb] in Hd. apply andb_true_iff in Hd as [Hc _].
    destruct Hg as [->|(d2 & _ & _ & ->)]; eexists c, _;
      (split; [reflexivity|exact Hc]). }
  destruct Hh as (c & t & Eg & Hc).
  set (Y := pct ++ "%"%char :: ")"%char :: v).
  assert (ET : (str "Exp. Premium" ++ g' ++ mid' ++ ["("%char] ++ pct
                ++ ["%"%char] ++ [")"%char]) ++ v
               = str "Exp. Premium" ++ (g' ++ mid') ++ "("%char :: Y).
  { unfold Y. rewrite <- !app_assoc. reflexivity. }
  rewrite ET.
  destruct (quoted_shape c (t ++ mid' ++ "("%char :: Y) Hc) as (g & tl & E & Hq).
  assert (E' : (g' ++ mid') ++ "("%char :: Y = g ++ tl).
  { rewrite Eg, <- app_assoc. exact E. }
  destruct (split_at_sep "(" g (g' ++ mid') Y tl E') as (mid & EX & Etl).
  - exact (quoted_no_paren _ _ Hq).
  - now rewrite contains_char_app, Hg', Hmid'.
  - exists g, mid, pct, v. unfold premium_words, paren_words. fold Y.
    rewrite <- Etl. split; [now rewrite E'|]. split; [exact Hq|].
    split; [|exact Lpct].
    assert (Hx : contains_char "(" (g' ++ mid') = false)
      by now rewrite contains_char_app, Hg', Hmid'.
    rewrite EX, contains_char_app in Hx. now apply orb_false_iff in Hx.
Qed.

(** What the search for the premium pattern finds: behind the first
    "Exp. Premium" at which the pattern matches, the whole number or the
    whole range, and the percentage of the first parenthesis. *)
Lemma exp_premium_found ft m :
  search no_flags exp_premium_re ft = Some m ->
  exists pre g mid pct post,
    ft = pre ++ premium_words g mid pct post
    /\ first_place no_flags exp_premium_re pre (premium_words g mid pct post)
    /\ (quoted_number g (paren_words mid pct post)
        \/ exists d1 d2, g = d1 ++ "-"%char :: d2
                         /\ quoted_range d1 d2 (paren_words mid pct post))
    /\ contains_char "(" mid = false /\ percent_text pct
    /\ group 1 m = Some g /\ group 2 m = Some pct.
Proof.
  intros H.
  destruct (search_leftmost no_flags exp_premium_re _ _ eq_refl H)
    as (pre & suf & -> & Hp & Hm).
  destruct (exp_premium_shape suf (match_here_lang _ _ _ _ _ Hm))
    as (g & mid & pct & post & -> & Hq & Hmid & Hpct).
  exists pre, g, mid, pct, post. split; [reflexivity|]. split; [exact Hp|].
  split; [exact Hq|]. split; [exact Hmid|]. split; [exact Hpct|].
  unfold group.
  rewrite (match_here_first _ _ _ _ _ _ _ Hm
             (exp_premium_first g mid pct post _ Hq Hmid Hpct)).
  split; reflexivity.
Qed.

Lemma exp_premium_at pre g mid pct post :
  first_place no_flags exp_premium_re pre (premium_words g mid pct post) ->
  quoted_number g (paren_words mid pct post)
  \/ (exists d1 d2, g = d1 ++ "-"%char :: d2
                    /\ quoted_range d1 d2 (paren_words mid pct post)) ->
  contains_char "(" mid = false -> percent_text pct ->
  exists m, search no_flags exp_premium_re (pre ++ premium_words g mid pct post)
            = Some m
            /\ group 1 m = Some g /\ group 2 m = Some pct.
Proof.
  intros Hp Hq Hmid Hpct.
  destruct (search_at_first_place no_flags exp_premium_re _ _ _ _ eq_refl Hp
              (exp_premium_first g mid pct post _ Hq Hmid Hpct))
    as (m & Hm & Hc).
  exists m. split; [exact Hm|]. unfold group. rewrite Hc. split; reflexivity.
Qed.

(** The premium step on a text whose first premium is a single number. *)
Lemma block_premium_number_at pre g mid pct post :
  first_place no_flags exp_premium_re pre (premium_words g mid pct post) ->
  quoted_number g (paren_words mid pct post) ->
  contains_char "(" mid = false -> percent_text pct ->
  (List.length g <= int_max_str_digits)%nat ->
  exists pv, py_float pct = Some pv
    /\ block_premium (pre ++ premium_words g mid pct post)
       = Ok (Some (inl (decimal_value 0 g), pv)).
Proof.
  intros Hp Hq Hmid Hpct Hl.
  destruct (exp_premium_at _ _ _ _ _ Hp (or_introl Hq) Hmid Hpct)
    as (m & Hm & H1 & H2).
  destruct (py_float_percent _ Hpct) as (pv & Hpv). exists pv.
  split; [exact Hpv|]. destruct Hq as (Hd & Hn & _).
  unfold block_premium. rewrite Hm, H1, H2, Hpv.
  now rewrite (all_digits_no_dash _ Hd), (py_int_short _ Hd Hn Hl).
Qed.

(** The premium step on a text whose first premium is a range. *)
Lemma block_premium_range_at pre d1 d2 mid pct post :
  first_place no_flags exp_premium_re pre
    (premium_words (d1 ++ "-"%char :: d2) mid pct post) ->
  quoted_range d1 d2 (paren_words mid pct post) ->
  contains_char "(" mid = false -> percent_text pct ->
  (List.length d1 <= int_max_str_digits)%nat ->
  (List.length d2 <= int_max_str_digits)%nat ->
  exists pv, py_float pct = Some pv
    /\ block_premium (pre ++ premium_words (d1 ++ "-"%char :: d2) mid pct post)
       = let* avg := int_truediv (decimal_value 0 d1 + decimal_value 0 d2) 2 in
         Ok (Some (inr avg, pv)).
Proof.
  intros Hp Hq Hmid Hpct L1 L2.
  destruct (exp_premium_at _ _ _ _ _ Hp
              (or_intror (ex_intro _ d1 (ex_intro _ d2 (conj eq_refl Hq))))
              Hmid Hpct) as (m & Hm & H1 & H2).
  destruct (py_float_percent _ Hpct) as (pv & Hpv). exists pv.
  split; [exact Hpv|]. destruct Hq as (Hd1 & N1 & Hd2 & N2 & _).
  unfold block_premium. rewrite Hm, H1, H2, Hpv.
  rewrite contains_char_mid, (split_range _ _ Hd1 Hd2). cbn [nth_error].
  now rewrite (py_int_short _ Hd1 N1 L1), (py_int_short _ Hd2 N2 L2).
Qed.

(** What the premium step stores comes from the first premium of the
    text. *)
Lemma block_premium_inv ft ep pv :
  block_premium ft = Ok (Some (ep, pv)) ->
  exists pre g mid pct post,
    ft = pre ++ premium_words g mid pct post
    /\ first_place no_flags exp_premium_re pre (premium_words g mid pct post)
    /\ contains_char "(" mid = false /\ percent_text pct
    /\ py_float pct = Some pv
    /\ ((quoted_number g (paren_words mid pct post)
         /\ (List.length g <= int_max_str_digits)%nat
         /\ ep = inl (decimal_value 0 g) /\ 0 <= decimal_value 0 g)
        \/ (exists d1 d2,
              g = d1 ++ "-"%char :: d2
              /\ quoted_range d1 d2 (paren_words mid pct post)
              /\ (List.length d1 <= int_max_str_digits)%nat
              /\ (List.length d2 <= int_max_str_digits)%nat
              /\ ep = inr (fround (Qmake (decimal_value 0 d1
                                          + decimal_value 0 d2) 2)))).
Proof.
  unfold block_premium.
  destruct (search no_flags exp_premium_re ft) as [m|] eqn:Es; [|discriminate].
  destruct (exp_premium_found _ _ Es)
    as (pre & g & mid & pct & post & E & Hp & Hq & Hmid & Hpct & H1 & H2).
  rewrite H1, H2. destruct (py_float pct) as [pv'|] eqn:Hpv; [|discriminate].
  intros H. exists pre, g, mid, pct, post.
  split; [exact E|]. split; [exact Hp|]. split; [exact Hmid|].
  split; [exact Hpct|].
  destruct Hq as [Hq|(d1 & d2 & -> & Hq)].
  - pose proof Hq as (Hd & Hn & _). rewrite (all_digits_no_dash _ Hd) in H.
    destruct (py_int g) as [v|] eqn:Ei; [|discriminate].
    injection H as <- <-. destruct (py_int_digits _ _ Hd Ei) as (Hv & _ & Hl).
    split; [exact Hpv|]. left. split; [exact Hq|]. split; [exact Hl|].
    split; [now rewrite Hv|]. rewrite <- Hv.
    apply (py_int_nonneg _ _ Ei), all_digits_no_dash, Hd.
  - pose proof Hq as (Hd1 & N1 & Hd2 & N2 & _).
    rewrite contains_char_mid, (split_range _ _ Hd1 Hd2) in H.
    cbn [nth_error] in H.
    destruct (py_int d1) as [lo|] eqn:E1; [|discriminate].
    destruct (py_int d2) as [hi|] eqn:E2; [|discriminate].
    unfold bind in H.
    destruct (int_truediv (lo + hi) 2) as [a|] eqn:Ea; [|discriminate].
    injection H as <- <-.
    destruct (py_int_digits _ _ Hd1 E1) as (-> & _ & L1).
    destruct (py_int_digits _ _ Hd2 E2) as (-> & _ & L2).
    split; [exact Hpv|]. right. exists d1, d2.
    split; [reflexivity|]. split; [exact Hq|]. split; [exact L1|].
    split; [exact L2|]. now rewrite (int_truediv_2 _ _ Ea).
Qed.

(** C5.  The premium step sets [expected_premium] and [premium_percentage]
    together or not at all, in the block parser and in [extract_premium].
    A float stored as premium is the mean of the two whole numbers of the
    range that stands right behind "Exp. Premium" at the first place where
    the premium pattern matches, and the percentage stored with it is the
    one of the first parenthesis behind the range.  Conversely, whenever
    such a range with a percentage in parentheses is the first match, the
    premium is the mean of its two bounds, halves included: "24-25 (32%)"
    gives 24.5 and 32.0, "15-16 (2.9%)" gives 15.5 and the float 2.9. *)
Theorem C5_premium_pair_and_mean :
  (forall block d,
     parse_fields block = Ok d ->
     (expected_premium d = None <-> premium_percentage d = None))
  /\ (forall t ep pp,
        extract_premium t = Ok (ep, pp) -> (ep = None <-> pp = None))
  /\ (forall block d x,
        parse_fields block = Ok d -> expected_premium d = Some (inr x) ->
        exists pre d1 d2 mid pct post pv,
          strip block
          = pre ++ premium_words (d1 ++ "-"%char :: d2) mid pct post
          /\ first_place no_flags exp_premium_re pre
               (premium_words (d1 ++ "-"%char :: d2) mid pct post)
          /\ quoted_range d1 d2 (paren_words mid pct post)
          /\ contains_char "(" mid = false /\ percent_text pct
          /\ x = fround (Qmake (decimal_value 0 d1 + decimal_value 0 d2) 2)
          /\ py_float pct = Some pv /\ premium_percentage d = Some pv)
  /\ (forall block d pre d1 d2 mid pct post,
        parse_fields block = Ok d ->
        strip block
        = pre ++ premium_words (d1 ++ "-"%char :: d2) mid pct post ->
        first_place no_flags exp_premium_re pre
          (premium_words (d1 ++ "-"%char :: d2) mid pct post) ->
        quoted_range d1 d2 (paren_words mid pct post) ->
        contains_char "(" mid = false -> percent_text pct ->
        (List.length d1 <= int_max_str_digits)%nat ->
        (List.length d2 <= int_max_str_digits)%nat ->
        expected_premium d
        = Some (inr (fround (Qmake (decimal_value 0 d1 + decimal_value 0 d2) 2)))
        /\ premium_percentage d = py_float pct
        /\ premium_percentage d <> None)
  /\ extract_premium (str "24-25 (32%)")
     = Ok (Some (inr (Fin (49 # 2))), Some (Fin (32 # 1)))
  /\ extract_premium (str "15-16 (2.9%)")
     = Ok (Some (inr (Fin (31 # 2))), Some (fround (29 # 10)))
  /\ (exists d, parse_fields (str "Exp. Premium24-25 (32%)") = Ok d
                /\ expected_premium d = Some (inr (Fin (49 # 2)))
                /\ premium_percentage d = Some (Fin (32 # 1)))
  /\ (exists d, parse_fields (str "Exp. Premium15-16 (2.9%)") = Ok d
                /\ expected_premium d = Some (inr (Fin (31 # 2)))
                /\ premium_percentage d = Some (fround (29 # 10))).
Proof.
  split; [|split; [|split; [|split; [|split; [|split; [|split]]]]]].
  - intros block d H.
    apply parse_fields_inv in H as (_ & _ & _ & _ & _ & (prem & _ & -> & ->) & _).
    destruct prem; simpl; split; congruence.
  - exact extract_premium_both.
  - intros block d x H Hx.
    apply parse_fields_inv in H as (_ & _ & _ & _ & _ & (prem & Hp & He & Hpc) & _).
    rewrite He in Hx. destruct prem as [[ep pv]|]; [|discriminate].
    simpl in Hx. injection Hx as ->. cbn [option_map snd] in Hpc.
    apply block_premium_inv in Hp
      as (pre & g & mid & pct & post & E & Hfp & Hmid & Hpct & Hpv & Hq).
    destruct Hq as [(_ & _ & Hep & _)|(d1 & d2 & -> & Hq & _ & _ & Hep)];
      [discriminate|].
    injection Hep as ->.
    exists pre, d1, d2, mid, pct, post, pv.
    split; [exact E|]. split; [exact Hfp|]. split; [exact Hq|].
    split; [exact Hmid|]. split; [exact Hpct|]. split; [reflexivity|].
    split; [exact Hpv|exact Hpc].
  - intros block d pre d1 d2 mid pct post H E Hfp Hq Hmid Hpct L1 L2.
    apply parse_fields_inv in H as (_ & _ & _ & _ & _ & (prem & Hp & He & Hpc) & _).
    rewrite E in Hp.
    destruct (block_premium_range_at _ _ _ _ _ _ Hfp Hq Hmid Hpct L1 L2)
      as (pv & Hpv & Hb).
    rewrite Hb in Hp. unfold bind in Hp.
    destruct (int_truediv _ 2) as [a|] eqn:Ea; [|discriminate].
    injection Hp as <-. cbn [option_map fst snd] in He, Hpc.
    rewrite He, Hpc, Hpv, (int_truediv_2 _ _ Ea).
    split; [reflexivity|]. split; [reflexivity|discriminate].
  - vm_compute. reflexivity.
  - vm_compute. reflexivity.
  - eexists. split; [vm_compute; reflexivity|]. split; vm_compute; reflexivity.
  - eexists. split; [vm_compute; reflexivity|]. split; vm_compute; reflexivity.
Qed.

Lemma C5_witness :
  exists pre d1 d2 mid pct post pv,
    strip sample_block
    = pre ++ premium_words (d1 ++ "-"%char :: d2) mid pct post
    /\ first_place no_flags exp_premium_re pre
         (premium_words (d1 ++ "-"%char :: d2) mid pct post)
    /\ quoted_range d1 d2 (paren_words mid pct post)
    /\ contains_char "(" mid = false /\ percent_text pct
    /\ Fin (49 # 2)
       = fround (Qmake (decimal_value 0 d1 + decimal_value 0 d2) 2)
    /\ py_float pct = Some pv /\ premium_percentage sample_record = Some pv.
Proof.
  apply (proj1 (proj2 (proj2 C5_premium_pair_and_mean))
           sample_block sample_record (Fin (49 # 2))).
  - vm_compute. reflexivity.
  - reflexivity.
Defined.

(** X3.  An [expected_premium] that is an [int] is the single whole number
    that stands right behind "Exp. Premium" at the first place where the
    premium pattern matches: no digit follows it, and no dash with a digit
    behind.  It is never negative, and the percentage of the first
    parenthesis behind it is stored with it.  Conversely such a single
    number always gives an [int], and a range always gives a float, also
    when its mean is whole. *)
Theorem X3_integer_premium_as_quoted :
  (forall block d v,
     parse_fields block = Ok d -> expected_premium d = Some (inl v) ->
     exists pre g mid pct post pv,
       strip block = pre ++ premium_words g mid pct post
       /\ first_place no_flags exp_premium_re pre
            (premium_words g mid pct post)
       /\ quoted_number g (paren_words mid pct post)
       /\ contains_char "(" mid = false /\ percent_text pct
       /\ v = decimal_value 0 g /\ 0 <= v
       /\ py_float pct = Some pv /\ premium_percentage d = Some pv)
  /\ (forall block d pre g mid pct post,
        parse_fields block = Ok d ->
        strip block = pre ++ premium_words g mid pct post ->
        first_place no_flags exp_premium_re pre
          (premium_words g mid pct post) ->
        quoted_number g (paren_words mid pct post) ->
        contains_char "(" mid = false -> percent_text pct ->
        (List.length g <= int_max_str_digits)%nat ->
        expected_premium d = Some (inl (decimal_value 0 g))
        /\ premium_percentage d = py_float pct)
  /\ (forall block d pre d1 d2 mid pct post,
        parse_fields block = Ok d ->
        strip block
        = pre ++ premium_words (d1 ++ "-"%char :: d2) mid pct post ->
        first_place no_flags exp_premium_re pre
          (premium_words (d1 ++ "-"%char :: d2) mid pct post) ->
        quoted_range d1 d2 (paren_words mid pct post) ->
        contains_char "(" mid = false -> percent_text pct ->
        (List.length d1 <= int_max_str_digits)%nat ->
        (List.length d2 <= int_max_str_digits)%nat ->
        exists x, expected_premium d = Some (inr x)).
Proof.
  split; [|split].
  - intros block d v H Hv.
    apply parse_fields_inv in H as (_ & _ & _ & _ & _ & (prem & Hp & He & Hpc) & _).
    rewrite He in Hv. destruct prem as [[ep pv]|]; [|discriminate].
    simpl in Hv. injection Hv as ->. cbn [option_map snd] in Hpc.
    apply block_premium_inv in Hp
      as (pre & g & mid & pct & post & E & Hfp & Hmid & Hpct & Hpv & Hq).
    destruct Hq as [(Hq & _ & Hep & Hnn)|(d1 & d2 & _ & _ & _ & _ & Hep)];
      [|discriminate].
    injection Hep as ->.
    exists pre, g, mid, pct, post, pv.
    split; [exact E|]. split; [exact Hfp|]. split; [exact Hq|].
    split; [exact Hmid|]. split; [exact Hpct|]. split; [reflexivity|].
    split; [exact Hnn|]. split; [exact Hpv|exact Hpc].
  - intros block d pre g mid pct post H E Hfp Hq Hmid Hpct L.
    apply parse_fields_inv in H as (_ & _ & _ & _ & _ & (prem & Hp & He & Hpc) & _).
    rewrite E in Hp.
    destruct (block_premium_number_at _ _ _ _ _ Hfp Hq Hmid Hpct L)
      as (pv & Hpv & Hb).
    rewrite Hb in Hp. injection Hp as <-. cbn [option_map fst snd] in He, Hpc.
    now rewrite He, Hpc, Hpv.
  - intros block d pre d1 d2 mid pct post H E Hfp Hq Hmid Hpct L1 L2.
    apply parse_fields_inv in H as (_ & _ & _ & _ & _ & (prem & Hp & He & Hpc) & _).
    rewrite E in Hp.
    destruct (block_premium_range_at _ _ _ _ _ _ Hfp Hq Hmid Hpct L1 L2)
      as (pv & Hpv & Hb).
    rewrite Hb in Hp. unfold bind in Hp.
    destruct (int_truediv _ 2) as [a|] eqn:Ea; [|discriminate].
    injection Hp as <-. cbn [option_map fst] in He. now exists a.
Qed.

Lemma X3_witness :
  exists pre g mid pct post pv,
    strip (str "Exp. Premium25 (35.71%)") = pre ++ premium_words g mid pct post
    /\ first_place no_flags exp_premium_re pre (premium_words g mid pct post)
    /\ quoted_number g (paren_words mid pct post)
    /\ contains_char "(" mid = false /\ percent_text pct
    /\ 25 = decimal_value 0 g /\ 0 <= 25
    /\ py_float pct = Some pv
    /\ premium_percentage
         {| company_name := str "Unknown Company";
            offer_price_min := None; offer_price_max := None;
            lot_size := None; subscription_times := None;
            expected_premium := Some (inl 25);
            premium_percentage := Some (fround (3571 # 100));
            offer_start_date := None; offer_end_date := None;
            ipo_type := str "Current"; investment_per_lot := None |} = Some pv.
Proof.
  apply (proj1 X3_integer_premium_as_quoted (str "Exp. Premium25 (35.71%)")).
  - vm_compute. reflexivity.
  - reflexivity.
Defined.

(** ** extract_subscription and extract_premium, pinned *)

Lemma first_lit_ci w0 w p t cs :
  starts_with true w0 w = true -> List.length w = List.length w0 ->
  first_match IGNORECASE (lit_chars w0) (MState p (w ++ t) cs) t cs.
Proof.
  intros Hs Hl. exists (p + List.length w0)%nat, []. rewrite run_lit.
  cbn [rest pos caps]. change (ignorecase IGNORECASE) with true.
  rewrite (starts_with_app_l true w0 w t Hs), <- Hl.
  now rewrite skipn_app, skipn_all, Nat.sub_diag.
Qed.

Lemma lower_t c :
  lower c = "t"%char ->
  Ascii.eqb "t" (lower c) = true /\ digit_or_dot c = false /\ is_space c = false.
Proof.
  destruct c as [[] [] [] [] [] [] [] []]; vm_compute; intros H;
    try discriminate; repeat split.
Qed.

(** The word "times" in capitals or small letters. *)
Lemma times_word w :
  map lower w = str "times" ->
  starts_with true (str "times") w = true /\ List.length w = 5%nat
  /\ match w with
     | c :: _ => digit_or_dot c = false /\ is_space c = false
     | [] => False
     end.
Proof.
  intros H. pose proof (f_equal (@List.length ascii) H) as Hl.
  rewrite length_map in Hl. split; [|split; [exact Hl|]].
  - assert (E : map lower (str "times") = str "times") by reflexivity.
    rewrite <- E in H. clear E Hl.
    revert H. generalize (str "times"). induction w as [|c t IH];
      intros [|p ps] H; try discriminate; [reflexivity|].
    cbn [map] in H. injection H as Hc Ht. cbn [starts_with].
    rewrite Hc, Ascii.eqb_refl. now apply IH.
  - destruct w as [|c r]; [discriminate|]. cbn [map] in H.
    injection H as Hc _. now apply lower_t in Hc.
Qed.

Lemma space_not_digit_dot c : is_space c = true -> digit_or_dot c = false.
Proof. destruct c as [[] [] [] [] [] [] [] []]; vm_compute; congruence. Qed.

Lemma times_first g ws w post q :
  g <> [] -> forallb digit_or_dot g = true -> forallb is_space ws = true ->
  map lower w = str "times" ->
  first_match IGNORECASE times_re
    (MState q (g ++ ws ++ w ++ post) []) post [(1%nat, g)].
Proof.
  intros Hn Hg Hws Hw. destruct (times_word _ Hw) as (Hs & Hl & Hh).
  destruct w as [|c0 w0]; [destruct Hh|]. destruct Hh as [Hc1 Hc2].
  unfold times_re, lit.
  eapply first_seq.
  { apply first_grp, first_plus_cls; [|exact Hn|].
    - rewrite (forallb_same _ digit_or_dot); [exact Hg|apply cls_digit_dot_ci].
    - destruct ws as [|c r]; cbn [app]; rewrite cls_digit_dot_ci; [exact Hc1|].
      cbn [forallb] in Hws. apply andb_true_iff in Hws as [Hc _].
      now apply space_not_digit_dot. }
  intros q1. eapply first_seq.
  { apply first_star_cls.
    - rewrite (forallb_same _ is_space); [exact Hws|apply cls_space_ci].
    - cbn [app]. now rewrite cls_space_ci. }
  intros q2. now apply first_lit_ci.
Qed.

Lemma times_shape s :
  (exists u v, s = u ++ v /\ lang IGNORECASE times_re u) ->
  exists g ws w post,
    s = g ++ ws ++ w ++ post
    /\ g <> [] /\ forallb digit_or_dot g = true
    /\ forallb is_space ws = true /\ map lower w = str "times".
Proof.
  intros (u & v & -> & L). unfold times_re, lit in L.
  apply lang_seq_inv in L as (g & r & -> & Lg & Lr).
  apply lang_grp_inv, lang_rep_cls in Lg. destruct Lg as [Hc Hn].
  apply lang_space_times in Lr as (ws & w & -> & Hws & Hw & _).
  exists g, ws, w, v. split; [now rewrite <- !app_assoc|].
  split; [intros ->; simpl in Hn; lia|].
  split; [|auto].
  rewrite <- Hc. apply forallb_same. intros c. symmetry. apply cls_digit_dot_ci.
Qed.

(** What the search for [([\d.]+)\s*times] finds: the run of digits and
    dots in front of the first "times" before which such a run stands. *)
Lemma times_found t m :
  search IGNORECASE times_re t = Some m ->
  exists pre g ws w post,
    t = pre ++ g ++ ws ++ w ++ post
    /\ first_place IGNORECASE times_re pre (g ++ ws ++ w ++ post)
    /\ g <> [] /\ forallb digit_or_dot g = true
    /\ forallb is_space ws = true /\ map lower w = str "times"
    /\ group 1 m = Some g.
Proof.
  intros H.
  destruct (search_leftmost IGNORECASE times_re _ _ eq_refl H)
    as (pre & suf & -> & Hp & Hm).
  destruct (times_shape suf (match_here_lang _ _ _ _ _ Hm))
    as (g & ws & w & post & -> & Hn & Hg & Hws & Hw).
  exists pre, g, ws, w, post. split; [reflexivity|]. split; [exact Hp|].
  split; [exact Hn|]. split; [exact Hg|]. split; [exact Hws|].
  split; [exact Hw|]. unfold group.
  now rewrite (match_here_first _ _ _ _ _ _ _ Hm
                 (times_first g ws w post _ Hn Hg Hws Hw)).
Qed.

(** X6.  [extract_subscription] reads the run of digits and dots that
    stands in front of "times" at the first place where its pattern
    matches.  When it gives a float, the text is [pre], the whole run [g],
    whitespace or nothing, the word "times" in capitals or small letters,
    and the rest; [re.match] of the pattern fails everywhere within [pre],
    and the float is [g] read by [float].  Conversely a text of this shape
    gives what [float] makes of [g].  A text in which the word does not
    occur gives [None]. *)
Theorem X6_extract_subscription_number_before_times :
  (forall t v,
     extract_subscription t = Some v ->
     exists pre g ws w post,
       t = pre ++ g ++ ws ++ w ++ post
       /\ first_place IGNORECASE times_re pre (g ++ ws ++ w ++ post)
       /\ g <> [] /\ forallb digit_or_dot g = true
       /\ forallb is_space ws = true /\ map lower w = str "times"
       /\ py_float g = Some v)
  /\ (forall pre g ws w post,
        first_place IGNORECASE times_re pre (g ++ ws ++ w ++ post) ->
        g <> [] -> forallb digit_or_dot g = true ->
        forallb is_space ws = true -> map lower w = str "times" ->
        extract_subscription (pre ++ g ++ ws ++ w ++ post) = py_float g)
  /\ (forall t,
        occurs true (str "times") t = false -> extract_subscription t = None).
Proof.
  split; [|split].
  - intros t v H. unfold extract_subscription in H.
    destruct t as [|c0 t0]; [discriminate|].
    destruct (search IGNORECASE times_re (c0 :: t0)) as [m|] eqn:Es;
      [|discriminate].
    destruct (times_found _ _ Es)
      as (pre & g & ws & w & post & E & Hp & Hn & Hg & Hws & Hw & Hg1).
    rewrite Hg1 in H. exists pre, g, ws, w, post. auto 10.
  - intros pre g ws w post Hp Hn Hg Hws Hw.
    destruct (search_at_first_place IGNORECASE times_re _ _ _ _ eq_refl Hp
                (times_first g ws w post _ Hn Hg Hws Hw)) as (m & Hm & Hc).
    unfold extract_subscription.
    destruct (pre ++ g ++ ws ++ w ++ post) as [|c0 t0] eqn:E.
    + apply app_eq_nil in E as [_ E]. apply app_eq_nil in E as [E _].
      congruence.
    + rewrite Hm. unfold group. rewrite Hc. reflexivity.
  - intros t H. destruct (extract_subscription t) as [v|] eqn:E; [|reflexivity].
    apply extract_subscription_reads in E
      as (pre & g & ws & w & post & -> & _ & _ & _ & _ & Hs & _).
    assert (Ho : occurs true (str "times") (pre ++ g ++ ws ++ w ++ post) = true).
    { do 3 apply occurs_app_r. apply starts_with_occurs, starts_with_app_l, Hs. }
    congruence.
Qed.

Lemma X6_witness :
  exists pre g ws w post,
    str "Subscribed 2.91 Times so far" = pre ++ g ++ ws ++ w ++ post
    /\ first_place IGNORECASE times_re pre (g ++ ws ++ w ++ post)
    /\ g <> [] /\ forallb digit_or_dot g = true
    /\ forallb is_space ws = true /\ map lower w = str "times"
    /\ py_float g = Some (fround (291 # 100)).
Proof.
  apply (proj1 X6_extract_subscription_number_before_times
           (str "Subscribed 2.91 Times so far")).
  vm_compute. reflexivity.
Defined.

Lemma cls_digit_dash_nf c :
  cls_matches no_flags false [CDigit; CChar "-"] c = digit_or_dash c.
Proof. destruct c as [[] [] [] [] [] [] [] []]; reflexivity. Qed.

Lemma space_not_digit_dash c : is_space c = true -> digit_or_dash c = false.
Proof. destruct c as [[] [] [] [] [] [] [] []]; vm_compute; congruence. Qed.

Lemma premium_first g ws pct post q :
  g <> [] -> forallb digit_or_dash g = true -> forallb is_space ws = true ->
  percent_text pct ->
  first_match no_flags premium_re
    (MState q (g ++ paren_words ws pct post) []) post
    [(2%nat, pct); (1%nat, g)].
Proof.
  intros Hn Hg Hws Hpct. unfold premium_re, paren_words.
  eapply first_seq.
  { apply first_grp, first_plus_cls; [|exact Hn|].
    - rewrite (forallb_same _ digit_or_dash); [exact Hg|apply cls_digit_dash_nf].
    - destruct ws as [|c r]; cbn [app]; rewrite cls_digit_dash_nf;
        [reflexivity|].
      cbn [forallb] in Hws. apply andb_true_iff in Hws as [Hc _].
      now apply space_not_digit_dash. }
  intros q1. eapply first_seq.
  { apply first_star_cls; [now apply spaces_cls|reflexivity]. }
  intros q2. eapply first_seq; [apply first_chr; reflexivity|]. intros q3.
  eapply first_seq; [now apply percent_first|]. intros q4.
  eapply first_seq; [apply first_chr; reflexivity|]. intros q5.
  apply first_chr. reflexivity.
Qed.

Lemma premium_shape s :
  (exists u v, s = u ++ v /\ lang no_flags premium_re u) ->
  exists g ws pct post,
    s = g ++ paren_words ws pct post
    /\ g <> [] /\ forallb digit_or_dash g = true
    /\ forallb is_space ws = true /\ percent_text pct.
Proof.
  intros (u & v & -> & L). unfold premium_re in L.
  apply lang_seq_inv in L as (g & r1 & -> & Lg & L1).
  apply lang_seq_inv in L1 as (ws & r2 & -> & Lws & L2).
  apply lang_seq_inv in L2 as (o & r3 & -> & Lo & L3).
  apply lang_seq_inv in L3 as (pct & r4 & -> & Lpct & L4).
  apply lang_seq_inv in L4 as (pc & cl & -> & Lpc & Lcl).
  apply lang_chr_eq in Lo as ->. apply lang_chr_eq in Lpc as ->.
  apply lang_chr_eq in Lcl as ->.
  apply lang_grp_inv, lang_percent in Lpct.
  apply lang_grp_inv, lang_rep_cls in Lg. destruct Lg as [Hg Hn].
  apply lang_rep_cls in Lws as [Hws _].
  exists g, ws, pct, v. unfold paren_words.
  split; [rewrite <- !app_assoc; reflexivity|].
  split; [intros ->; simpl in Hn; lia|].
  split; [rewrite <- Hg; apply forallb_same; intros c; symmetry;
          apply cls_digit_dash_nf|].
  split; [|exact Lpct].
  rewrite <- Hws. apply forallb_same. intros c. symmetry. apply cls_space_nf.
Qed.

(** What the search for the pattern of [extract_premium] finds: the whole
    run of digits and dashes in front of the first parenthesis with a
    percentage before which such a run stands. *)
Lemma premium_found t m :
  search no_flags premium_re t = Some m ->
  exists pre g ws pct post,
    t = pre ++ g ++ paren_words ws pct post
    /\ first_place no_flags premium_re pre (g ++ paren_words ws pct post)
    /\ g <> [] /\ forallb digit_or_dash g = true
    /\ forallb is_space ws = true /\ percent_text pct
    /\ group 1 m = Some g /\ group 2 m = Some pct.
Proof.
  intros H.
  destruct (search_leftmost no_flags premium_re _ _ eq_refl H)
    as (pre & suf & -> & Hp & Hm).
  destruct (premium_shape suf (match_here_lang _ _ _ _ _ Hm))
    as (g & ws & pct & post & -> & Hn & Hg & Hws & Hpct).
  exists pre, g, ws, pct, post. split; [reflexivity|]. split; [exact Hp|].
  split; [exact Hn|]. split; [exact Hg|]. split; [exact Hws|].
  split; [exact Hpct|]. unfold group.
  rewrite (match_here_first _ _ _ _ _ _ _ Hm
             (premium_first g ws pct post _ Hn Hg Hws Hpct)).
  split; reflexivity.
Qed.

Lemma digit_dash_all_digits g :
  forallb digit_or_dash g = true -> contains_char "-" g = false ->
  all_digits g = true.
Proof.
  intros Hg Hd. apply digit_dash_digits; [|exact Hd].
  rewrite (forallb_same _ digit_or_dash); [exact Hg|apply cls_digit_dash_nf].
Qed.

Lemma digit_dash_app a b :
  forallb digit_or_dash (a ++ "-"%char :: b) = true ->
  forallb digit_or_dash a = true /\ forallb digit_or_dash b = true.
Proof.
  rewrite forallb_app. cbn [forallb]. rewrite !andb_true_iff. tauto.
Qed.

Lemma all_digits_dash d : all_digits d = true -> forallb digit_or_dash d = true.
Proof.
  unfold all_digits. induction d as [|c t IH]; [reflexivity|]. cbn [forallb].
  rewrite andb_true_iff. intros [Hc Ht]. unfold digit_or_dash at 1.
  now rewrite Hc, IH.
Qed.

(** [extract_premium] on a text in which its pattern first matches in
    front of the run [g]: what it makes of [g] and of the percentage. *)
Lemma extract_premium_at pre g ws pct post :
  first_place no_flags premium_re pre (g ++ paren_words ws pct post) ->
  occurs false (str "N/A") (pre ++ g ++ paren_words ws pct post) = false ->
  g <> [] -> forallb digit_or_dash g = true -> forallb is_space ws = true ->
  percent_text pct ->
  exists pv, py_float pct = Some pv
    /\ extract_premium (pre ++ g ++ paren_words ws pct post)
       = if contains_char "-" g then
           match split "-" g with
           | [p0; p1] =>
               match py_int (strip p0) with
               | None => Ok (None, None)
               | Some min_prem =>
                   match py_int (strip p1) with
                   | None => Ok (None, None)
                   | Some max_prem =>
                       let* avg := int_truediv (min_prem + max_prem) 2 in
                       Ok (Some (inr avg), Some pv)
                   end
               end
           | _ => Ok (None, None)
           end
         else
           match py_int g with
           | Some prem_val => Ok (Some (inl prem_val), Some pv)
           | None => Ok (None, None)
           end.
Proof.
  intros Hp Hna Hn Hg Hws Hpct.
  destruct (search_at_first_place no_flags premium_re _ _ _ _ eq_refl Hp
              (premium_first g ws pct post _ Hn Hg Hws Hpct)) as (m & Hm & Hc).
  destruct (py_float_percent _ Hpct) as (pv & Hpv). exists pv.
  split; [exact Hpv|]. unfold extract_premium.
  destruct (pre ++ g ++ paren_words ws pct post) as [|c0 t0] eqn:E.
  - apply app_eq_nil in E as [_ E]. apply app_eq_nil in E as [E _]. congruence.
  - rewrite Hna, Hm. unfold group. rewrite Hc. cbn [lookup Nat.eqb].
    rewrite Hpv. reflexivity.
Qed.

(** X11.  [extract_premium] reads the whole run of digits and dashes that
    stands in front of the parenthesis of the percentage, at the first
    place where its pattern matches ([re.match] fails at every earlier
    place; whitespace may stand before the parenthesis).  It gives a
    premium only when that run is a plain number (the premium is the
    number, an [int]) or a range of two numbers (the premium is their float
    mean); a plain number and a range of at most 4300 digits each always
    give these, and a run of any other shape, with a leading, trailing or
    second dash, gives no premium and no percentage.  So a premium is never
    read as negative.  The only exception that leaves the function is the
    [OverflowError] of a mean too large for a float. *)
Theorem X11_extract_premium_number_or_range :
  (forall t ep pp,
     extract_premium t = Ok (Some ep, pp) ->
     exists pre g ws pct post pv,
       t = pre ++ g ++ paren_words ws pct post
       /\ first_place no_flags premium_re pre (g ++ paren_words ws pct post)
       /\ forallb is_space ws = true /\ percent_text pct
       /\ py_float pct = Some pv /\ pp = Some pv
       /\ ((all_digits g = true /\ g <> [] /\ ep = inl (decimal_value 0 g))
           \/ (exists d1 d2,
                 g = d1 ++ "-"%char :: d2
                 /\ all_digits d1 = true /\ d1 <> []
                 /\ all_digits d2 = true /\ d2 <> []
                 /\ ep = inr (fround
                                (Qmake (decimal_value 0 d1 + decimal_value 0 d2)
                                       2)))))
  /\ (forall pre g ws pct post,
        first_place no_flags premium_re pre (g ++ paren_words ws pct post) ->
        occurs false (str "N/A") (pre ++ g ++ paren_words ws pct post) = false ->
        forallb is_space ws = true -> percent_text pct ->
        all_digits g = true -> g <> [] ->
        (List.length g <= int_max_str_digits)%nat ->
        extract_premium (pre ++ g ++ paren_words ws pct post)
        = Ok (Some (inl (decimal_value 0 g)), py_float pct))
  /\ (forall pre d1 d2 ws pct post,
        first_place no_flags premium_re pre
          ((d1 ++ "-"%char :: d2) ++ paren_words ws pct post) ->
        occurs false (str "N/A")
          (pre ++ (d1 ++ "-"%char :: d2) ++ paren_words ws pct post) = false ->
        forallb is_space ws = true -> percent_text pct ->
        all_digits d1 = true -> d1 <> [] ->
        (List.length d1 <= int_max_str_digits)%nat ->
        all_digits d2 = true -> d2 <> [] ->
        (List.length d2 <= int_max_str_digits)%nat ->
        extract_premium
          (pre ++ (d1 ++ "-"%char :: d2) ++ paren_words ws pct post)
        = let* avg := int_truediv (decimal_value 0 d1 + decimal_value 0 d2) 2 in
          Ok (Some (inr avg), py_float pct))
  /\ (forall pre g ws pct post,
        first_place no_flags premium_re pre (g ++ paren_words ws pct post) ->
        forallb is_space ws = true -> percent_text pct ->
        forallb digit_or_dash g = true -> g <> [] ->
        all_digits g = false ->
        (forall d1 d2, g = d1 ++ "-"%char :: d2 ->
                       all_digits d1 = true -> all_digits d2 = true ->
                       d1 = [] \/ d2 = []) ->
        extract_premium (pre ++ g ++ paren_words ws pct post)
        = Ok (None, None))
  /\ (forall t e, extract_premium t = Raise e -> e = OverflowError).
Proof.
  split; [|split; [|split; [|split]]].
  - intros t ep pp H. pose proof H as H0. unfold extract_premium in H.
    destruct t as [|c0 t0]; [discriminate|].
    destruct (occurs false (str "N/A") (c0 :: t0)); [discriminate|].
    destruct (search no_flags premium_re (c0 :: t0)) as [m|] eqn:Es;
      [|discriminate].
    destruct (premium_found _ _ Es)
      as (pre & g & ws & pct & post & E & Hp & Hn & Hg & Hws & Hpct & H1 & H2).
    rewrite H1, H2 in H.
    destruct (py_float pct) as [pv|] eqn:Hpv; [|discriminate].
    exists pre, g, ws, pct, post, pv.
    split; [exact E|]. split; [exact Hp|]. split; [exact Hws|].
    split; [exact Hpct|]. split; [exact Hpv|].
    destruct (contains_char "-" g) eqn:Ed.
    + destruct (split "-" g) as [|p0 [|p1 [|p2 r]]] eqn:Esp; try discriminate.
      assert (Hn0 : contains_char "-" p0 = false).
      { apply (split_no_sep "-" g). rewrite Esp. now left. }
      assert (Hn1 : contains_char "-" p1 = false).
      { apply (split_no_sep "-" g). rewrite Esp. right. now left. }
      apply split_pair in Esp. subst g.
      destruct (digit_dash_app _ _ Hg) as [Hg0 Hg1].
      pose proof (digit_dash_all_digits _ Hg0 Hn0) as Hd0.
      pose proof (digit_dash_all_digits _ Hg1 Hn1) as Hd1.
      rewrite (strip_digits _ Hd0), (strip_digits _ Hd1) in H.
      destruct (py_int p0) as [lo|] eqn:E0; [|discriminate].
      destruct (py_int p1) as [hi|] eqn:E1; [|discriminate].
      destruct (py_int_digits _ _ Hd0 E0) as (-> & N0 & _).
      destruct (py_int_digits _ _ Hd1 E1) as (-> & N1 & _).
      unfold bind in H. destruct (int_truediv _ 2) as [x|] eqn:Et; [|discriminate].
      apply int_truediv_2 in Et. injection H as <- <-.
      split; [reflexivity|]. right. exists p0, p1. rewrite Et. auto 10.
    + pose proof (digit_dash_all_digits _ Hg Ed) as Hd.
      destruct (py_int g) as [w|] eqn:Ei; [|discriminate].
      destruct (py_int_digits _ _ Hd Ei) as (-> & N & _).
      injection H as <- <-. split; [reflexivity|]. left. auto.
  - intros pre g ws pct post Hp Hna Hws Hpct Hd Hn Hl.
    destruct (extract_premium_at _ _ _ _ _ Hp Hna Hn (all_digits_dash _ Hd)
                Hws Hpct) as (pv & Hpv & ->).
    now rewrite (all_digits_no_dash _ Hd), (py_int_short _ Hd Hn Hl), Hpv.
  - intros pre d1 d2 ws pct post Hp Hna Hws Hpct H1 N1 L1 H2 N2 L2.
    destruct (extract_premium_at pre (d1 ++ "-"%char :: d2) ws pct post Hp Hna)
      as (pv & Hpv & ->); auto.
    { destruct d1; discriminate. }
    { rewrite forallb_app. cbn [forallb].
      now rewrite (all_digits_dash _ H1), (all_digits_dash _ H2). }
    rewrite contains_char_mid, (split_range _ _ H1 H2),
      (strip_digits _ H1), (strip_digits _ H2),
      (py_int_short _ H1 N1 L1), (py_int_short _ H2 N2 L2), Hpv.
    reflexivity.
  - intros pre g ws pct post Hp Hws Hpct Hg Hn Hnd Hshape.
    destruct (occurs false (str "N/A") (pre ++ g ++ paren_words ws pct post))
      eqn:Hna.
    { unfold extract_premium. rewrite Hna.
      now destruct (pre ++ g ++ paren_words ws pct post). }
    destruct (extract_premium_at _ _ _ _ _ Hp Hna Hn Hg Hws Hpct)
      as (pv & Hpv & ->).
    destruct (contains_char "-" g) eqn:Ed.
    + destruct (split "-" g) as [|p0 [|p1 [|p2 r]]] eqn:Esp; try reflexivity.
      assert (Hn0 : contains_char "-" p0 = false).
      { apply (split_no_sep "-" g). rewrite Esp. now left. }
      assert (Hn1 : contains_char "-" p1 = false).
      { apply (split_no_sep "-" g). rewrite Esp. right. now left. }
      apply split_pair in Esp. subst g.
      destruct (digit_dash_app _ _ Hg) as [Hg0 Hg1].
      pose proof (digit_dash_all_digits _ Hg0 Hn0) as Hd0.
      pose proof (digit_dash_all_digits _ Hg1 Hn1) as Hd1.
      destruct (Hshape p0 p1 eq_refl Hd0 Hd1) as [-> | ->].
      * reflexivity.
      * destruct (py_int (strip p0)); reflexivity.
    + rewrite (digit_dash_all_digits _ Hg Ed) in Hnd. discriminate.
  - exact extract_premium_raises.
Qed.

Lemma X11_witness :
  exists pre g ws pct post pv,
    str "GMP 24-25 (32%)" = pre ++ g ++ paren_words ws pct post
    /\ first_place no_flags premium_re pre (g ++ paren_words ws pct post)
    /\ forallb is_space ws = true /\ percent_text pct
    /\ py_float pct = Some pv /\ Some (fround (32 # 1)) = Some pv
    /\ ((all_digits g = true /\ g <> []
         /\ @inr Z pyfloat (Fin (49 # 2)) = inl (decimal_value 0 g))
        \/ (exists d1 d2,
              g = d1 ++ "-"%char :: d2
              /\ all_digits d1 = true /\ d1 <> []
              /\ all_digits d2 = true /\ d2 <> []
              /\ @inr Z pyfloat (Fin (49 # 2))
                 = inr (fround
                          (Qmake (decimal_value 0 d1 + decimal_value 0 d2) 2)))).
Proof.
  apply (proj1 X11_extract_premium_number_or_range
           (str "GMP 24-25 (32%)") (inr (Fin (49 # 2)))
           (Some (fround (32 # 1)))).
  vm_compute. reflexivity.
Defined.
